(** * TalentScout hiring assistant: the conversation stage machine,
      the field extractor and the session recorder

    Shallow embedding of [app.py], [data_handling.py], [llm_integration.py]
    and [prompt_engineering.py].

    Text model.  In the stage machine and the recorder a Python [str] is
    modelled as a Rocq [string] whose characters are ASCII code points:
    [lower], [isdigit], white space and the regular-expression classes [\d],
    [\s], [\w] are the restrictions of the Python operations to code points
    below 128 (characters from 128 on are left unchanged by [lower] and
    belong to no class).  What is stated about the text that the extractor
    and the validators read is stated in the module [Py], where a text is
    any list of code points and the Unicode tables of Python are
    parameters.

    The per-session store [st.session_state] is an explicit record that every
    operation threads through a small state/trace/exception monad; the
    collaborators outside the program (the hosted model, the clock, the file
    system, the JSON printer of the record) are fields of a [World] record
    handed to each call. *)

From Stdlib Require Import String Ascii List Bool Arith Lia DecimalString.
Import ListNotations.
Open Scope string_scope.
Open Scope nat_scope.

(** ** Text primitives *)

Module Text.

Definition nl : string := String (ascii_of_nat 10) EmptyString.

Definition code (c : ascii) : nat := nat_of_ascii c.

Definition between (lo hi : nat) (c : ascii) : bool :=
  (lo <=? code c) && (code c <=? hi).

(** [str.isdigit] on one character. *)
Definition is_digit (c : ascii) : bool := between 48 57 c.

Definition is_upper (c : ascii) : bool := between 65 90 c.
Definition is_lower (c : ascii) : bool := between 97 122 c.
Definition is_alpha (c : ascii) : bool := is_upper c || is_lower c.

(** White space as [str.split], [str.strip] and [\s] see it below 128:
    tab, line feed, vertical tab, form feed, carriage return, the four
    separators 28..31 and the blank. *)
Definition is_space (c : ascii) : bool :=
  between 9 13 c || between 28 32 c.

(** [\w] below 128. *)
Definition is_word (c : ascii) : bool :=
  is_alpha c || is_digit c || (code c =? 95).

Definition lower_char (c : ascii) : ascii :=
  if is_upper c then ascii_of_nat (code c + 32) else c.

(** [s.lower()] *)
Fixpoint lower (s : string) : string :=
  match s with
  | EmptyString => EmptyString
  | String c s' => String (lower_char c) (lower s')
  end.

(** [needle in hay] *)
Fixpoint contains (needle hay : string) : bool :=
  String.prefix needle hay ||
  match hay with
  | EmptyString => false
  | String _ hay' => contains needle hay'
  end.

(** [hay.find(needle)], with [None] for Python's -1. *)
Fixpoint find (needle hay : string) : option nat :=
  if String.prefix needle hay then Some 0
  else match hay with
       | EmptyString => None
       | String _ hay' => option_map S (find needle hay')
       end.

(** [any(p(c) for c in s)] *)
Fixpoint any_char (p : ascii -> bool) (s : string) : bool :=
  match s with
  | EmptyString => false
  | String c s' => p c || any_char p s'
  end.

(** [''.join(filter(p, s))] *)
Fixpoint filter_chars (p : ascii -> bool) (s : string) : string :=
  match s with
  | EmptyString => EmptyString
  | String c s' => if p c then String c (filter_chars p s') else filter_chars p s'
  end.

Fixpoint lstrip (s : string) : string :=
  match s with
  | EmptyString => EmptyString
  | String c s' => if is_space c then lstrip s' else s
  end.

Fixpoint rstrip (s : string) : string :=
  match s with
  | EmptyString => EmptyString
  | String c s' =>
      match rstrip s' with
      | EmptyString => if is_space c then EmptyString else String c EmptyString
      | r => String c r
      end
  end.

(** [s.strip()] *)
Definition strip (s : string) : string := rstrip (lstrip s).

(** [s.split()]: maximal runs of characters that are not white space.
    [cur] is the word being read. *)
Fixpoint split_from (cur : string) (s : string) : list string :=
  match s with
  | EmptyString => match cur with EmptyString => [] | _ => [cur] end
  | String c s' =>
      if is_space c
      then match cur with
           | EmptyString => split_from EmptyString s'
           | _ => cur :: split_from EmptyString s'
           end
      else split_from (cur ++ String c EmptyString) s'
  end.

Definition split (s : string) : list string := split_from EmptyString s.

(** [s.split(sep)] for a one-character separator: empty pieces are kept. *)
Fixpoint split_on_from (sep : ascii) (cur : string) (s : string) : list string :=
  match s with
  | EmptyString => [cur]
  | String c s' =>
      if Ascii.eqb c sep then cur :: split_on_from sep EmptyString s'
      else split_on_from sep (cur ++ String c EmptyString) s'
  end.

Definition split_on (sep : ascii) (s : string) : list string :=
  split_on_from sep EmptyString s.

(** [sep.join(l)] *)
Definition join (sep : string) (l : list string) : string := String.concat sep l.

(** [s[a:b]] for [0 <= a] and [b <= len(s)]. *)
Definition slice (a b : nat) (s : string) : string := substring a (b - a) s.

(** [s.endswith(c)] for a one-character suffix. *)
Fixpoint ends_with_char (c : ascii) (s : string) : bool :=
  match s with
  | EmptyString => false
  | String a EmptyString => Ascii.eqb a c
  | String _ s' => ends_with_char c s'
  end.

(** [s.replace(a, b)] for one-character [a] and [b]. *)
Fixpoint replace_char (a b : ascii) (s : string) : string :=
  match s with
  | EmptyString => EmptyString
  | String c s' => String (if Ascii.eqb c a then b else c) (replace_char a b s')
  end.

(** [str(n)] for a natural number. *)
Definition of_nat (n : nat) : string := NilEmpty.string_of_uint (Nat.to_uint n).

(** Truth value of an [Optional[str]]: [None] and [''] are false. *)
Definition truthy (v : option string) : bool :=
  match v with
  | None => false
  | Some EmptyString => false
  | Some _ => true
  end.

(** [v or d] *)
Definition or_default (v : option string) (d : string) : string :=
  match v with
  | Some (String c s) => String c s
  | _ => d
  end.

(** [f"{v}"] for an [Optional[str]]. *)
Definition fmt (v : option string) : string :=
  match v with
  | None => "None"
  | Some s => s
  end.

Definition upper_char (c : ascii) : ascii :=
  if is_lower c then ascii_of_nat (code c - 32) else c.

(** [s.capitalize()] *)
Definition capitalize (s : string) : string :=
  match s with
  | EmptyString => EmptyString
  | String c s' => String (upper_char c) (lower s')
  end.

(** [s[:n]] and [s[n:]] *)
Fixpoint take (n : nat) (s : string) : string :=
  match n, s with
  | S n', String c s' => String c (take n' s')
  | _, _ => EmptyString
  end.

Fixpoint drop (n : nat) (s : string) : string :=
  match n, s with
  | S n', String _ s' => drop n' s'
  | _, _ => s
  end.

(** [s.partition(sep)]: the text before and after the first occurrence of
    [sep], or [None] when [sep] does not occur. *)
Fixpoint partition (sep s : string) : option (string * string) :=
  if String.prefix sep s then Some (EmptyString, drop (String.length sep) s)
  else match s with
       | EmptyString => None
       | String c s' =>
           match partition sep s' with
           | Some (b, a) => Some (String c b, a)
           | None => None
           end
       end.

(** [s.split(sep)[1]] when [sep] occurs in [s]. *)
Definition second_piece (sep s : string) : option string :=
  match partition sep s with
  | None => None
  | Some (_, a) =>
      match partition sep a with
      | Some (b, _) => Some b
      | None => Some a
      end
  end.

End Text.


(** ** The fragment of Python's [re] the program uses

    Every pattern of the program is a sequence of greedy, bounded or
    unbounded repetitions of a one-character class, with [\b] assertions and
    at most one capturing group around a single repetition.  The matcher is
    the backtracking one: a repetition first takes as many characters as it
    can and gives them back one at a time. *)

Module Regex.

Inductive atom : Type :=
| Rep (cls : ascii -> bool) (lo : nat) (hi : option nat)
| WordBoundary.

Record regex : Type := MkRegex {
  atoms : list atom;
  group : option nat  (* position, among the atoms, of the captured one *)
}.

Definition Lit (c : ascii) : atom := Rep (Ascii.eqb c) 1 (Some 1).
Definition Plus (cls : ascii -> bool) : atom := Rep cls 1 None.
Definition Star (cls : ascii -> bool) : atom := Rep cls 0 None.
Definition Opt (cls : ascii -> bool) : atom := Rep cls 0 (Some 1).

Fixpoint lits (s : string) : list atom :=
  match s with
  | EmptyString => []
  | String c s' => Lit c :: lits s'
  end.

(** [c] is one of the characters of [set]. *)
Definition one_of (set : string) (c : ascii) : bool :=
  Text.any_char (Ascii.eqb c) set.

(** Number of leading characters of [s] in the class. *)
Fixpoint run_length (cls : ascii -> bool) (s : string) : nat :=
  match s with
  | String c s' => if cls c then S (run_length cls s') else 0
  | EmptyString => 0
  end.

Definition capped (hi : option nat) (n : nat) : nat :=
  match hi with
  | Some h => Nat.min h n
  | None => n
  end.

Definition word_opt (c : option ascii) : bool :=
  match c with
  | Some a => Text.is_word a
  | None => false
  end.

Definition head (s : string) : option ascii :=
  match s with
  | EmptyString => None
  | String c _ => Some c
  end.

(** [\b] between the character before the position and the text after it. *)
Definition boundary (prev : option ascii) (s : string) : bool :=
  xorb (word_opt prev) (word_opt (head s)).

(** The character before the position reached after reading [w]. *)
Fixpoint last_char (prev : option ascii) (w : string) : option ascii :=
  match w with
  | EmptyString => prev
  | String c w' => last_char (Some c) w'
  end.

(** The loop of a greedy repetition: try to go on after [k] characters,
    then after one fewer, down to none. *)
Fixpoint give_back (go_on : nat -> option (list string * string)) (s : string) (k : nat)
  : option (list string * string) :=
  match go_on k with
  | Some (ps, rest) => Some (Text.take k s :: ps, rest)
  | None =>
      match k with
      | 0 => None
      | S k' => give_back go_on s k'
      end
  end.

(** Match the atoms at the current position: the text each atom took, and
    the text that follows the match. *)
Fixpoint match_atoms (p : list atom) (prev : option ascii) (s : string)
  : option (list string * string) :=
  match p with
  | [] => Some ([], s)
  | WordBoundary :: p' =>
      if boundary prev s
      then match match_atoms p' prev s with
           | Some (ps, rest) => Some (EmptyString :: ps, rest)
           | None => None
           end
      else None
  | Rep cls lo hi :: p' =>
      give_back
        (fun k =>
           if lo <=? k
           then match_atoms p' (last_char prev (Text.take k s)) (Text.drop k s)
           else None)
        s (capped hi (run_length cls s))
  end.

(** The text of a match: its pieces, one after the other. *)
Definition whole (ps : list string) : string :=
  fold_right String.append EmptyString ps.

(** What [findall] reports for a match: the group when there is one. *)
Definition reported (r : regex) (ps : list string) : string :=
  match group r with
  | Some k => nth k ps EmptyString
  | None => whole ps
  end.

(** [re.match(r, s)] as a truth value. *)
Definition re_match (r : regex) (s : string) : bool :=
  match match_atoms (atoms r) None s with
  | Some _ => true
  | None => false
  end.

(** [re.search]: the text skipped, the pieces of the leftmost match and the
    text after it. *)
Fixpoint search (p : list atom) (prev : option ascii) (s : string)
  : option (string * list string * string) :=
  match match_atoms p prev s with
  | Some (ps, rest) => Some (EmptyString, ps, rest)
  | None =>
      match s with
      | EmptyString => None
      | String c s' =>
          match search p (Some c) s' with
          | Some (pre, ps, rest) => Some (String c pre, ps, rest)
          | None => None
          end
      end
  end.

(** The scan of [re.findall]: positions are tried from left to right and a
    match of [n] characters is followed by the position [n] further on
    ([skip] counts the characters of the last match still to pass over).
    No pattern of the program matches the empty text; after such a match
    the scan would go on at the next character. *)
Fixpoint findall_scan (r : regex) (skip : nat) (prev : option ascii) (s : string)
  : list string :=
  match skip with
  | S k =>
      match s with
      | EmptyString => []
      | String c s' => findall_scan r k (Some c) s'
      end
  | 0 =>
      match match_atoms (atoms r) prev s with
      | Some (ps, _) =>
          reported r ps ::
          match s with
          | EmptyString => []
          | String c s' =>
              findall_scan r (String.length (whole ps) - 1) (Some c) s'
          end
      | None =>
          match s with
          | EmptyString => []
          | String c s' => findall_scan r 0 (Some c) s'
          end
      end
  end.

Definition findall (r : regex) (s : string) : list string :=
  findall_scan r 0 None s.

(** Declarative reading of a pattern: [atoms_match p prev s ps rest] says
    that the atoms can read the pieces [ps] off the front of [s], leaving
    [rest], when the character before [s] is [prev]. *)
Inductive atoms_match : list atom -> option ascii -> string -> list string -> string -> Prop :=
| AM_nil prev s : atoms_match [] prev s [] s
| AM_boundary p prev s ps rest :
    boundary prev s = true ->
    atoms_match p prev s ps rest ->
    atoms_match (WordBoundary :: p) prev s (EmptyString :: ps) rest
| AM_rep cls lo hi p prev w s ps rest :
    Text.any_char (fun c => negb (cls c)) w = false ->
    lo <= String.length w ->
    (forall h, hi = Some h -> String.length w <= h) ->
    atoms_match p (last_char prev w) s ps rest ->
    atoms_match (Rep cls lo hi :: p) prev (w ++ s) (w :: ps) rest.

(** The fewest characters a match of the atoms can hold. *)
Fixpoint min_length (p : list atom) : nat :=
  match p with
  | [] => 0
  | Rep _ lo _ :: p' => lo + min_length p'
  | WordBoundary :: p' => min_length p'
  end.

(** [m] is an occurrence of the pattern in [s], after [pre] and before
    [post]. *)
Definition occurs (p : list atom) (s pre m post : string) : Prop :=
  s = pre ++ m ++ post /\
  exists ps, atoms_match p (last_char None pre) (m ++ post) ps post /\ whole ps = m.

End Regex.

(** ** Exceptions, events and the outside world *)

Inductive exn : Type :=
| ValueError (msg : string)
| ValidationError (errors : list string)   (* pydantic; a subclass of ValueError *)
| AttributeError (msg : string)
| IndexError (msg : string)
| OSError (msg : string).

(** [candidate_info]: the dict with its seven fixed keys, which is also the
    shape of the pydantic model [CandidateInfo]. *)
Record CandidateInfo : Type := MkInfo {
  name : option string;
  email : option string;
  phone : option string;
  experience : option string;
  position : option string;
  location : option string;
  tech_stack : option string
}.

Definition set_name (v : string) (i : CandidateInfo) : CandidateInfo :=
  MkInfo (Some v) (email i) (phone i) (experience i) (position i) (location i) (tech_stack i).
Definition set_email (v : string) (i : CandidateInfo) : CandidateInfo :=
  MkInfo (name i) (Some v) (phone i) (experience i) (position i) (location i) (tech_stack i).
Definition set_phone (v : string) (i : CandidateInfo) : CandidateInfo :=
  MkInfo (name i) (email i) (Some v) (experience i) (position i) (location i) (tech_stack i).
Definition set_experience (v : string) (i : CandidateInfo) : CandidateInfo :=
  MkInfo (name i) (email i) (phone i) (Some v) (position i) (location i) (tech_stack i).
Definition set_position (v : string) (i : CandidateInfo) : CandidateInfo :=
  MkInfo (name i) (email i) (phone i) (experience i) (Some v) (location i) (tech_stack i).
Definition set_tech_stack (v : string) (i : CandidateInfo) : CandidateInfo :=
  MkInfo (name i) (email i) (phone i) (experience i) (position i) (location i) (Some v).

(** [info.items()], in insertion order. *)
Definition items (i : CandidateInfo) : list (string * option string) :=
  [("name", name i); ("email", email i); ("phone", phone i);
   ("experience", experience i); ("position", position i);
   ("location", location i); ("tech_stack", tech_stack i)].

Record ConversationRecord : Type := MkRecord {
  timestamp : string;
  record_info : CandidateInfo;
  conversation : list string;
  technical_questions : list string
}.

(** A role-tagged block of a model request: [{"role": r, "content": c}]. *)
Record Message : Type := MkMessage { role : string; content : string }.

(** What lies outside the program.  A failing call of a collaborator is
    [None] (the client raised) or [false] (the file system refused). *)
Record World : Type := MkWorld {
  api_key : option string;                        (* os.getenv("OPENAI_API_KEY") *)
  chat_completion : list Message -> option string; (* openai.ChatCompletion.create *)
  makedirs_ok : string -> bool;                    (* os.makedirs(..., exist_ok=True) *)
  write_ok : string -> string -> bool;             (* open(f, "w") and f.write *)
  now_stamp : string;                              (* strftime("%Y-%m-%d %H:%M:%S") *)
  now_file : string;                               (* strftime("%Y%m%d_%H%M%S") *)
  to_json : ConversationRecord -> string           (* record.json(indent=2) *)
}.

Inductive Event : Type :=
| CallExtract (user_input stage : string)
| CallModel (messages : list Message)
| CallGenerate (tech_stack : string)
| CallSave (info : CandidateInfo) (messages questions : list string)
| Makedirs (path : string)
| WriteFile (path text : string)
| PrintError (e : exn).

(** ** [data_handling.py] *)

Module DataHandling.

Import Regex.

(** [\b[A-Za-z0-9._%+-]+@[A-Za-z0-9.-]+\.[A-Z|a-z]{2,}\b] *)
Definition email_local (c : ascii) : bool :=
  Text.is_alpha c || Text.is_digit c || one_of "._%+-" c.
Definition email_domain (c : ascii) : bool :=
  Text.is_alpha c || Text.is_digit c || one_of ".-" c.
Definition email_tld (c : ascii) : bool :=
  Text.is_upper c || one_of "|" c || Text.is_lower c.

Definition email_pattern : regex :=
  MkRegex [WordBoundary; Plus email_local; Lit "@"; Plus email_domain;
           Lit "."; Rep email_tld 2 None; WordBoundary] None.

(** [[\+]?[(]?[0-9]{3}[)]?[-\s\.]?[0-9]{3}[-\s\.]?[0-9]{4,6}] *)
Definition phone_sep (c : ascii) : bool :=
  one_of "-" c || Text.is_space c || one_of "." c.

Definition phone_pattern : regex :=
  MkRegex [Opt (one_of "+"); Opt (one_of "("); Rep Text.is_digit 3 (Some 3);
           Opt (one_of ")"); Opt phone_sep; Rep Text.is_digit 3 (Some 3);
           Opt phone_sep; Rep Text.is_digit 4 (Some 6)] None.

(** [(\d+)[\+]?\s*years?], [(\d+)[\+]?\s*yrs] and [(\d+)[\+]?\s*y\.?e\.?] *)
Definition exp_head : list atom :=
  [Plus Text.is_digit; Opt (one_of "+"); Star Text.is_space].

Definition exp_patterns : list regex :=
  [MkRegex (exp_head ++ lits "year" ++ [Opt (one_of "s")]) (Some 0);
   MkRegex (exp_head ++ lits "yrs") (Some 0);
   MkRegex (exp_head ++ [Lit "y"; Opt (one_of "."); Lit "e"; Opt (one_of ".")])
           (Some 0)].

(** The email shape in the words of the specification: a local part of
    letters, digits and [._%+-], an [@], a domain of letters, digits and
    [.-], a dot and a top-level part of at least two letters. *)
Definition spec_email_shape : list atom :=
  [Plus email_local; Lit "@"; Plus email_domain; Lit "."; Rep Text.is_alpha 2 None].

Definition validate_email (v : option string) : exn + option string :=
  if Text.truthy v
  then if negb (re_match email_pattern (Text.fmt v))
       then inl (ValueError "Invalid email format")
       else inr v
  else inr v.

Definition validate_phone (v : option string) : exn + option string :=
  if Text.truthy v
  then let digits := Text.filter_chars Text.is_digit (Text.fmt v) in
       if String.length digits <? 10
       then inl (ValueError "Phone number must have at least 10 digits")
       else inr v
  else inr v.

Definition message_of (e : exn) : string :=
  match e with
  | ValueError m | AttributeError m | IndexError m | OSError m => m
  | ValidationError ms => Text.join Text.nl ms
  end.

Definition errors_of {A : Type} (r : exn + A) : list string :=
  match r with
  | inl e => [message_of e]
  | inr _ => []
  end.

(** Building the pydantic model from the dict: every field validator runs
    and their failures are reported together. *)
Definition make_CandidateInfo (d : CandidateInfo) : exn + CandidateInfo :=
  match (errors_of (validate_email (email d)) ++ errors_of (validate_phone (phone d)))%list with
  | [] => inr d
  | errs => inl (ValidationError errs)
  end.

Definition make_ConversationRecord (ts : string) (d : CandidateInfo)
    (messages questions : list string) : exn + ConversationRecord :=
  match make_CandidateInfo d with
  | inl e => inl e
  | inr i => inr (MkRecord ts i messages questions)
  end.

Definition extraction_stages : list string :=
  ["greeting"; "collecting_info"; "tech_stack_confirmation"].

Definition in_list (s : string) (l : list string) : bool :=
  existsb (String.eqb s) l.

Definition extract_name (user_input current_stage : string) (info : CandidateInfo)
  : CandidateInfo :=
  if (current_stage =? "greeting")%string && negb (Text.truthy (name info))
  then let words := Text.split (Text.strip user_input) in
       if 1 <=? List.length words
       then let potential_name := Text.join " " (firstn 3 words) in
            if (2 <? String.length potential_name)
               && negb (existsb (fun exit_word =>
                                   Text.contains exit_word (Text.lower potential_name))
                                ["hi"; "hello"; "hey"])
            then set_name potential_name info
            else info
       else info
  else info.

Definition extract_email (user_input : string) (info : CandidateInfo) : CandidateInfo :=
  if negb (Text.truthy (email info))
     && Text.contains "@" user_input && Text.contains "." user_input
  then match findall email_pattern user_input with
       | m :: _ => set_email m info
       | [] => info
       end
  else info.

Definition extract_phone (user_input : string) (info : CandidateInfo) : CandidateInfo :=
  if negb (Text.truthy (phone info)) && Text.any_char Text.is_digit user_input
  then match findall phone_pattern user_input with
       | m :: _ => set_phone m info
       | [] => info
       end
  else info.

(** The loop over [exp_patterns], left at the first pattern that matches. *)
Fixpoint first_experience (patterns : list regex) (text : string) : option string :=
  match patterns with
  | [] => None
  | pattern :: rest =>
      match findall pattern text with
      | m :: _ => Some (m ++ " years")
      | [] => first_experience rest text
      end
  end.

Definition extract_experience (user_input : string) (info : CandidateInfo)
  : CandidateInfo :=
  if negb (Text.truthy (experience info)) && Text.any_char Text.is_digit user_input
  then match first_experience exp_patterns (Text.lower user_input) with
       | Some e => set_experience e info
       | None => info
       end
  else info.

Definition job_titles : list string :=
  ["developer"; "engineer"; "analyst"; "manager"; "designer";
   "architect"; "consultant"; "specialist"; "administrator"].

(** The loop over [job_titles], left at the first title found. *)
Fixpoint first_title (titles : list string) (user_input : string) : option string :=
  match titles with
  | [] => None
  | title :: rest =>
      if Text.contains title (Text.lower user_input)
      then match Text.find title (Text.lower user_input) with
           | Some index =>
               let start := index - 20 in
               let stop := Nat.min (String.length user_input) (index + 30) in
               Some (Text.strip (Text.slice start stop user_input))
           | None => None
           end
      else first_title rest user_input
  end.

Definition extract_position (user_input : string) (info : CandidateInfo)
  : CandidateInfo :=
  let words := Text.split (Text.strip user_input) in
  if negb (Text.truthy (position info)) && (2 <=? List.length words)
  then match first_title job_titles user_input with
       | Some p => set_position p info
       | None => info
       end
  else info.

Definition tech_keywords : list string :=
  ["python"; "java"; "javascript"; "js"; "typescript"; "ts"; "c#"; "c++";
   "ruby"; "php"; "go"; "rust"; "swift"; "kotlin"; "react"; "angular";
   "vue"; "node"; "django"; "flask"; "spring"; "rails"; "laravel";
   "aws"; "azure"; "gcp"; "sql"; "nosql"; "mongodb"; "mysql";
   "postgresql"; "oracle"; "docker"; "kubernetes"; "devops"; "ml";
   "ai"; "data science"; "frontend"; "backend"; "fullstack"].

Definition extract_tech_stack (user_input current_stage : string)
    (info : CandidateInfo) : CandidateInfo :=
  if negb (Text.truthy (tech_stack info))
     && (current_stage =? "collecting_info")%string
     && (3 <=? List.length (Text.split user_input))
  then match filter (fun tech => Text.contains tech (Text.lower user_input))
                    tech_keywords with
       | [] => info
       | found_techs => set_tech_stack (Text.join ", " found_techs) info
       end
  else info.

Definition extract_candidate_info (user_input : string) (current_info : CandidateInfo)
    (current_stage : string) : CandidateInfo :=
  let info := current_info in
  if negb (in_list current_stage extraction_stages) then info
  else
    let info := extract_name user_input current_stage info in
    let info := extract_email user_input info in
    let info := extract_phone user_input info in
    let info := extract_experience user_input info in
    let info := extract_position user_input info in
    extract_tech_stack user_input current_stage info.

(** The body of the [try] of [save_conversation]: the events it causes, in
    order, and its result or the exception that ended it. *)
Definition save_body (w : World) (candidate_info : CandidateInfo)
    (messages questions : list string) : list Event * (exn + bool) :=
  if negb (makedirs_ok w "data")
  then ([Makedirs "data"], inl (OSError "makedirs"))
  else
    match make_ConversationRecord (now_stamp w) candidate_info messages questions with
    | inl e => ([Makedirs "data"], inl e)
    | inr conversation_record =>
        match name candidate_info with
        | None =>
            ([Makedirs "data"],
             inl (AttributeError "'NoneType' object has no attribute 'lower'"))
        | Some n =>
            let name_part := Text.replace_char " " "_" (Text.lower n) in
            let timestamp_part := now_file w in
            let filename :=
              "data/conversation_" ++ name_part ++ "_" ++ timestamp_part ++ ".json" in
            let text := to_json w conversation_record in
            if write_ok w filename text
            then ([Makedirs "data"; WriteFile filename text], inr true)
            else ([Makedirs "data"; WriteFile filename text], inl (OSError "write"))
        end
    end.

(** [save_conversation]: [except Exception] turns every failure of the body
    into a printed line and the value [False]. *)
Definition save_conversation (w : World) (candidate_info : CandidateInfo)
    (messages questions : list string) : list Event * bool :=
  match save_body w candidate_info messages questions with
  | (evs, inr b) => (evs, b)
  | (evs, inl e) => ((evs ++ [PrintError e])%list, false)
  end.

End DataHandling.

(** ** [data_handling.py] on every text

    The field extractor and the two validators once more, this time on
    every Python [str]: a text is the list of its code points, and what
    Python looks up in the Unicode database ([str.isdigit], the white space
    of [str.split], [str.strip] and [\s], the digits of [\d], the word
    characters of [\w] and [\b], [str.lower]) is a table that the
    definitions take as a parameter.  The classes that a pattern spells out
    ([A-Za-z0-9._%+-], [0-9], ...) are sets of code points below 128
    whatever the tables are. *)

Module Py.

Local Open Scope list_scope.

(** A [str]: its code points. *)
Definition text : Type := list nat.

(** The code points of a literal of the program. *)
Definition lit (s : string) : text := map nat_of_ascii (list_ascii_of_string s).

Record Tables : Type := MkTables {
  isdigit : nat -> bool;   (* [c.isdigit()] *)
  isspace : nat -> bool;   (* white space for [split], [strip] and [\s] *)
  decimal : nat -> bool;   (* [\d] of a [str] pattern *)
  word : nat -> bool;      (* [\w] of a [str] pattern *)
  lower : text -> text     (* [s.lower()] *)
}.

(** [hay.startswith(needle)] *)
Fixpoint prefix (needle hay : text) : bool :=
  match needle with
  | [] => true
  | a :: needle' =>
      match hay with
      | [] => false
      | b :: hay' => (a =? b) && prefix needle' hay'
      end
  end.

(** [needle in hay] *)
Fixpoint contains (needle hay : text) : bool :=
  prefix needle hay ||
  match hay with
  | [] => false
  | _ :: hay' => contains needle hay'
  end.

(** [hay.find(needle)], with [None] for Python's -1. *)
Fixpoint find (needle hay : text) : option nat :=
  if prefix needle hay then Some 0
  else match hay with
       | [] => None
       | _ :: hay' => option_map S (find needle hay')
       end.

Fixpoint lstrip (space : nat -> bool) (s : text) : text :=
  match s with
  | [] => []
  | c :: s' => if space c then lstrip space s' else s
  end.

Fixpoint rstrip (space : nat -> bool) (s : text) : text :=
  match s with
  | [] => []
  | c :: s' =>
      match rstrip space s' with
      | [] => if space c then [] else [c]
      | r => c :: r
      end
  end.

(** [s.strip()] *)
Definition strip (T : Tables) (s : text) : text :=
  rstrip (isspace T) (lstrip (isspace T) s).

(** [s.split()]: maximal runs of characters that are not white space.
    [cur] is the word being read. *)
Fixpoint split_from (space : nat -> bool) (cur : text) (s : text) : list text :=
  match s with
  | [] => match cur with [] => [] | _ => [cur] end
  | c :: s' =>
      if space c
      then match cur with
           | [] => split_from space [] s'
           | _ => cur :: split_from space [] s'
           end
      else split_from space (cur ++ [c]) s'
  end.

Definition split (T : Tables) (s : text) : list text :=
  split_from (isspace T) [] s.

(** [sep.join(l)] *)
Fixpoint join (sep : text) (l : list text) : text :=
  match l with
  | [] => []
  | [x] => x
  | x :: l' => x ++ sep ++ join sep l'
  end.

(** [s[a:b]] for [0 <= a] and [0 <= b]. *)
Definition slice (a b : nat) (s : text) : text := firstn (b - a) (skipn a s).

(** Truth value of an [Optional[str]]: [None] and [''] are false. *)
Definition truthy (v : option text) : bool :=
  match v with
  | None => false
  | Some [] => false
  | Some _ => true
  end.

(** *** The fragment of [re] *)

Inductive atom : Type :=
| Rep (cls : nat -> bool) (lo : nat) (hi : option nat)
| WordBoundary.

Record regex : Type := MkRegex {
  atoms : list atom;
  group : option nat  (* position, among the atoms, of the captured one *)
}.

Definition Lit (c : ascii) : atom := Rep (Nat.eqb (nat_of_ascii c)) 1 (Some 1).
Definition Plus (cls : nat -> bool) : atom := Rep cls 1 None.
Definition Star (cls : nat -> bool) : atom := Rep cls 0 None.
Definition Opt (cls : nat -> bool) : atom := Rep cls 0 (Some 1).

Definition lits (s : string) : list atom := map Lit (list_ascii_of_string s).

(** [c] is one of the characters of [set]. *)
Definition one_of (set : string) (c : nat) : bool := existsb (Nat.eqb c) (lit set).

Definition in_range (lo hi c : nat) : bool := (lo <=? c) && (c <=? hi).

(** [A-Z], [a-z] and [0-9] *)
Definition upper_case : nat -> bool := in_range 65 90.
Definition lower_case : nat -> bool := in_range 97 122.
Definition ascii_digit : nat -> bool := in_range 48 57.
Definition letter (c : nat) : bool := upper_case c || lower_case c.

(** Number of leading characters of [s] in the class. *)
Fixpoint run_length (cls : nat -> bool) (s : text) : nat :=
  match s with
  | c :: s' => if cls c then S (run_length cls s') else 0
  | [] => 0
  end.

Definition capped (hi : option nat) (n : nat) : nat :=
  match hi with
  | Some h => Nat.min h n
  | None => n
  end.

Definition word_opt (wd : nat -> bool) (c : option nat) : bool :=
  match c with
  | Some a => wd a
  | None => false
  end.

(** [\b] between the character before the position and the text after it. *)
Definition boundary (wd : nat -> bool) (prev : option nat) (s : text) : bool :=
  xorb (word_opt wd prev) (word_opt wd (hd_error s)).

(** The character before the position reached after reading [w]. *)
Fixpoint last_char (prev : option nat) (w : text) : option nat :=
  match w with
  | [] => prev
  | c :: w' => last_char (Some c) w'
  end.

(** The loop of a greedy repetition: try to go on after [k] characters,
    then after one fewer, down to none. *)
Fixpoint give_back (go_on : nat -> option (list text * text)) (s : text) (k : nat)
  : option (list text * text) :=
  match go_on k with
  | Some (ps, rest) => Some (firstn k s :: ps, rest)
  | None =>
      match k with
      | 0 => None
      | S k' => give_back go_on s k'
      end
  end.

(** Match the atoms at the current position: the text each atom took, and
    the text that follows the match. *)
Fixpoint match_atoms (wd : nat -> bool) (p : list atom) (prev : option nat) (s : text)
  : option (list text * text) :=
  match p with
  | [] => Some ([], s)
  | WordBoundary :: p' =>
      if boundary wd prev s
      then match match_atoms wd p' prev s with
           | Some (ps, rest) => Some ([] :: ps, rest)
           | None => None
           end
      else None
  | Rep cls lo hi :: p' =>
      give_back
        (fun k =>
           if lo <=? k
           then match_atoms wd p' (last_char prev (firstn k s)) (skipn k s)
           else None)
        s (capped hi (run_length cls s))
  end.

(** What [findall] reports for a match: the group when there is one, the
    text of the match otherwise. *)
Definition reported (r : regex) (ps : list text) : text :=
  match group r with
  | Some k => nth k ps []
  | None => concat ps
  end.

(** [re.match(r, s)] as a truth value. *)
Definition re_match (T : Tables) (r : regex) (s : text) : bool :=
  match match_atoms (word T) (atoms r) None s with
  | Some _ => true
  | None => false
  end.

(** [re.search]: the text skipped, the pieces of the leftmost match and the
    text after it. *)
Fixpoint search (wd : nat -> bool) (p : list atom) (prev : option nat) (s : text)
  : option (text * list text * text) :=
  match match_atoms wd p prev s with
  | Some (ps, rest) => Some ([], ps, rest)
  | None =>
      match s with
      | [] => None
      | c :: s' =>
          match search wd p (Some c) s' with
          | Some (pre, ps, rest) => Some (c :: pre, ps, rest)
          | None => None
          end
      end
  end.

(** The scan of [re.findall]: positions are tried from left to right and a
    match of [n] characters is followed by the position [n] further on
    ([skip] counts the characters of the last match still to pass over).
    No pattern of the program matches the empty text; after such a match
    the scan would go on at the next character. *)
Fixpoint findall_scan (wd : nat -> bool) (r : regex) (skip : nat) (prev : option nat)
    (s : text) : list text :=
  match skip with
  | S k =>
      match s with
      | [] => []
      | c :: s' => findall_scan wd r k (Some c) s'
      end
  | 0 =>
      match match_atoms wd (atoms r) prev s with
      | Some (ps, _) =>
          reported r ps ::
          match s with
          | [] => []
          | c :: s' => findall_scan wd r (List.length (concat ps) - 1) (Some c) s'
          end
      | None =>
          match s with
          | [] => []
          | c :: s' => findall_scan wd r 0 (Some c) s'
          end
      end
  end.

Definition findall (T : Tables) (r : regex) (s : text) : list text :=
  findall_scan (word T) r 0 None s.

(** Declarative reading of a pattern: [atoms_match wd p prev s ps rest]
    says that the atoms can read the pieces [ps] off the front of [s],
    leaving [rest], when the character before [s] is [prev]. *)
Inductive atoms_match (wd : nat -> bool)
  : list atom -> option nat -> text -> list text -> text -> Prop :=
| AM_nil prev s : atoms_match wd [] prev s [] s
| AM_boundary p prev s ps rest :
    boundary wd prev s = true ->
    atoms_match wd p prev s ps rest ->
    atoms_match wd (WordBoundary :: p) prev s ([] :: ps) rest
| AM_rep cls lo hi p prev w s ps rest :
    forallb cls w = true ->
    lo <= List.length w ->
    (forall h, hi = Some h -> List.length w <= h) ->
    atoms_match wd p (last_char prev w) s ps rest ->
    atoms_match wd (Rep cls lo hi :: p) prev (w ++ s) (w :: ps) rest.

(** [m] is an occurrence of the pattern in [s], after [pre] and before
    [post]. *)
Definition occurs (wd : nat -> bool) (p : list atom) (s pre m post : text) : Prop :=
  s = pre ++ m ++ post /\
  exists ps, atoms_match wd p (last_char None pre) (m ++ post) ps post /\ concat ps = m.

(** Two atoms alike but for their classes, which agree on the characters
    that satisfy [P]. *)
Definition atom_agree (P : nat -> Prop) (a a' : atom) : Prop :=
  match a, a' with
  | Rep cls lo hi, Rep cls' lo' hi' =>
      lo = lo' /\ hi = hi' /\ forall c, P c -> cls c = cls' c
  | WordBoundary, WordBoundary => True
  | _, _ => False
  end.

(** *** The patterns *)

(** [\b[A-Za-z0-9._%+-]+@[A-Za-z0-9.-]+\.[A-Z|a-z]{2,}\b] *)
Definition email_local (c : nat) : bool :=
  upper_case c || lower_case c || ascii_digit c || one_of "._%+-" c.
Definition email_domain (c : nat) : bool :=
  upper_case c || lower_case c || ascii_digit c || one_of ".-" c.
Definition email_tld (c : nat) : bool :=
  upper_case c || one_of "|" c || lower_case c.

Definition email_pattern : regex :=
  MkRegex [WordBoundary; Plus email_local; Lit "@"; Plus email_domain;
           Lit "."; Rep email_tld 2 None; WordBoundary] None.

(** [[\+]?[(]?[0-9]{3}[)]?[-\s\.]?[0-9]{3}[-\s\.]?[0-9]{4,6}] *)
Definition phone_sep (T : Tables) (c : nat) : bool :=
  one_of "-" c || isspace T c || one_of "." c.

Definition phone_pattern (T : Tables) : regex :=
  MkRegex [Opt (one_of "+"); Opt (one_of "("); Rep ascii_digit 3 (Some 3);
           Opt (one_of ")"); Opt (phone_sep T); Rep ascii_digit 3 (Some 3);
           Opt (phone_sep T); Rep ascii_digit 4 (Some 6)] None.

(** [(\d+)[\+]?\s*years?], [(\d+)[\+]?\s*yrs] and [(\d+)[\+]?\s*y\.?e\.?] *)
Definition exp_head (T : Tables) : list atom :=
  [Plus (decimal T); Opt (one_of "+"); Star (isspace T)].

Definition exp_patterns (T : Tables) : list regex :=
  [MkRegex (exp_head T ++ lits "year" ++ [Opt (one_of "s")]) (Some 0);
   MkRegex (exp_head T ++ lits "yrs") (Some 0);
   MkRegex (exp_head T ++ [Lit "y"; Opt (one_of "."); Lit "e"; Opt (one_of ".")])
           (Some 0)].

(** The email shape in the words of the specification: a local part of
    letters, digits and [._%+-], an [@], a domain of letters, digits and
    [.-], a dot and a top-level part of at least two letters. *)
Definition email_shape : list atom :=
  [Plus email_local; Lit "@"; Plus email_domain; Lit "."; Rep letter 2 None].

(** The same shape standing between two word boundaries. *)
Definition bounded_email_shape : list atom :=
  WordBoundary :: email_shape ++ [WordBoundary].

(** *** The profile and its validators *)

Record CandidateInfo : Type := MkInfo {
  name : option text;
  email : option text;
  phone : option text;
  experience : option text;
  position : option text;
  location : option text;
  tech_stack : option text
}.

Definition set_name (v : text) (i : CandidateInfo) : CandidateInfo :=
  MkInfo (Some v) (email i) (phone i) (experience i) (position i) (location i) (tech_stack i).
Definition set_email (v : text) (i : CandidateInfo) : CandidateInfo :=
  MkInfo (name i) (Some v) (phone i) (experience i) (position i) (location i) (tech_stack i).
Definition set_phone (v : text) (i : CandidateInfo) : CandidateInfo :=
  MkInfo (name i) (email i) (Some v) (experience i) (position i) (location i) (tech_stack i).
Definition set_experience (v : text) (i : CandidateInfo) : CandidateInfo :=
  MkInfo (name i) (email i) (phone i) (Some v) (position i) (location i) (tech_stack i).
Definition set_position (v : text) (i : CandidateInfo) : CandidateInfo :=
  MkInfo (name i) (email i) (phone i) (experience i) (Some v) (location i) (tech_stack i).
Definition set_tech_stack (v : text) (i : CandidateInfo) : CandidateInfo :=
  MkInfo (name i) (email i) (phone i) (experience i) (position i) (location i) (Some v).

(** The profile of a new session: every field is [None]. *)
Definition initial_info : CandidateInfo := MkInfo None None None None None None None.

Definition validate_email (T : Tables) (v : option text) : exn + option text :=
  match v with
  | Some s =>
      if truthy v
      then if negb (re_match T email_pattern s)
           then inl (ValueError "Invalid email format")
           else inr v
      else inr v
  | None => inr v
  end.

Definition validate_phone (T : Tables) (v : option text) : exn + option text :=
  match v with
  | Some s =>
      if truthy v
      then let digits := filter (isdigit T) s in
           if List.length digits <? 10
           then inl (ValueError "Phone number must have at least 10 digits")
           else inr v
      else inr v
  | None => inr v
  end.

(** *** [extract_candidate_info] *)

Definition extract_name (T : Tables) (user_input : text) (current_stage : string)
    (info : CandidateInfo) : CandidateInfo :=
  if (current_stage =? "greeting")%string && negb (truthy (name info))
  then let words := split T (strip T user_input) in
       if 1 <=? List.length words
       then let potential_name := join (lit " ") (firstn 3 words) in
            if (2 <? List.length potential_name)
               && negb (existsb (fun exit_word =>
                                   contains (lit exit_word) (lower T potential_name))
                                ["hi"; "hello"; "hey"])
            then set_name potential_name info
            else info
       else info
  else info.

Definition extract_email (T : Tables) (user_input : text) (info : CandidateInfo)
  : CandidateInfo :=
  if negb (truthy (email info))
     && contains (lit "@") user_input && contains (lit ".") user_input
  then match findall T email_pattern user_input with
       | m :: _ => set_email m info
       | [] => info
       end
  else info.

Definition extract_phone (T : Tables) (user_input : text) (info : CandidateInfo)
  : CandidateInfo :=
  if negb (truthy (phone info)) && existsb (isdigit T) user_input
  then match findall T (phone_pattern T) user_input with
       | m :: _ => set_phone m info
       | [] => info
       end
  else info.

(** The loop over [exp_patterns], left at the first pattern that matches. *)
Fixpoint first_experience (T : Tables) (patterns : list regex) (lowered : text)
  : option text :=
  match patterns with
  | [] => None
  | pattern :: rest =>
      match findall T pattern lowered with
      | m :: _ => Some (m ++ lit " years")
      | [] => first_experience T rest lowered
      end
  end.

Definition extract_experience (T : Tables) (user_input : text) (info : CandidateInfo)
  : CandidateInfo :=
  if negb (truthy (experience info)) && existsb (isdigit T) user_input
  then match first_experience T (exp_patterns T) (lower T user_input) with
       | Some e => set_experience e info
       | None => info
       end
  else info.

Definition job_titles : list string :=
  ["developer"; "engineer"; "analyst"; "manager"; "designer";
   "architect"; "consultant"; "specialist"; "administrator"].

(** The loop over [job_titles], left at the first title found. *)
Fixpoint first_title (T : Tables) (titles : list string) (user_input : text)
  : option text :=
  match titles with
  | [] => None
  | title :: rest =>
      if contains (lit title) (lower T user_input)
      then match find (lit title) (lower T user_input) with
           | Some index =>
               let start := index - 20 in
               let stop := Nat.min (List.length user_input) (index + 30) in
               Some (strip T (slice start stop user_input))
           | None => None
           end
      else first_title T rest user_input
  end.

Definition extract_position (T : Tables) (user_input : text) (info : CandidateInfo)
  : CandidateInfo :=
  let words := split T (strip T user_input) in
  if negb (truthy (position info)) && (2 <=? List.length words)
  then match first_title T job_titles user_input with
       | Some p => set_position p info
       | None => info
       end
  else info.

Definition tech_keywords : list string :=
  ["python"; "java"; "javascript"; "js"; "typescript"; "ts"; "c#"; "c++";
   "ruby"; "php"; "go"; "rust"; "swift"; "kotlin"; "react"; "angular";
   "vue"; "node"; "django"; "flask"; "spring"; "rails"; "laravel";
   "aws"; "azure"; "gcp"; "sql"; "nosql"; "mongodb"; "mysql";
   "postgresql"; "oracle"; "docker"; "kubernetes"; "devops"; "ml";
   "ai"; "data science"; "frontend"; "backend"; "fullstack"].

Definition extract_tech_stack (T : Tables) (user_input : text) (current_stage : string)
    (info : CandidateInfo) : CandidateInfo :=
  if negb (truthy (tech_stack info))
     && (current_stage =? "collecting_info")%string
     && (3 <=? List.length (split T user_input))
  then match filter (fun tech => contains (lit tech) (lower T user_input))
                    tech_keywords with
       | [] => info
       | found_techs => set_tech_stack (join (lit ", ") (map lit found_techs)) info
       end
  else info.

Definition extract_candidate_info (T : Tables) (user_input : text)
    (current_info : CandidateInfo) (current_stage : string) : CandidateInfo :=
  let info := current_info in
  if negb (DataHandling.in_list current_stage DataHandling.extraction_stages) then info
  else
    let info := extract_name T user_input current_stage info in
    let info := extract_email T user_input info in
    let info := extract_phone T user_input info in
    let info := extract_experience T user_input info in
    let info := extract_position T user_input info in
    extract_tech_stack T user_input current_stage info.

(** *** The tables below 128

    What the five tables hold for the code points below 128; above, these
    ones know no digit, no white space and no word character, and leave the
    text as it is.  They serve to run the definitions on inputs written in
    ASCII, where nothing else of the tables is looked up. *)
Definition plain_space (c : nat) : bool := in_range 9 13 c || in_range 28 32 c.
Definition plain_word (c : nat) : bool := letter c || ascii_digit c || (c =? 95).
Definition plain_lower (s : text) : text :=
  map (fun c => if upper_case c then c + 32 else c) s.

Definition plain : Tables :=
  MkTables ascii_digit plain_space ascii_digit plain_word plain_lower.

End Py.

(** ** [prompt_engineering.py] *)

Module PromptEngineering.

Import Text.

Definition BASE_SYSTEM_PROMPT : string :=
  "You are an intelligent Hiring Assistant chatbot for TalentScout, a recruitment agency specializing in technology placements. " ++ nl ++
  "Your task is to assist in the initial screening of candidates by gathering essential information and posing relevant technical questions." ++ nl ++
  "Always be professional, friendly, and helpful. Keep your responses concise and focused on the recruitment process." ++ nl ++
  "Do not deviate from your purpose as a hiring assistant or discuss topics unrelated to recruitment." ++ nl.

Definition GREETING_PROMPT : string :=
  BASE_SYSTEM_PROMPT ++ nl ++
  "Start by greeting the candidate and briefly explaining your purpose." ++ nl ++
  "Then ask for their full name to begin the conversation." ++ nl.

Definition COLLECTING_INFO_PROMPT : string :=
  BASE_SYSTEM_PROMPT ++ nl ++
  "You are collecting basic information from the candidate." ++ nl ++
  "Ask for one piece of information at a time in a conversational manner." ++ nl ++
  "Information to collect:" ++ nl ++
  "- Full Name (if not already provided)" ++ nl ++
  "- Email Address" ++ nl ++
  "- Phone Number" ++ nl ++
  "- Years of Experience" ++ nl ++
  "- Desired Position(s)" ++ nl ++
  "- Current Location" ++ nl ++
  "- Tech Stack (programming languages, frameworks, databases, and tools they are proficient in)" ++ nl ++
  nl ++
  "After collecting all information, summarize what you've learned and ask the candidate if the information is correct." ++ nl.

Definition TECH_STACK_CONFIRMATION_PROMPT : string :=
  BASE_SYSTEM_PROMPT ++ nl ++
  "The candidate has provided their tech stack. Confirm the technologies mentioned and ask if they'd like to add anything else." ++ nl ++
  "Then inform them that you'll be asking some technical questions based on their tech stack." ++ nl.

Definition TECHNICAL_QUESTIONS_PROMPT : string :=
  BASE_SYSTEM_PROMPT ++ nl ++
  "You are now asking technical questions related to the candidate's tech stack." ++ nl ++
  "Ask one question at a time and wait for the candidate's response before moving to the next question." ++ nl ++
  "After they answer all questions, thank them and move to the conclusion of the conversation." ++ nl.

Definition FAREWELL_PROMPT : string :=
  BASE_SYSTEM_PROMPT ++ nl ++
  "The conversation is ending. Thank the candidate for their time and provide information about the next steps in the recruitment process." ++ nl ++
  "Mention that a human recruiter will review their responses and contact them if there's a good match." ++ nl.

Definition prompts : list (string * string) :=
  [("greeting", GREETING_PROMPT);
   ("collecting_info", COLLECTING_INFO_PROMPT);
   ("tech_stack_confirmation", TECH_STACK_CONFIRMATION_PROMPT);
   ("technical_questions", TECHNICAL_QUESTIONS_PROMPT);
   ("farewell", FAREWELL_PROMPT)].

(** [d.get(key, default)] on a dict written as its list of entries. *)
Fixpoint get_default (d : list (string * string)) (key default : string) : string :=
  match d with
  | [] => default
  | (k, v) :: d' => if (k =? key)%string then v else get_default d' key default
  end.

Definition get_system_prompt (stage : string) : string :=
  get_default prompts stage BASE_SYSTEM_PROMPT.

(** [TECHNICAL_QUESTIONS_GENERATION_PROMPT.format(num_questions=n)]: the
    template with its one field filled in. *)
Definition TECHNICAL_QUESTIONS_GENERATION_PROMPT (num_questions : nat) : string :=
  "You are an expert technical interviewer for a tech recruitment agency." ++ nl ++
  "Generate " ++ of_nat num_questions ++ " technical questions to assess a candidate's proficiency in the specified tech stack." ++ nl ++
  "The questions should be challenging but appropriate for an initial screening." ++ nl ++
  "Each question should focus on a different aspect of the technology." ++ nl ++
  "Format the output as a simple list of questions without any introductory text or numbering." ++ nl.

Definition get_tech_questions_prompt (tech_stack : string) (num_questions : nat) : string :=
  let prompt := TECHNICAL_QUESTIONS_GENERATION_PROMPT num_questions in
  prompt ++ (nl ++ "Tech stack: " ++ tech_stack).

End PromptEngineering.

(** ** [llm_integration.py] *)

Module LLM.

Import Text.

Definition any_in (terms : list string) (text : string) : bool :=
  existsb (fun term => contains term text) terms.

(** The loop of [get_mock_response] that reads the stage back from the
    system blocks: the last block that names a stage wins. *)
Fixpoint stage_of_messages (stage : string) (messages : list Message) : string :=
  match messages with
  | [] => stage
  | msg :: rest =>
      if (role msg =? "system")%string
         && contains "Current conversation stage:" (content msg)
      then match second_piece "Current conversation stage:" (content msg) with
           | Some piece => stage_of_messages (strip piece) rest
           | None => stage_of_messages stage rest
           end
      else stage_of_messages stage rest
  end.

Definition get_mock_response (messages : list Message) : string :=
  let user_message :=
    match rev messages with
    | last :: _ => if (role last =? "user")%string then lower (content last) else ""
    | [] => ""
    end in
  let stage := stage_of_messages "greeting" messages in
  if contains "name" user_message && (stage =? "greeting")%string then
    "Nice to meet you! Could you please share your email address so our team can contact you?"
  else if contains "email" user_message && contains "@" user_message then
    "Thanks for your email. What's your phone number in case we need to reach you quickly?"
  else if any_in ["phone"; "number"; "contact"] user_message then
    "Great! How many years of experience do you have in your field?"
  else if any_in ["experience"; "year"; "worked"] user_message then
    "Thank you. What position are you currently looking for?"
  else if any_in ["position"; "job"; "role"; "looking for"] user_message then
    "Where are you currently located? We want to match you with opportunities in your area."
  else if any_in ["location"; "city"; "area"; "based"] user_message then
    "Please tell me about your tech stack. What programming languages, frameworks, and tools are you proficient in?"
  else if (stage =? "technical_questions")%string then
    "Thank you for your answer. That shows good understanding of the technology."
  else if contains "bye" user_message || contains "exit" user_message then
    "Thank you for your time! Our recruitment team will review your information and get back to you soon if there's a match. Have a great day!"
  else
    "Thank you for that information. Is there anything else you'd like to share about your skills or experience?".

Definition get_chatbot_response (w : World) (messages : list Message) : string :=
  if negb (truthy (api_key w)) then get_mock_response messages
  else match chat_completion w messages with
       | Some text => strip text
       | None => get_mock_response messages
       end.

Definition python_questions : list string :=
  ["Can you explain the difference between a list and a tuple in Python?";
   "How do you handle exceptions in Python?";
   "What is the difference between __init__ and __new__ in Python classes?";
   "How does memory management work in Python?";
   "Can you explain decorators and provide a use case?"].

Definition javascript_questions : list string :=
  ["What's the difference between let, const, and var in JavaScript?";
   "Can you explain closures in JavaScript?";
   "How does prototypal inheritance work?";
   "What are Promises and how do they differ from callbacks?";
   "How would you optimize the performance of a JavaScript application?"].

Definition react_questions : list string :=
  ["What is the virtual DOM in React and how does it work?";
   "Explain the component lifecycle in React.";
   "What's the difference between state and props?";
   "How do you handle side effects in React components?";
   "What are hooks and how have they changed React development?"].

Definition java_questions : list string :=
  ["What is the difference between an interface and an abstract class in Java?";
   "How does garbage collection work in Java?";
   "Explain the principles of SOLID in Java.";
   "What are the new features introduced in Java 8?";
   "How would you handle concurrency in a Java application?"].

Definition sql_questions : list string :=
  ["What's the difference between INNER JOIN and LEFT JOIN?";
   "How would you optimize a slow SQL query?";
   "Explain normalization and when you might denormalize a database.";
   "What are indexes and how do they work?";
   "How would you handle large dataset operations in SQL?"].

Definition aws_questions : list string :=
  ["What AWS services would you use for a highly available web application?";
   "Explain the difference between EC2, ECS, and Lambda.";
   "How would you design a scalable architecture on AWS?";
   "What security best practices would you implement in AWS?";
   "How would you monitor and troubleshoot issues in an AWS environment?"].

Definition devops_questions : list string :=
  ["Explain the CI/CD pipeline and its benefits.";
   "What containerization technologies have you worked with?";
   "How would you handle scaling in a microservices architecture?";
   "What monitoring and alerting tools have you used?";
   "How do you approach infrastructure as code?"].

(** The dict [tech_questions], in insertion order. *)
Definition tech_questions_table : list (string * list string) :=
  [("python", python_questions);
   ("javascript", javascript_questions);
   ("react", react_questions);
   ("java", java_questions);
   ("sql", sql_questions);
   ("aws", aws_questions);
   ("devops", devops_questions)].

(** The loop that extends [questions] with the list of every technology
    found in the stack. *)
Fixpoint matching_questions (table : list (string * list string)) (tech_stack : string)
  : list string :=
  match table with
  | [] => []
  | (tech, tech_qs) :: rest =>
      if contains tech tech_stack
      then (tech_qs ++ matching_questions rest tech_stack)%list
      else matching_questions rest tech_stack
  end.

Definition get_mock_technical_questions (tech_stack : string) : list string :=
  let tech_stack := lower tech_stack in
  match matching_questions tech_questions_table tech_stack with
  | [] =>
      ["Could you explain your experience with " ++ tech_stack ++ "?";
       "What projects have you worked on using " ++ tech_stack ++ "?";
       "What challenges have you faced when working with " ++ tech_stack ++ "?";
       "How do you stay updated with the latest developments in " ++ tech_stack ++ "?";
       "Can you describe a complex problem you solved using " ++ tech_stack ++ "?"]
  | questions => firstn 5 questions
  end.

Definition generation_prompt (tech_stack : string) (num_questions : nat) : string :=
  "You are an expert technical interviewer for a tech recruitment agency." ++ nl ++
  "Generate " ++ of_nat num_questions ++ " technical questions to assess a candidate's proficiency in the specified tech stack." ++ nl ++
  "The questions should be challenging but appropriate for an initial screening." ++ nl ++
  "Each question should focus on a different aspect of the technology." ++ nl ++
  "Format the output as a simple list of questions without any introductory text or numbering." ++ nl ++
  nl ++
  "Tech stack: " ++ tech_stack.

Definition nonempty (s : string) : bool :=
  match s with
  | EmptyString => false
  | _ => true
  end.

Definition generate_technical_questions (w : World) (tech_stack : string)
    (num_questions : nat) : list string :=
  if negb (nonempty tech_stack)
  then ["Could you tell me about your technical skills and experience?"]
  else if negb (truthy (api_key w))
  then get_mock_technical_questions tech_stack
  else
    let prompt := generation_prompt tech_stack num_questions in
    match chat_completion w [MkMessage "system" prompt] with
    | Some text =>
        let questions_text := strip text in
        let questions :=
          map strip (filter (fun q => nonempty (strip q))
                            (split_on (ascii_of_nat 10) questions_text)) in
        let questions := filter (ends_with_char "?") questions in
        match questions with
        | [] => ["Could you explain your experience with " ++ tech_stack ++ "?"]
        | _ => questions
        end
    | None => get_mock_technical_questions tech_stack
    end.

End LLM.

(** ** [app.py] *)

(** [st.session_state] *)
Record SessionState : Type := MkState {
  messages : list string;
  candidate_info : CandidateInfo;
  current_stage : string;
  tech_questions : list string;
  question_index : nat;
  conversation_ended : bool
}.

(** What a call leaves behind: the store, the events it caused (oldest
    first) and its value, or the exception that left it. *)
Record Outcome (A : Type) : Type := MkOutcome {
  store : SessionState;
  events : list Event;
  result : exn + A
}.
Arguments MkOutcome {A} _ _ _.
Arguments store {A} _.
Arguments events {A} _.
Arguments result {A} _.

Definition M (A : Type) : Type := SessionState -> Outcome A.

Definition ret {A : Type} (a : A) : M A := fun s => MkOutcome s [] (inr a).

Definition raise {A : Type} (e : exn) : M A := fun s => MkOutcome s [] (inl e).

Definition bind {A B : Type} (m : M A) (k : A -> M B) : M B :=
  fun s =>
    match m s with
    | MkOutcome s1 evs1 (inl e) => MkOutcome s1 evs1 (inl e)
    | MkOutcome s1 evs1 (inr a) =>
        match k a s1 with
        | MkOutcome s2 evs2 r => MkOutcome s2 (evs1 ++ evs2)%list r
        end
    end.

Definition gets {A : Type} (f : SessionState -> A) : M A :=
  fun s => MkOutcome s [] (inr (f s)).

Definition modify (f : SessionState -> SessionState) : M unit :=
  fun s => MkOutcome (f s) [] (inr tt).

Definition emit (evs : list Event) : M unit :=
  fun s => MkOutcome s evs (inr tt).

Notation "x <- m ;; k" := (bind m (fun x => k))
  (at level 61, m at next level, right associativity).
Notation "m ;;; k" := (bind m (fun _ => k))
  (at level 61, right associativity).

Definition set_messages (v : list string) (s : SessionState) : SessionState :=
  MkState v (candidate_info s) (current_stage s) (tech_questions s)
          (question_index s) (conversation_ended s).
Definition set_candidate_info (v : CandidateInfo) (s : SessionState) : SessionState :=
  MkState (messages s) v (current_stage s) (tech_questions s)
          (question_index s) (conversation_ended s).
Definition set_current_stage (v : string) (s : SessionState) : SessionState :=
  MkState (messages s) (candidate_info s) v (tech_questions s)
          (question_index s) (conversation_ended s).
Definition set_tech_questions (v : list string) (s : SessionState) : SessionState :=
  MkState (messages s) (candidate_info s) (current_stage s) v
          (question_index s) (conversation_ended s).
Definition set_question_index (v : nat) (s : SessionState) : SessionState :=
  MkState (messages s) (candidate_info s) (current_stage s) (tech_questions s)
          v (conversation_ended s).
Definition set_conversation_ended (v : bool) (s : SessionState) : SessionState :=
  MkState (messages s) (candidate_info s) (current_stage s) (tech_questions s)
          (question_index s) v.

Module App.

Import Text.

(** The values the script gives the store when a session starts. *)
Definition initial_info : CandidateInfo :=
  MkInfo None None None None None None None.

Definition initial_state : SessionState :=
  MkState [] initial_info "greeting" [] 0 false.

Definition ended_notice : string :=
  "The conversation has ended. Please refresh the page to start a new session.".

Definition exit_keywords : list string :=
  ["exit"; "quit"; "bye"; "goodbye"; "end"; "stop"].

(** The closing f-string of [end_conversation]. *)
Definition closing_message (info : CandidateInfo) : string :=
  "Thank you for taking the time to chat with me, "
    ++ or_default (name info) "candidate" ++ "! " ++ nl ++
  nl ++
  "I've collected your information and technical responses, which will be reviewed by our recruitment team. If your profile matches any of our current openings, a recruiter will contact you at "
    ++ or_default (email info) "your email address" ++ " or "
    ++ or_default (phone info) "your phone number"
    ++ " for the next steps in the process." ++ nl ++
  nl ++
  "Best of luck with your job search, and we hope to speak with you again soon!" ++ nl ++
  nl ++
  "- TalentScout Hiring Assistant".

Definition end_conversation (w : World) : M string :=
  modify (set_conversation_ended true) ;;;
  info <- gets candidate_info ;;
  let closing := closing_message info in
  msgs <- gets messages ;;
  questions <- gets tech_questions ;;
  emit [CallSave info msgs questions] ;;;
  emit (fst (DataHandling.save_conversation w info msgs questions)) ;;;
  ret closing.

(** The loop of [get_user_info_context] over the entries of the dict. *)
Fixpoint info_lines (entries : list (string * option string)) : string :=
  match entries with
  | [] => EmptyString
  | (key, value) :: rest =>
      (if truthy value
       then "- " ++ capitalize (replace_char "_" " " key) ++ ": " ++ fmt value ++ nl
       else EmptyString) ++ info_lines rest
  end.

Definition get_user_info_context : M string :=
  info <- gets candidate_info ;;
  ret ("Candidate Information:" ++ nl ++ info_lines (items info)).

(** [f"{'Bot' if i % 2 == 0 else 'User'}: {msg}"] over [enumerate(messages)]. *)
Fixpoint label_turns (i : nat) (msgs : list string) : list string :=
  match msgs with
  | [] => []
  | msg :: rest =>
      ((if Nat.even i then "Bot" else "User") ++ ": " ++ msg) :: label_turns (S i) rest
  end.

(** [f"{i+1}. {q}\n"] over [enumerate(tech_questions)]. *)
Fixpoint numbered (i : nat) (questions : list string) : string :=
  match questions with
  | [] => EmptyString
  | q :: rest => of_nat (i + 1) ++ ". " ++ q ++ nl ++ numbered (S i) rest
  end.

Definition tech_question_for (position : string) : string :=
  "Please list your technical skills relevant to this position. " ++
  (if contains "web" position || contains "front" position then
     "For example: HTML, CSS, JavaScript, React, Angular, Vue, etc."
   else if contains "back" position then
     "For example: Node.js, Python, Java, PHP, Ruby, databases, etc."
   else if contains "data" position then
     "For example: Python, R, SQL, Pandas, Matplotlib, machine learning libraries, etc."
   else if contains "devops" position then
     "For example: Docker, Kubernetes, AWS, CI/CD, Linux, etc."
   else if contains "mobile" position then
     "For example: Swift, Kotlin, React Native, Flutter, etc."
   else
     "For example: programming languages, frameworks, tools, and technologies you're proficient in.").

Definition handle_stage_transitions (w : World) (assistant_response user_input : string)
  : M string :=
  stage <- gets current_stage ;;
  info <- gets candidate_info ;;
  if (stage =? "greeting")%string && (strip (lower user_input) =? "hey")%string then
    modify (set_current_stage "collecting_name") ;;;
    ret "Hello! I'm TalentScout, an AI hiring assistant. I'll be conducting your initial screening interview. Could you please tell me your full name?"
  else if (stage =? "greeting")%string && truthy (name info) then
    modify (set_current_stage "collecting_email") ;;;
    ret ("Thank you, " ++ fmt (name info) ++ "! What's your email address?")
  else if (stage =? "collecting_email")%string && truthy (email info) then
    modify (set_current_stage "collecting_phone") ;;;
    ret "Great! Now, could you please provide your phone number?"
  else if (stage =? "collecting_phone")%string && truthy (phone info) then
    modify (set_current_stage "collecting_position") ;;;
    ret "Thanks! What area or position would you like to work in? (e.g., Web Development, Data Science, DevOps, etc.)"
  else if (stage =? "collecting_position")%string && truthy (position info) then
    modify (set_current_stage "collecting_experience") ;;;
    ret ("Got it! How many years of experience do you have in "
           ++ fmt (position info) ++ "?")
  else if (stage =? "collecting_experience")%string && truthy (experience info) then
    modify (set_current_stage "collecting_tech_stack") ;;;
    match position info with
    | None => raise (AttributeError "'NoneType' object has no attribute 'lower'")
    | Some p => ret ("Thank you! " ++ tech_question_for (lower p))
    end
  else if (stage =? "collecting_tech_stack")%string && truthy (tech_stack info) then
    modify (set_current_stage "tech_stack_confirmation") ;;;
    ret ("Thank you for sharing your skills in " ++ fmt (tech_stack info)
           ++ ". Is there anything else you'd like to add before we move on to some technical questions?")
  else if (stage =? "tech_stack_confirmation")%string then
    questions <- gets tech_questions ;;
    match questions with
    | [] =>
        let position_context :=
          if truthy (position info) then "Position: " ++ fmt (position info) else "" in
        let request := position_context ++ " Tech stack: " ++ fmt (tech_stack info) in
        emit [CallGenerate request] ;;;
        modify (set_tech_questions (LLM.generate_technical_questions w request 5)) ;;;
        modify (set_current_stage "technical_questions") ;;;
        questions <- gets tech_questions ;;
        match questions with
        | q :: _ =>
            ret ("Great! Now I'll ask you some technical questions based on your experience."
                   ++ nl ++ nl ++ q)
        | [] => raise (IndexError "list index out of range")
        end
    | _ :: _ => ret assistant_response
    end
  else if (stage =? "technical_questions")%string then
    index <- gets question_index ;;
    modify (set_question_index (index + 1)) ;;;
    index <- gets question_index ;;
    questions <- gets tech_questions ;;
    if index <? List.length questions then
      match nth_error questions index with
      | Some q => ret ("Thank you for your answer. Next question:" ++ nl ++ nl ++ q)
      | None => raise (IndexError "list index out of range")
      end
    else
      modify (set_current_stage "farewell") ;;;
      end_conversation w
  else ret assistant_response.

(** The message list handed to the model. *)
Definition build_messages (system_prompt user_info_context stage conversation_history : string)
    (questions : list string) (index : nat) (user_input : string) : list Message :=
  ([MkMessage "system" system_prompt;
    MkMessage "system" user_info_context;
    MkMessage "system" ("Current conversation stage: " ++ stage);
    MkMessage "system" ("Previous conversation:" ++ nl ++ conversation_history)]
   ++ (match questions with
       | _ :: _ =>
           if (stage =? "technical_questions")%string
           then [MkMessage "system"
                   ("Technical questions to ask:" ++ nl ++ numbered 0 questions
                      ++ nl ++ "Current question index: " ++ of_nat index)]
           else []
       | [] => []
       end)
   ++ [MkMessage "user" user_input])%list.

(** [any(keyword in user_input.lower() for keyword in exit_keywords)] *)
Definition exit_requested (user_input : string) : bool :=
  existsb (fun keyword => contains keyword (lower user_input)) exit_keywords.

Definition process_user_input (w : World) (user_input : string) : M string :=
  ended <- gets conversation_ended ;;
  if ended then ret ended_notice
  else
    stage <- gets current_stage ;;
    if exit_requested user_input && negb (stage =? "farewell")%string
    then
      modify (set_current_stage "farewell") ;;;
      end_conversation w
    else
      info <- gets candidate_info ;;
      emit [CallExtract user_input stage] ;;;
      modify (set_candidate_info
                (DataHandling.extract_candidate_info user_input info stage)) ;;;
      msgs <- gets messages ;;
      let conversation_history := join nl (label_turns 0 msgs) in
      stage <- gets current_stage ;;
      let system_prompt := PromptEngineering.get_system_prompt stage in
      user_info_context <- get_user_info_context ;;
      questions <- gets tech_questions ;;
      index <- gets question_index ;;
      let request :=
        build_messages system_prompt user_info_context stage conversation_history
                       questions index user_input in
      emit [CallModel request] ;;;
      let assistant_response := LLM.get_chatbot_response w request in
      handle_stage_transitions w assistant_response user_input.

(** One pass of the script body after the user pressed Send with a
    non-empty text: the turn is added to the transcript around the call. *)
Definition send (w : World) (user_input : string) : M unit :=
  msgs <- gets messages ;;
  modify (set_messages (msgs ++ [String.append "You: " user_input])%list) ;;;
  response <- process_user_input w user_input ;;
  msgs <- gets messages ;;
  modify (set_messages (msgs ++ [String.append "TalentScout: " response])%list).

(** The canonical order of the stages. *)
Definition stage_order : list string :=
  ["greeting"; "collecting_name"; "collecting_email"; "collecting_phone";
   "collecting_position"; "collecting_experience"; "collecting_tech_stack";
   "tech_stack_confirmation"; "technical_questions"; "farewell"].

Fixpoint index_in (l : list string) (x : string) : option nat :=
  match l with
  | [] => None
  | y :: l' => if (x =? y)%string then Some 0 else option_map S (index_in l' x)
  end.

Definition stage_index (stage : string) : option nat := index_in stage_order stage.

(** A turn of a session: the world at that moment and the text sent. *)
Definition Turn : Type := (World * string)%type.

(** The stores and the outcomes of a sequence of calls of
    [process_user_input], the store being handed from each call to the
    next whatever the call returned or raised. *)
Fixpoint run (turns : list Turn) (s : SessionState) : list (Outcome string) :=
  match turns with
  | [] => []
  | (w, user_input) :: rest =>
      let o := process_user_input w user_input s in
      o :: run rest (store o)
  end.

Fixpoint final (turns : list Turn) (s : SessionState) : SessionState :=
  match turns with
  | [] => s
  | (w, user_input) :: rest => final rest (store (process_user_input w user_input s))
  end.

(** The stores a session can be in: the initial one, the one a call of
    [process_user_input] leaves, and those with other transcripts (the
    script body only ever changes [messages] itself). *)
Inductive reachable : SessionState -> Prop :=
| reach_init : reachable initial_state
| reach_call s w user_input :
    reachable s -> reachable (store (process_user_input w user_input s))
| reach_transcript s msgs :
    reachable s -> reachable (set_messages msgs s).

(** The flag [conversation_ended] and the stage [farewell] go together. *)
Definition consistent (s : SessionState) : Prop :=
  conversation_ended s = true <-> current_stage s = "farewell".

(** A store whose stage is one of the ten stages and whose flag agrees
    with it. *)
Definition well_formed (s : SessionState) : Prop :=
  consistent s /\ In (current_stage s) stage_order.

(** The assignments of [handle_stage_transitions] that do not end the
    conversation, each with the condition that guards it. *)
Definition forward (a b : string) (info : CandidateInfo) : bool :=
  ((a =? "greeting") && (b =? "collecting_name"))%string
  || ((a =? "greeting") && (b =? "collecting_email"))%string && truthy (name info)
  || ((a =? "collecting_email") && (b =? "collecting_phone"))%string && truthy (email info)
  || ((a =? "collecting_phone") && (b =? "collecting_position"))%string && truthy (phone info)
  || ((a =? "collecting_position") && (b =? "collecting_experience"))%string
     && truthy (position info)
  || ((a =? "collecting_experience") && (b =? "collecting_tech_stack"))%string
     && truthy (experience info)
  || ((a =? "collecting_tech_stack") && (b =? "tech_stack_confirmation"))%string
     && truthy (tech_stack info)
  || ((a =? "tech_stack_confirmation") && (b =? "technical_questions"))%string.

(** What a call may do to the stage and the flag: nothing, one guarded
    assignment, or the end of the conversation. *)
Definition moved (s s' : SessionState) : Prop :=
  (current_stage s' = current_stage s /\ conversation_ended s' = conversation_ended s)
  \/ (forward (current_stage s) (current_stage s') (candidate_info s) = true
      /\ conversation_ended s' = conversation_ended s)
  \/ (current_stage s' = "farewell" /\ conversation_ended s' = true).

(** [a] comes no later than [b] in the canonical order. *)
Definition stage_le (a b : string) : Prop :=
  exists i j, stage_index a = Some i /\ stage_index b = Some j /\ i <= j.

(** The stages from which the session has not yet reached the
    confirmation of the stack. *)
Definition before_confirmation : list string :=
  ["greeting"; "collecting_name"; "collecting_email"; "collecting_phone";
   "collecting_position"; "collecting_experience"; "collecting_tech_stack";
   "farewell"].

(** A world for the examples: no API key, a file system that accepts
    everything, a fixed clock and a printer that writes an empty object. *)
Definition offline_world : World :=
  MkWorld None (fun _ => None) (fun _ => true) (fun _ _ => true)
          "2024-01-01 00:00:00" "20240101_000000" (fun _ => "{}").

(** The store after the candidate said goodbye at the first prompt. *)
Definition ended_state : SessionState :=
  final [(offline_world, "Goodbye")] initial_state.


(** The scenario of the last technical question. *)
Definition last_question_scenario : SessionState :=
  MkState [] initial_info "technical_questions" LLM.python_questions 4 false.

Definition early (s : SessionState) : Prop :=
  In (current_stage s) before_confirmation /\ tech_stack (candidate_info s) = None.

Definition count_saves (evs : list Event) : nat :=
  List.length (filter (fun e => match e with CallSave _ _ _ => true | _ => false end) evs).

Definition is_call (e : Event) : bool :=
  match e with
  | CallModel _ | CallExtract _ _ | CallSave _ _ _ | CallGenerate _ => true
  | _ => false
  end.

Definition is_model_or_extract (e : Event) : bool :=
  match e with
  | CallModel _ | CallExtract _ _ => true
  | _ => false
  end.

Definition is_write (e : Event) : bool :=
  match e with
  | WriteFile _ _ => true
  | _ => false
  end.

(** The store after the candidate opened with "hey". *)
Definition hey_state : SessionState :=
  final [(offline_world, "hey")] initial_state.

(** A store at the confirmation of the stack, before any question was
    generated. *)
Definition confirmation_scenario : SessionState :=
  MkState [] (MkInfo (Some "Jane Roe") None None None (Some "data analyst") None
                     (Some "python, sql"))
          "tech_stack_confirmation" [] 0 false.

(** A store at the first technical question. *)
Definition questions_scenario : SessionState :=
  MkState [] initial_info "technical_questions" LLM.python_questions 0 false.

(** Every character of [s] is in the class. *)
Definition all_in (cls : ascii -> bool) (s : string) : bool :=
  negb (any_char (fun c => negb (cls c)) s).

(** Every character of [s] is below 128: on such text the operations of
    [Text] are those of Python. *)
Definition ascii_text (s : string) : bool := all_in (fun c => code c <? 128) s.

Definition ascii_field (v : option string) : bool :=
  match v with
  | Some s => ascii_text s
  | None => true
  end.

(** A validator let the value through. *)
Definition accepted {A : Type} (r : exn + A) : Prop := exists v, r = inr v.

(** The path [save_conversation] writes the record of a candidate to. *)
Definition record_path (w : World) (candidate_name : string) : string :=
  "data/conversation_" ++ replace_char " " "_" (lower candidate_name) ++ "_"
    ++ now_file w ++ ".json".

(** The reply that carries the next technical question. *)
Definition next_question_reply (q : string) : string :=
  "Thank you for your answer. Next question:" ++ nl ++ nl ++ q.

(** The reply that opens the technical questions. *)
Definition first_question_reply (q : string) : string :=
  "Great! Now I'll ask you some technical questions based on your experience."
    ++ nl ++ nl ++ q.

(** The calls of [save_conversation] over a sequence of outcomes. *)
Definition total_saves (outs : list (Outcome string)) : nat :=
  list_sum (map (fun o => count_saves (events o)) outs).

Definition count_generates (evs : list Event) : nat :=
  List.length (filter (fun e => match e with CallGenerate _ => true | _ => false end) evs).

(** The six stages in which the program asks for one field. *)
Definition collecting_stages : list string :=
  ["collecting_name"; "collecting_email"; "collecting_phone";
   "collecting_position"; "collecting_experience"; "collecting_tech_stack"].

(** Whether the field a collecting stage waits for is in the profile; the
    stage [collecting_name] waits for nothing the program looks at. *)
Definition awaited (stage : string) (info : CandidateInfo) : bool :=
  if (stage =? "collecting_email")%string then truthy (email info)
  else if (stage =? "collecting_phone")%string then truthy (phone info)
  else if (stage =? "collecting_position")%string then truthy (position info)
  else if (stage =? "collecting_experience")%string then truthy (experience info)
  else if (stage =? "collecting_tech_stack")%string then truthy (tech_stack info)
  else false.

End App.

(** * Properties *)

Import Text Regex DataHandling App.

Ltac proj_simpl :=
  cbv [store events result candidate_info messages tech_questions current_stage
       question_index conversation_ended set_current_stage set_tech_questions
       set_question_index set_conversation_ended set_candidate_info set_messages].

Ltac setters_in_all :=
  cbn [candidate_info messages tech_questions current_stage question_index
       conversation_ended set_current_stage set_tech_questions set_question_index
       set_conversation_ended set_candidate_info set_messages] in *.

Ltac monad_unfold :=
  cbv [bind gets modify ret emit raise get_user_info_context]; proj_simpl.

Ltac split_ifs :=
  repeat match goal with
  | |- context [if ?c then _ else _] => let E := fresh "E" in destruct c eqn:E
  end.

Ltac stage_facts :=
  repeat match goal with
  | H : (_ && _)%bool = true |- _ => apply andb_true_iff in H; destruct H
  | H : (?a =? _)%string = true |- _ => apply String.eqb_eq in H; subst a
  end.

Ltac use_truthy :=
  repeat match goal with H : truthy _ = true |- _ => rewrite H; clear H end.

(** ** The stage machine *)

Section StageMachine.

Variable w : World.

Lemma end_conversation_eq s :
  end_conversation w s =
  MkOutcome (set_conversation_ended true s)
    (CallSave (candidate_info s) (messages s) (tech_questions s)
       :: fst (save_conversation w (candidate_info s) (messages s) (tech_questions s)))
    (inr (closing_message (candidate_info s))).
Proof.
  destruct s as [ms info stage qs qi ended].
  unfold end_conversation. monad_unfold. cbn [app].
  rewrite app_nil_r. reflexivity.
Qed.

Lemma handle_stage_transitions_store resp user_input s :
  let s' := store (handle_stage_transitions w resp user_input s) in
  candidate_info s' = candidate_info s /\ messages s' = messages s /\ moved s s'.
Proof.
  destruct s as [ms info stage qs qi ended].
  unfold handle_stage_transitions, moved. monad_unfold.
  split_ifs; stage_facts;
    repeat match goal with
    | |- context [match position info with _ => _ end] => destruct (position info)
    | |- context [match qs with _ => _ end] => destruct qs
    | |- context [match LLM.generate_technical_questions ?a ?b ?c with _ => _ end] =>
        destruct (LLM.generate_technical_questions a b c)
    | |- context [match nth_error ?a ?b with _ => _ end] => destruct (nth_error a b)
    end; proj_simpl.
  all: try rewrite end_conversation_eq; proj_simpl.
  all: repeat split; auto.
  all: right; left; split; [unfold forward; use_truthy; reflexivity | reflexivity].
Qed.

(** The three ways through [process_user_input]. *)
Lemma process_user_input_cases user_input s :
  let o := process_user_input w user_input s in
  (conversation_ended s = true /\ o = MkOutcome s [] (inr ended_notice))
  \/ (conversation_ended s = false
      /\ exit_requested user_input = true /\ current_stage s <> "farewell"
      /\ o = MkOutcome
               (set_conversation_ended true (set_current_stage "farewell" s))
               (CallSave (candidate_info s) (messages s) (tech_questions s)
                  :: fst (save_conversation w (candidate_info s) (messages s)
                            (tech_questions s)))
               (inr (closing_message (candidate_info s))))
  \/ (conversation_ended s = false
      /\ (exit_requested user_input && negb (current_stage s =? "farewell")%string) = false
      /\ exists request,
          let s1 := set_candidate_info
                      (extract_candidate_info user_input (candidate_info s)
                                              (current_stage s)) s in
          let h := handle_stage_transitions w (LLM.get_chatbot_response w request)
                                            user_input s1 in
          o = MkOutcome (store h)
                (CallExtract user_input (current_stage s) :: CallModel request :: events h)
                (result h)).
Proof.
  destruct s as [ms info stage qs qi ended].
  unfold process_user_input. monad_unfold.
  destruct ended; [left; split; reflexivity|].
  match goal with
  | |- context [if ?c then _ else _] => destruct c eqn:E
  end.
  - right; left. apply andb_true_iff in E. destruct E as [E1 E2].
    apply negb_true_iff, String.eqb_neq in E2.
    proj_simpl. rewrite end_conversation_eq. proj_simpl. cbn [app]. auto.
  - right; right. split; [reflexivity|]. split; [reflexivity|].
    match goal with
    | |- context [CallModel ?r] => exists r
    end.
    cbv zeta.
    match goal with
    | |- context [handle_stage_transitions ?a ?b ?c ?d] =>
        destruct (handle_stage_transitions a b c d) as [s2 evs2 r2]
    end.
    cbv [app store events result]. reflexivity.
Qed.

End StageMachine.

(** *** The guarded assignments, one by one *)

Lemma forward_cases a b info :
  forward a b info = true ->
  (a = "greeting" /\ b = "collecting_name")
  \/ (a = "greeting" /\ b = "collecting_email" /\ truthy (name info) = true)
  \/ (a = "collecting_email" /\ b = "collecting_phone" /\ truthy (email info) = true)
  \/ (a = "collecting_phone" /\ b = "collecting_position" /\ truthy (phone info) = true)
  \/ (a = "collecting_position" /\ b = "collecting_experience"
      /\ truthy (position info) = true)
  \/ (a = "collecting_experience" /\ b = "collecting_tech_stack"
      /\ truthy (experience info) = true)
  \/ (a = "collecting_tech_stack" /\ b = "tech_stack_confirmation"
      /\ truthy (tech_stack info) = true)
  \/ (a = "tech_stack_confirmation" /\ b = "technical_questions").
Proof.
  unfold forward. rewrite !orb_true_iff, !andb_true_iff, !String.eqb_eq. tauto.
Qed.

Lemma forward_advances a b info :
  forward a b info = true ->
  exists i j, stage_index a = Some i /\ stage_index b = Some j /\ i < j.
Proof.
  intros H. apply forward_cases in H.
  repeat (destruct H as [H|H]);
    repeat match goal with H : _ /\ _ |- _ => destruct H end; subst;
    do 2 eexists; (split; [reflexivity|]); (split; [reflexivity|]); lia.
Qed.

Lemma forward_not_farewell a b info : forward a b info = true -> b <> "farewell".
Proof.
  intros H. apply forward_cases in H.
  repeat (destruct H as [H|H]);
    repeat match goal with H : _ /\ _ |- _ => destruct H end; subst; discriminate.
Qed.

Lemma forward_in_order a b info : forward a b info = true -> In b stage_order.
Proof.
  intros H. apply forward_cases in H.
  repeat (destruct H as [H|H]);
    repeat match goal with H : _ /\ _ |- _ => destruct H end; subst;
    unfold stage_order; simpl; tauto.
Qed.

Lemma stage_index_defined a : In a stage_order -> exists i, stage_index a = Some i.
Proof.
  unfold stage_order. simpl.
  intros H; repeat (destruct H as [H|H]); try contradiction; subst;
    eexists; reflexivity.
Qed.

Lemma stage_le_refl a : In a stage_order -> stage_le a a.
Proof.
  intros H. destruct (stage_index_defined a H) as [i Hi].
  exists i, i. auto.
Qed.

Lemma stage_le_trans a b c : stage_le a b -> stage_le b c -> stage_le a c.
Proof.
  intros (i & j & Hi & Hj & Hij) (j' & k & Hj' & Hk & Hjk).
  rewrite Hj in Hj'. injection Hj' as <-.
  exists i, k. repeat split; auto. lia.
Qed.

Lemma stage_le_farewell a : In a stage_order -> stage_le a "farewell".
Proof.
  intros H. destruct (stage_index_defined a H) as [i Hi].
  exists i, 9. repeat split; auto.
  revert Hi. unfold stage_order in H. simpl in H.
  repeat (destruct H as [H|H]); try contradiction; subst;
    intros Hi; vm_compute in Hi; injection Hi as <-; lia.
Qed.

(** What one call does to the stage, the flag and the profile. *)
Lemma process_user_input_moved w user_input s :
  let s' := store (process_user_input w user_input s) in
  messages s' = messages s
  /\ (s' = s
      \/ (conversation_ended s = false
          /\ candidate_info s' = candidate_info s
          /\ current_stage s' = "farewell" /\ conversation_ended s' = true)
      \/ (conversation_ended s = false
          /\ candidate_info s' =
             extract_candidate_info user_input (candidate_info s) (current_stage s)
          /\ moved (set_candidate_info (candidate_info s') s) s')).
Proof.
  destruct (process_user_input_cases w user_input s) as
    [[He Ho] | [(He & Hx & Hs & Ho) | (He & Hx & request & Ho)]]; cbv zeta;
    rewrite Ho; clear Ho.
  - split; [reflexivity|]. left. reflexivity.
  - split; [destruct s; reflexivity|]. right; left. destruct s; auto.
  - cbv zeta. change (store (MkOutcome ?a ?b ?c)) with a.
    match goal with
    | |- context [handle_stage_transitions ?a ?b ?c ?d] =>
        pose proof (handle_stage_transitions_store a b c d) as (Hi & Hm & Hmv)
    end.
    rewrite Hm. split; [destruct s; reflexivity|].
    right; right. rewrite Hi. split; [exact He|]. split; [destruct s; reflexivity|].
    exact Hmv.
Qed.

Lemma well_formed_call w user_input s :
  well_formed s -> well_formed (store (process_user_input w user_input s)).
Proof.
  intros [Hc Hin].
  destruct (process_user_input_moved w user_input s) as
    (_ & [Heq | [(He & _ & Hs & He') | (He & Hi & Hmv)]]).
  - rewrite Heq. split; assumption.
  - split.
    + unfold consistent. rewrite Hs, He'. tauto.
    + rewrite Hs. unfold stage_order. simpl. tauto.
  - set (s' := store (process_user_input w user_input s)) in *.
    assert (Hnf : current_stage s <> "farewell").
    { intros Hf. apply Hc in Hf. congruence. }
    destruct Hmv as [[Hs Hd] | [[Hf Hd] | [Hs Hd]]]; setters_in_all.
    + split; [unfold consistent|]; rewrite Hs; [|exact Hin].
      rewrite Hd. exact Hc.
    + split.
      * unfold consistent. rewrite Hd, He.
        split; [discriminate|]. intros Hx. exfalso.
        exact (forward_not_farewell _ _ _ Hf Hx).
      * exact (forward_in_order _ _ _ Hf).
    + split.
      * unfold consistent. rewrite Hs, Hd. tauto.
      * rewrite Hs. unfold stage_order. simpl. tauto.
Qed.

Lemma well_formed_transcript msgs s : well_formed s -> well_formed (set_messages msgs s).
Proof. destruct s; exact (fun H => H). Qed.

Lemma well_formed_initial : well_formed initial_state.
Proof.
  split.
  - split; discriminate.
  - unfold stage_order. simpl. tauto.
Qed.

Lemma reachable_well_formed s : reachable s -> well_formed s.
Proof.
  induction 1.
  - exact well_formed_initial.
  - apply well_formed_call. assumption.
  - apply well_formed_transcript. assumption.
Qed.

Lemma stage_le_call w user_input s :
  well_formed s ->
  stage_le (current_stage s) (current_stage (store (process_user_input w user_input s))).
Proof.
  intros [Hc Hin].
  destruct (process_user_input_moved w user_input s) as
    (_ & [Heq | [(He & _ & Hs & He') | (He & Hi & Hmv)]]).
  - rewrite Heq. apply stage_le_refl. exact Hin.
  - rewrite Hs. apply stage_le_farewell. exact Hin.
  - destruct Hmv as [[Hs Hd] | [[Hf Hd] | [Hs Hd]]]; setters_in_all.
    + rewrite Hs. apply stage_le_refl. exact Hin.
    + destruct (forward_advances _ _ _ Hf) as (i & j & Hi' & Hj & Hij).
      exists i, j. repeat split; auto. lia.
    + rewrite Hs. apply stage_le_farewell. exact Hin.
Qed.

Lemma farewell_call w user_input s :
  well_formed s -> current_stage s = "farewell" ->
  process_user_input w user_input s = MkOutcome s [] (inr ended_notice).
Proof.
  intros [Hc _] Hf. apply Hc in Hf.
  destruct (process_user_input_cases w user_input s) as
    [[He Ho] | [(He & _) | (He & _)]]; congruence.
Qed.

Lemma well_formed_final turns : forall s, well_formed s -> well_formed (final turns s).
Proof.
  induction turns as [|[w user_input] rest IH]; intros s Hs; simpl.
  - exact Hs.
  - apply IH, well_formed_call, Hs.
Qed.

Lemma stage_le_final turns :
  forall s, well_formed s -> stage_le (current_stage s) (current_stage (final turns s)).
Proof.
  induction turns as [|[w user_input] rest IH]; intros s Hs; simpl.
  - apply stage_le_refl, Hs.
  - eapply stage_le_trans.
    + apply (stage_le_call w user_input s Hs).
    + apply IH, well_formed_call, Hs.
Qed.

Lemma farewell_run turns :
  forall s, well_formed s -> current_stage s = "farewell" ->
  Forall (fun o => current_stage (store o) = "farewell" /\ result o = inr ended_notice)
         (run turns s).
Proof.
  induction turns as [|[w user_input] rest IH]; intros s Hs Hf; simpl.
  - constructor.
  - rewrite (farewell_call w user_input s Hs Hf). constructor.
    + split; [exact Hf | reflexivity].
    + apply IH; assumption.
Qed.

(** *** The profile under extraction *)

Ltac through_extractor :=
  repeat match goal with
  | |- context [if ?c then _ else _] => destruct c
  | |- context [match ?x with _ => _ end] => destruct x
  end; repeat split; reflexivity.

Lemma extract_name_others user_input stage info :
  let i := extract_name user_input stage info in
  email i = email info /\ phone i = phone info /\ experience i = experience info
  /\ position i = position info /\ location i = location info
  /\ tech_stack i = tech_stack info.
Proof. unfold extract_name. cbv zeta. through_extractor. Qed.

Lemma extract_email_others user_input info :
  let i := extract_email user_input info in
  name i = name info /\ phone i = phone info /\ experience i = experience info
  /\ position i = position info /\ location i = location info
  /\ tech_stack i = tech_stack info.
Proof. unfold extract_email. cbv zeta. through_extractor. Qed.

Lemma extract_phone_others user_input info :
  let i := extract_phone user_input info in
  name i = name info /\ email i = email info /\ experience i = experience info
  /\ position i = position info /\ location i = location info
  /\ tech_stack i = tech_stack info.
Proof. unfold extract_phone. cbv zeta. through_extractor. Qed.

Lemma extract_experience_others user_input info :
  let i := extract_experience user_input info in
  name i = name info /\ email i = email info /\ phone i = phone info
  /\ position i = position info /\ location i = location info
  /\ tech_stack i = tech_stack info.
Proof. unfold extract_experience. cbv zeta. through_extractor. Qed.

Lemma extract_position_others user_input info :
  let i := extract_position user_input info in
  name i = name info /\ email i = email info /\ phone i = phone info
  /\ experience i = experience info /\ location i = location info
  /\ tech_stack i = tech_stack info.
Proof. unfold extract_position. cbv zeta. through_extractor. Qed.

Lemma extract_tech_stack_others user_input stage info :
  let i := extract_tech_stack user_input stage info in
  name i = name info /\ email i = email info /\ phone i = phone info
  /\ experience i = experience info /\ position i = position info
  /\ location i = location info.
Proof. unfold extract_tech_stack. cbv zeta. through_extractor. Qed.

Lemma extract_tech_stack_gate user_input stage info :
  stage <> "collecting_info" -> extract_tech_stack user_input stage info = info.
Proof.
  intros H. unfold extract_tech_stack.
  apply String.eqb_neq in H. rewrite H, andb_false_r. reflexivity.
Qed.

Lemma extract_outside_stages user_input info stage :
  in_list stage extraction_stages = false ->
  extract_candidate_info user_input info stage = info.
Proof. intros H. unfold extract_candidate_info. rewrite H. reflexivity. Qed.

Lemma extract_keeps_tech_stack user_input info stage :
  stage <> "collecting_info" ->
  tech_stack (extract_candidate_info user_input info stage) = tech_stack info.
Proof.
  intros H. unfold extract_candidate_info.
  destruct (negb (in_list stage extraction_stages)); [reflexivity|].
  cbv zeta. rewrite extract_tech_stack_gate by exact H.
  rewrite (proj2 (proj2 (proj2 (proj2 (proj2 (extract_position_others _ _)))))).
  rewrite (proj2 (proj2 (proj2 (proj2 (proj2 (extract_experience_others _ _)))))).
  rewrite (proj2 (proj2 (proj2 (proj2 (proj2 (extract_phone_others _ _)))))).
  rewrite (proj2 (proj2 (proj2 (proj2 (proj2 (extract_email_others _ _)))))).
  exact (proj2 (proj2 (proj2 (proj2 (proj2 (extract_name_others _ _ _)))))).
Qed.

(** *** What a session can reach *)

Lemma before_confirmation_not_info a :
  In a before_confirmation -> a <> "collecting_info" /\ a <> "tech_stack_confirmation".
Proof.
  unfold before_confirmation. simpl.
  intros H; repeat (destruct H as [H|H]); try contradiction; subst;
    split; discriminate.
Qed.

Lemma early_call w user_input s :
  early s -> early (store (process_user_input w user_input s)).
Proof.
  intros [Hin Hts].
  destruct (process_user_input_moved w user_input s) as
    (_ & [Heq | [(He & Hi & Hs & He') | (He & Hi & Hmv)]]).
  - rewrite Heq. split; assumption.
  - split.
    + rewrite Hs. unfold before_confirmation. simpl. tauto.
    + rewrite Hi. exact Hts.
  - assert (Hts' : tech_stack (candidate_info (store (process_user_input w user_input s)))
                   = None).
    { rewrite Hi, extract_keeps_tech_stack; [exact Hts|].
      apply before_confirmation_not_info, Hin. }
    split; [|exact Hts'].
    destruct Hmv as [[Hs Hd] | [[Hf Hd] | [Hs Hd]]]; setters_in_all.
    + rewrite Hs. exact Hin.
    + apply forward_cases in Hf.
      repeat (destruct Hf as [Hf|Hf]);
        repeat match goal with H : _ /\ _ |- _ => destruct H end;
        try match goal with
            | H : current_stage (store _) = _ |- _ => rewrite H
            end;
        try (unfold before_confirmation; simpl; tauto).
      * rewrite Hts' in *. discriminate.
      * exfalso. apply before_confirmation_not_info in Hin. tauto.
    + rewrite Hs. unfold before_confirmation. simpl. tauto.
Qed.

Lemma reachable_early s : reachable s -> early s.
Proof.
  induction 1.
  - split; [unfold before_confirmation; simpl; tauto | reflexivity].
  - apply early_call. assumption.
  - destruct s; assumption.
Qed.

Lemma handle_stage_transitions_never_collecting_info w resp user_input s :
  current_stage (store (handle_stage_transitions w resp user_input s)) = "collecting_info" ->
  current_stage s = "collecting_info".
Proof.
  destruct (handle_stage_transitions_store w resp user_input s) as (_ & _ & Hmv).
  intros Hc. destruct Hmv as [[Hs Hd] | [[Hf Hd] | [Hs Hd]]].
  - congruence.
  - exfalso. rewrite Hc in Hf. apply forward_cases in Hf.
    repeat (destruct Hf as [Hf|Hf]);
      repeat match goal with H : _ /\ _ |- _ => destruct H end; discriminate.
  - congruence.
Qed.

(** *** The events of the recorder *)

Lemma save_conversation_no_calls w info msgs qs :
  filter is_call (fst (save_conversation w info msgs qs)) = [].
Proof.
  unfold save_conversation, save_body.
  destruct (negb (makedirs_ok w "data")); [reflexivity|].
  destruct (make_ConversationRecord (now_stamp w) info msgs qs); [reflexivity|].
  destruct (name info); [|reflexivity].
  match goal with
  | |- context [if ?c then _ else _] => destruct c
  end; reflexivity.
Qed.

Lemma filter_sub {A : Type} (p q : A -> bool) (l : list A) :
  (forall x, p x = true -> q x = true) -> filter q l = [] -> filter p l = [].
Proof.
  intros Hpq. induction l as [|x l IH]; simpl; [reflexivity|].
  destruct (q x) eqn:Eq; [discriminate|].
  destruct (p x) eqn:Ep; [rewrite (Hpq x Ep) in Eq; discriminate|].
  exact IH.
Qed.

Lemma save_conversation_no_model_or_extract w info msgs qs :
  filter is_model_or_extract (fst (save_conversation w info msgs qs)) = [].
Proof.
  apply (filter_sub _ is_call); [|apply save_conversation_no_calls].
  intros [] H; try discriminate; reflexivity.
Qed.

Lemma save_conversation_no_saves w info msgs qs :
  count_saves (fst (save_conversation w info msgs qs)) = 0.
Proof.
  unfold count_saves.
  rewrite (filter_sub _ is_call); [reflexivity| |apply save_conversation_no_calls].
  intros [] H; try discriminate; reflexivity.
Qed.

(** *** The last technical question *)

Lemma handle_stage_transitions_last_question w resp user_input s :
  current_stage s = "technical_questions" ->
  (question_index s + 1 <? List.length (tech_questions s)) = false ->
  handle_stage_transitions w resp user_input s =
  MkOutcome
    (set_conversation_ended true
       (set_current_stage "farewell" (set_question_index (question_index s + 1) s)))
    (CallSave (candidate_info s) (messages s) (tech_questions s)
       :: fst (save_conversation w (candidate_info s) (messages s) (tech_questions s)))
    (inr (closing_message (candidate_info s))).
Proof.
  destruct s as [ms info stage qs qi ended]. proj_simpl. intros Hs Hq.
  unfold handle_stage_transitions. monad_unfold.
  split_ifs; stage_facts; try discriminate.
  - rewrite end_conversation_eq. proj_simpl. cbv [app]. reflexivity.
  - rewrite Hs in E7. discriminate.
Qed.

(** ** The stage machine: main theorems *)

(** C1.  From every well-formed store (in particular every store a session
    can reach, [reachable_well_formed]) and for every sequence of calls of
    [process_user_input], the stage after the calls comes no earlier in the
    canonical order than the stage before them; and when the stage is
    [farewell], every later call leaves it [farewell] and returns the fixed
    notice that the session has ended. *)
Theorem stage_never_moves_back (s : SessionState) :
  well_formed s ->
  (forall turns, stage_le (current_stage s) (current_stage (final turns s)))
  /\ (current_stage s = "farewell" ->
      forall turns,
        Forall (fun o => current_stage (store o) = "farewell"
                         /\ result o = inr ended_notice)
               (run turns s)).
Proof.
  intros Hs. split.
  - intros turns. apply stage_le_final, Hs.
  - intros Hf turns. apply farewell_run; assumption.
Qed.

(** C2.  Extraction changes [tech_stack] only when its stage argument is
    [collecting_info]; [handle_stage_transitions] never assigns that stage;
    so in every store a session reaches from the initial one the stack is
    still unset, the stage is neither [collecting_info] nor
    [tech_stack_confirmation], and no call moves the stage to
    [tech_stack_confirmation]. *)
Theorem tech_stack_extraction_unreachable :
  (forall user_input info stage,
      tech_stack (extract_candidate_info user_input info stage) <> tech_stack info ->
      stage = "collecting_info")
  /\ (forall w resp user_input s,
        current_stage (store (handle_stage_transitions w resp user_input s))
          = "collecting_info" ->
        current_stage s = "collecting_info")
  /\ (forall s, reachable s ->
        tech_stack (candidate_info s) = None
        /\ current_stage s <> "collecting_info"
        /\ current_stage s <> "tech_stack_confirmation"
        /\ forall w user_input,
            let s' := store (process_user_input w user_input s) in
            tech_stack (candidate_info s') = None
            /\ current_stage s' <> "tech_stack_confirmation").
Proof.
  split; [|split].
  - intros user_input info stage H.
    destruct (String.eqb_spec stage "collecting_info") as [E|E]; [exact E|].
    exfalso. apply H, extract_keeps_tech_stack, E.
  - apply handle_stage_transitions_never_collecting_info.
  - intros s Hr. destruct (reachable_early s Hr) as [Hin Hts].
    destruct (before_confirmation_not_info _ Hin) as [H1 H2].
    repeat split; auto.
    + apply (reachable_early _ (reach_call s w user_input Hr)).
    + apply before_confirmation_not_info.
      apply (reachable_early _ (reach_call s w user_input Hr)).
Qed.

Lemma exit_requested_of_keyword user_input keyword :
  In keyword exit_keywords -> contains keyword (lower user_input) = true ->
  exit_requested user_input = true.
Proof.
  intros Hin Hc. unfold exit_requested. apply existsb_exists.
  exists keyword. split; assumption.
Qed.

(** C4.  When the lowercased input contains one of the six exit keywords
    and the stage is not [farewell] (in a store whose flag agrees with its
    stage), one call of [process_user_input] sets the stage to [farewell]
    and returns the closing message; the call invokes neither the model
    nor the extraction, and the profile is left as it was. *)
Theorem exit_keyword_ends_conversation (w : World) (user_input keyword : string)
    (s : SessionState) :
  consistent s ->
  current_stage s <> "farewell" ->
  In keyword exit_keywords ->
  contains keyword (lower user_input) = true ->
  let o := process_user_input w user_input s in
  current_stage (store o) = "farewell"
  /\ result o = inr (closing_message (candidate_info s))
  /\ filter is_model_or_extract (events o) = []
  /\ candidate_info (store o) = candidate_info s.
Proof.
  intros Hc Hnf Hin Hk. cbv zeta.
  pose proof (exit_requested_of_keyword _ _ Hin Hk) as Hx.
  destruct (process_user_input_cases w user_input s) as
    [[He Ho] | [(He & _ & _ & Ho) | (He & Hx' & _)]].
  - exfalso. apply Hnf, Hc, He.
  - rewrite Ho. change (events (MkOutcome ?a ?b ?c)) with b.
    change (store (MkOutcome ?a ?b ?c)) with a.
    change (result (MkOutcome ?a ?b ?c)) with c.
    split; [reflexivity|]. split; [reflexivity|]. split; [|reflexivity].
    cbn [filter is_model_or_extract]. apply save_conversation_no_model_or_extract.
  - exfalso. rewrite Hx in Hx'. apply String.eqb_neq in Hnf. rewrite Hnf in Hx'.
    discriminate.
Qed.

(** C7.  When the stage is [technical_questions], the index is 4 and five
    questions are stored (in a store whose flag agrees with its stage),
    one call of [process_user_input], whatever the input, sets the stage to
    [farewell], returns the closing message and calls [save_conversation]
    exactly once. *)
Theorem last_answer_ends_conversation (w : World) (user_input : string)
    (s : SessionState) :
  consistent s ->
  current_stage s = "technical_questions" ->
  question_index s = 4 ->
  List.length (tech_questions s) = 5 ->
  let o := process_user_input w user_input s in
  current_stage (store o) = "farewell"
  /\ result o = inr (closing_message (candidate_info s))
  /\ count_saves (events o) = 1.
Proof.
  intros Hc Hs Hq Hl. cbv zeta.
  destruct (process_user_input_cases w user_input s) as
    [[He Ho] | [(He & _ & _ & Ho) | (He & _ & request & Ho)]].
  - apply Hc in He. rewrite Hs in He. discriminate.
  - rewrite Ho. change (events (MkOutcome ?a ?b ?c)) with b.
    change (store (MkOutcome ?a ?b ?c)) with a.
    change (result (MkOutcome ?a ?b ?c)) with c.
    split; [reflexivity|]. split; [reflexivity|].
    unfold count_saves. cbn [filter List.length]. f_equal.
    apply save_conversation_no_saves.
  - cbv zeta in Ho. rewrite Ho. clear Ho.
    rewrite extract_outside_stages by (rewrite Hs; reflexivity).
    rewrite handle_stage_transitions_last_question.
    + cbn [store events result].
      split; [reflexivity|]. split; [reflexivity|].
      unfold count_saves. cbn [filter List.length]. f_equal.
      apply save_conversation_no_saves.
    + exact Hs.
    + destruct s as [ms info stage qs qi ended]. proj_simpl.
      cbn [question_index tech_questions] in Hq, Hl. rewrite Hq, Hl. reflexivity.
Qed.






(** The same happens in a session that has reached the question about the
    experience: the answer leaves the store as it was, whatever number of
    years it holds. *)
Example experience_answer_in_a_session :
  let s := final [(offline_world, "Jane Roe, jane@roe.org, 555-123-4567, data analyst");
                  (offline_world, "ok"); (offline_world, "ok"); (offline_world, "ok")]
                 initial_state in
  current_stage s = "collecting_experience"
  /\ experience (candidate_info s) = None
  /\ store (process_user_input offline_world "I have 4 years of experience" s) = s.
Proof. cbv zeta. repeat split; vm_compute; reflexivity. Qed.

(** ** Text facts *)

Lemma prefix_lower needle : forall hay,
  String.prefix needle hay = true -> String.prefix (lower needle) (lower hay) = true.
Proof.
  induction needle as [|a needle IH]; intros hay H; [destruct hay; reflexivity|].
  destruct hay as [|b hay]; simpl in *; [discriminate|].
  destruct (ascii_dec a b) as [->|]; [|discriminate].
  destruct (ascii_dec (lower_char b) (lower_char b)) as [_|N]; [|contradiction].
  apply IH, H.
Qed.

Lemma contains_lower needle : forall hay,
  contains needle hay = true -> contains (lower needle) (lower hay) = true.
Proof.
  induction hay as [|b hay IH]; intros H.
  - destruct needle; [reflexivity|discriminate].
  - cbn [contains] in H. apply orb_true_iff in H. destruct H as [H|H].
    + change (lower (String b hay)) with (String (lower_char b) (lower hay)).
      cbn [contains]. apply orb_true_iff. left.
      apply (prefix_lower needle (String b hay)), H.
    + change (lower (String b hay)) with (String (lower_char b) (lower hay)).
      cbn [contains]. apply orb_true_iff. right. apply IH, H.
Qed.

(** ** The fallback questions *)

(** C8.  On the fallback path (no API key, or the client raised) a stack
    that contains both "python" and "react" gets the five Python questions
    followed by the five React questions, cut to the first five. *)
Theorem fallback_python_react_questions (w : World) (stack : string) (n : nat) :
  truthy (api_key w) = false
  \/ chat_completion w [MkMessage "system" (LLM.generation_prompt stack n)] = None ->
  contains "python" stack = true ->
  contains "react" stack = true ->
  LLM.generate_technical_questions w stack n
  = firstn 5 (LLM.python_questions ++ LLM.react_questions)%list.
Proof.
  intros Hfall Hpy _.
  assert (Hmock : LLM.get_mock_technical_questions stack
                  = firstn 5 (LLM.python_questions ++ LLM.react_questions)%list).
  { unfold LLM.get_mock_technical_questions. cbv zeta.
    unfold LLM.tech_questions_table. cbn [LLM.matching_questions].
    pose proof (contains_lower "python" stack Hpy) as Hlow.
    change (lower "python") with "python" in Hlow.
    rewrite Hlow. reflexivity. }
  unfold LLM.generate_technical_questions.
  destruct stack as [|c stack]; [discriminate|].
  cbn [LLM.nonempty negb].
  destruct Hfall as [Hk|Hc].
  - rewrite Hk. exact Hmock.
  - rewrite Hc. destruct (negb (truthy (api_key w))); exact Hmock.
Qed.

(** ** The validators and the recorder *)

(** C9.  Whatever ends the body of [save_conversation] with an exception
    (a validation failure of the email or of the phone, a refusal of the
    file system), the function returns [False]; and [end_conversation]
    returns the closing message of the profile in every world, whether the
    save succeeds or not. *)
Theorem save_failures_are_swallowed (w : World) (info : CandidateInfo)
    (msgs qs : list string) :
  (forall e, snd (save_body w info msgs qs) = inl e ->
             snd (save_conversation w info msgs qs) = false)
  /\ (forall e, validate_email (email info) = inl e ->
                snd (save_conversation w info msgs qs) = false)
  /\ (forall e, validate_phone (phone info) = inl e ->
                snd (save_conversation w info msgs qs) = false)
  /\ (makedirs_ok w "data" = false -> snd (save_conversation w info msgs qs) = false)
  /\ ((forall path text, write_ok w path text = false) ->
      snd (save_conversation w info msgs qs) = false)
  /\ (forall w' s, candidate_info s = info ->
        result (end_conversation w s) = inr (closing_message info)
        /\ result (end_conversation w' s) = result (end_conversation w s)).
Proof.
  assert (Hval : forall e, make_ConversationRecord (now_stamp w) info msgs qs = inl e ->
                           snd (save_conversation w info msgs qs) = false).
  { intros e He. unfold save_conversation, save_body. rewrite He.
    destruct (negb (makedirs_ok w "data")); reflexivity. }
  split; [|split; [|split; [|split; [|split]]]].
  - intros e He. unfold save_conversation.
    destruct (save_body w info msgs qs) as [evs [e'|b]]; [reflexivity|discriminate].
  - intros e He. unfold make_ConversationRecord, make_CandidateInfo in Hval.
    rewrite He in Hval. cbn [errors_of app] in Hval. eapply Hval. reflexivity.
  - intros e He. unfold make_ConversationRecord, make_CandidateInfo in Hval.
    rewrite He in Hval. cbn [errors_of] in Hval.
    destruct (errors_of (validate_email (email info))); cbn [app] in Hval;
      eapply Hval; reflexivity.
  - intros Hm. unfold save_conversation, save_body. rewrite Hm. reflexivity.
  - intros Hw. unfold save_conversation, save_body.
    destruct (negb (makedirs_ok w "data")); [reflexivity|].
    destruct (make_ConversationRecord (now_stamp w) info msgs qs); [reflexivity|].
    destruct (name info); [|reflexivity].
    rewrite Hw. reflexivity.
  - intros w' s Hs. rewrite !end_conversation_eq. subst info. split; reflexivity.
Qed.

(** C10.  When the profile has no name, [save_conversation] returns
    [False] and writes no file: the file name is built from the name,
    which raises, and the handler swallows the exception. *)
Theorem nameless_session_is_not_recorded (w : World) (info : CandidateInfo)
    (msgs qs : list string) :
  name info = None ->
  snd (save_conversation w info msgs qs) = false
  /\ filter is_write (fst (save_conversation w info msgs qs)) = []
  /\ exists e, snd (save_body w info msgs qs) = inl e.
Proof.
  intros Hn. unfold save_conversation, save_body. rewrite Hn.
  destruct (negb (makedirs_ok w "data")).
  - repeat split. eexists; reflexivity.
  - destruct (make_ConversationRecord (now_stamp w) info msgs qs).
    + repeat split. eexists; reflexivity.
    + repeat split. eexists; reflexivity.
Qed.

(** ** The matcher against the declarative reading of a pattern *)

Section TextAppend.

Lemma append_nil_r s : s ++ "" = s.
Proof. induction s as [|c s IH]; simpl; [reflexivity|]. rewrite IH. reflexivity. Qed.

Lemma append_assoc a b c : (a ++ b) ++ c = a ++ (b ++ c).
Proof. induction a as [|x a IH]; simpl; [reflexivity|]. rewrite IH. reflexivity. Qed.

Lemma length_append a b : String.length (a ++ b) = String.length a + String.length b.
Proof. induction a as [|x a IH]; simpl; [reflexivity|]. rewrite IH. reflexivity. Qed.

Lemma take_drop k : forall s, take k s ++ drop k s = s.
Proof.
  induction k as [|k IH]; intros [|c s]; simpl; try reflexivity.
  rewrite IH. reflexivity.
Qed.

Lemma take_append w s : take (String.length w) (w ++ s) = w.
Proof.
  induction w as [|c w IH]; simpl.
  - destruct s; reflexivity.
  - rewrite IH. reflexivity.
Qed.

Lemma drop_append w s : drop (String.length w) (w ++ s) = s.
Proof.
  induction w as [|c w IH]; simpl.
  - destruct s; reflexivity.
  - exact IH.
Qed.

Lemma take_length k : forall s, k <= String.length s -> String.length (take k s) = k.
Proof.
  induction k as [|k IH]; intros [|c s] H; simpl in *; try reflexivity; try lia.
  rewrite IH by lia. reflexivity.
Qed.

Lemma run_le_length cls s : run_length cls s <= String.length s.
Proof.
  induction s as [|c s IH]; simpl; [lia|]. destruct (cls c); lia.
Qed.

Lemma take_in_class cls k : forall s,
  k <= run_length cls s -> any_char (fun c => negb (cls c)) (take k s) = false.
Proof.
  induction k as [|k IH]; intros [|c s] H; simpl in *; try reflexivity; try lia.
  destruct (cls c); simpl; [apply IH; lia | lia].
Qed.

Lemma run_append cls w s :
  any_char (fun c => negb (cls c)) w = false -> String.length w <= run_length cls (w ++ s).
Proof.
  induction w as [|c w IH]; simpl; intros H; [lia|].
  apply orb_false_iff in H. destruct H as [Hc Hw].
  apply negb_false_iff in Hc. rewrite Hc. specialize (IH Hw). lia.
Qed.

Lemma capped_le hi n : capped hi n <= n.
Proof. destruct hi; simpl; lia. Qed.

Lemma capped_bound hi n h : hi = Some h -> capped hi n <= h.
Proof. intros ->. simpl. lia. Qed.

Lemma le_capped hi n k :
  k <= n -> (forall h, hi = Some h -> k <= h) -> k <= capped hi n.
Proof.
  intros Hn Hh. destruct hi as [h|]; simpl; [|exact Hn].
  specialize (Hh h eq_refl). lia.
Qed.

Lemma contains_char_intro c a b : contains (String c "") (a ++ String c b) = true.
Proof.
  induction a as [|x a IH]; simpl.
  - destruct (ascii_dec c c) as [_|N]; [|contradiction].
    destruct b; reflexivity.
  - rewrite IH. apply orb_true_r.
Qed.

End TextAppend.

Section Matcher.

Lemma give_back_sound go_on s n ps rest :
  give_back go_on s n = Some (ps, rest) ->
  exists k ps', k <= n /\ go_on k = Some (ps', rest) /\ ps = take k s :: ps'.
Proof.
  induction n as [|n IH]; simpl; intros H.
  - destruct (go_on 0) as [[ps' r]|] eqn:E; [|discriminate].
    injection H as <- <-. exists 0, ps'. auto.
  - destruct (go_on (S n)) as [[ps' r]|] eqn:E.
    + injection H as <- <-. exists (S n), ps'. auto.
    + destruct (IH H) as (k & ps' & Hk & Hgo & Hps).
      exists k, ps'. auto.
Qed.

Lemma give_back_complete go_on s n k x :
  k <= n -> go_on k = Some x -> exists y, give_back go_on s n = Some y.
Proof.
  induction n as [|n IH]; intros Hk Hgo.
  - assert (k = 0) as -> by lia. simpl. rewrite Hgo. destruct x. eauto.
  - simpl. destruct (go_on (S n)) as [[ps' r]|] eqn:E; [eauto|].
    apply IH; [|exact Hgo].
    destruct (Nat.eq_dec k (S n)) as [->|]; [congruence|lia].
Qed.

Lemma match_atoms_sound p : forall prev s ps rest,
  match_atoms p prev s = Some (ps, rest) -> atoms_match p prev s ps rest.
Proof.
  induction p as [|a p IH]; intros prev s ps rest H.
  - simpl in H. injection H as <- <-. constructor.
  - destruct a as [cls lo hi|].
    + simpl in H. apply give_back_sound in H.
      destruct H as (k & ps' & Hk & Hgo & ->).
      destruct (Nat.leb_spec lo k) as [Hlo|]; [|discriminate].
      apply IH in Hgo.
      assert (Hrun : k <= run_length cls s).
      { pose proof (capped_le hi (run_length cls s)). lia. }
      pose proof (run_le_length cls s) as Hlen.
      pose proof (AM_rep cls lo hi p prev (take k s) (drop k s) ps' rest) as Hm.
      rewrite take_drop in Hm. apply Hm.
      * apply take_in_class, Hrun.
      * rewrite take_length by lia. exact Hlo.
      * intros h Hh. rewrite take_length by lia.
        pose proof (capped_bound hi (run_length cls s) h Hh). lia.
      * exact Hgo.
    + simpl in H. destruct (boundary prev s) eqn:B; [|discriminate].
      destruct (match_atoms p prev s) as [[ps' r]|] eqn:E; [|discriminate].
      injection H as <- <-. constructor; [exact B|].
      apply IH, E.
Qed.

Lemma match_atoms_complete p prev s ps rest :
  atoms_match p prev s ps rest ->
  exists ps' rest', match_atoms p prev s = Some (ps', rest').
Proof.
  induction 1 as [prev s | p prev s ps rest B _ IH
                  | cls lo hi p prev w s ps rest Hc Hlo Hhi _ IH].
  - simpl. eauto.
  - destruct IH as (ps' & rest' & E). simpl. rewrite B, E. eauto.
  - destruct IH as (ps' & rest' & E). simpl.
    match goal with
    | |- context [give_back ?g ?t ?n] =>
        destruct (give_back_complete g t n (String.length w) (ps', rest'))
          as [[ps2 r2] Hy]
    end.
    + apply le_capped; [apply run_append, Hc | exact Hhi].
    + cbv beta. rewrite (proj2 (Nat.leb_le _ _) Hlo).
      rewrite take_append, drop_append. exact E.
    + eauto.
Qed.

Lemma atoms_match_whole p prev s ps rest :
  atoms_match p prev s ps rest -> s = whole ps ++ rest.
Proof.
  induction 1 as [prev s | p prev s ps rest B _ IH
                  | cls lo hi p prev w s ps rest Hc Hlo Hhi _ IH].
  - reflexivity.
  - exact IH.
  - unfold whole in *. cbn [fold_right]. rewrite append_assoc, <- IH. reflexivity.
Qed.

Lemma search_sound p : forall s prev pre ps rest,
  search p prev s = Some (pre, ps, rest) ->
  s = pre ++ whole ps ++ rest
  /\ atoms_match p (last_char prev pre) (whole ps ++ rest) ps rest.
Proof.
  induction s as [|a s IH]; intros prev pre ps rest H; cbn [search] in H;
    destruct (match_atoms p prev _) as [[ps' r]|] eqn:E.
  - injection H as <- <- <-. apply match_atoms_sound in E.
    pose proof (atoms_match_whole _ _ _ _ _ E) as Hw. cbn [append last_char].
    rewrite <- Hw. split; [reflexivity | exact E].
  - discriminate.
  - injection H as <- <- <-. apply match_atoms_sound in E.
    pose proof (atoms_match_whole _ _ _ _ _ E) as Hw. cbn [append last_char].
    rewrite <- Hw. split; [reflexivity | exact E].
  - destruct (search p (Some a) s) as [[[pre' ps2] r2]|] eqn:E2; [|discriminate].
    injection H as <- <- <-. destruct (IH _ _ _ _ E2) as [Hs Hm].
    cbn [append last_char]. split; [rewrite <- Hs; reflexivity | exact Hm].
Qed.

Lemma search_leftmost p : forall s prev pre ps rest,
  search p prev s = Some (pre, ps, rest) ->
  forall pre' m' post' ps',
    s = pre' ++ m' ++ post' ->
    atoms_match p (last_char prev pre') (m' ++ post') ps' post' ->
    String.length pre <= String.length pre'.
Proof.
  induction s as [|a s IH]; intros prev pre ps rest H pre' m' post' ps' Hs Hm;
    cbn [search] in H; destruct (match_atoms p prev _) as [[ps0 r]|] eqn:E.
  - injection H as <- <- <-. simpl. lia.
  - discriminate.
  - injection H as <- <- <-. simpl. lia.
  - destruct (search p (Some a) s) as [[[pre0 ps2] r2]|] eqn:E2; [|discriminate].
    injection H as <- <- <-.
    destruct pre' as [|c pre'].
    + exfalso. cbn [append last_char] in Hs, Hm. rewrite <- Hs in Hm.
      destruct (match_atoms_complete _ _ _ _ _ Hm) as (x & y & Hx). congruence.
    + cbn [append] in Hs. injection Hs as <- Hs.
      cbn [last_char] in Hm. simpl.
      pose proof (IH _ _ _ _ E2 _ _ _ _ Hs Hm). lia.
Qed.

Lemma search_complete p : forall pre s prev m post ps,
  s = pre ++ m ++ post ->
  atoms_match p (last_char prev pre) (m ++ post) ps post ->
  exists r, search p prev s = Some r.
Proof.
  induction pre as [|c pre IH]; intros s prev m post ps Hs Hm.
  - cbn [append last_char] in Hs, Hm. rewrite <- Hs in Hm.
    destruct (match_atoms_complete _ _ _ _ _ Hm) as (x & y & Hx).
    destruct s; cbn [search]; rewrite Hx; eauto.
  - cbn [append] in Hs. subst s. cbn [search].
    destruct (match_atoms p prev _) as [[ps0 r]|]; [eauto|].
    cbn [last_char] in Hm.
    destruct (IH _ (Some c) m post ps eq_refl Hm) as [[[pre0 ps2] r2] Hr].
    rewrite Hr. eauto.
Qed.

Lemma findall_scan_head r : forall s prev,
  hd_error (findall_scan r 0 prev s)
  = match search (atoms r) prev s with
    | Some (_, ps, _) => Some (reported r ps)
    | None => None
    end.
Proof.
  induction s as [|a s IH]; intros prev; cbn [findall_scan search];
    destruct (match_atoms (atoms r) prev _) as [[ps rest]|]; try reflexivity.
  rewrite IH. destruct (search (atoms r) (Some a) s) as [[[pre ps] rest]|]; reflexivity.
Qed.

End Matcher.

(** ** The email field *)

Lemma lit_piece a w :
  any_char (fun c => negb (Ascii.eqb a c)) w = false ->
  1 <= String.length w -> String.length w <= 1 ->
  w = String a "".
Proof.
  destruct w as [|c [|d w]]; simpl; intros Hc H1 H2; try lia.
  rewrite orb_false_r in Hc. apply negb_false_iff, Ascii.eqb_eq in Hc.
  subst. reflexivity.
Qed.

Lemma email_match_pieces prev s ps rest :
  atoms_match (atoms email_pattern) prev s ps rest ->
  exists l d t, ps = [""; l; "@"; d; "."; t; ""].
Proof.
  unfold email_pattern, atoms, Lit, Plus. intros H.
  repeat match goal with
  | H : atoms_match (_ :: _) _ _ _ _ |- _ => inversion H; subst; clear H
  | H : atoms_match [] _ _ _ _ |- _ => inversion H; subst; clear H
  end.
  repeat match goal with
  | H : any_char (fun c => negb (Ascii.eqb ?a c)) ?w = false,
    H1 : 1 <= String.length ?w,
    H2 : forall h, Some 1 = Some h -> String.length ?w <= h |- _ =>
      pose proof (lit_piece a w H H1 (H2 1 eq_refl)); subst w; clear H H1 H2
  end.
  eauto.
Qed.

Lemma email_occurrence_marks user_input pre m post :
  occurs (atoms email_pattern) user_input pre m post ->
  contains "@" user_input = true /\ contains "." user_input = true.
Proof.
  intros [Hs (ps & Hm & Hw)].
  destruct (email_match_pieces _ _ _ _ Hm) as (l & d & t & ->).
  subst user_input. subst m. unfold whole. cbn [fold_right].
  repeat (rewrite ?append_assoc; cbn [append]).
  split.
  - rewrite <- (append_assoc pre l). apply contains_char_intro.
  - replace (pre ++ l ++ String "@" (d ++ String "." (t ++ post)))
      with ((pre ++ l ++ String "@" d) ++ String "." (t ++ post))
      by (repeat (rewrite ?append_assoc; cbn [append]); reflexivity).
    apply contains_char_intro.
Qed.

Lemma search_occurs p user_input pre ps post :
  search p None user_input = Some (pre, ps, post) ->
  occurs p user_input pre (whole ps) post.
Proof.
  intros H. destruct (search_sound _ _ _ _ _ _ H) as [Hs Hm].
  split; [exact Hs|]. exists ps. split; [exact Hm | reflexivity].
Qed.

Lemma extract_email_found user_input info pre ps post :
  truthy (email info) = false ->
  search (atoms email_pattern) None user_input = Some (pre, ps, post) ->
  extract_email user_input info = set_email (whole ps) info.
Proof.
  intros Hu Hs. unfold extract_email.
  destruct (email_occurrence_marks _ _ _ _ (search_occurs _ _ _ _ _ Hs)) as [Hat Hdot].
  rewrite Hu, Hat, Hdot. cbn [negb andb].
  pose proof (findall_scan_head email_pattern user_input None) as Hh.
  rewrite Hs in Hh. unfold findall.
  destruct (findall_scan email_pattern 0 None user_input) as [|m ms]; [discriminate|].
  injection Hh as ->. reflexivity.
Qed.

Lemma extract_email_kept user_input info :
  truthy (email info) = true -> extract_email user_input info = info.
Proof. intros H. unfold extract_email. rewrite H. reflexivity. Qed.

Lemma extract_email_field user_input info stage :
  in_list stage extraction_stages = true ->
  email (extract_candidate_info user_input info stage)
  = email (extract_email user_input (extract_name user_input stage info)).
Proof.
  intros Hst. unfold extract_candidate_info. rewrite Hst. cbn [negb]. cbv zeta.
  rewrite (proj1 (proj2 (extract_tech_stack_others _ _ _))).
  rewrite (proj1 (proj2 (extract_position_others _ _))).
  rewrite (proj1 (proj2 (extract_experience_others _ _))).
  rewrite (proj1 (proj2 (extract_phone_others _ _))).
  reflexivity.
Qed.

(** ** Further facts about the model *)

(** No pattern of the program matches the empty text, so the scan of
    [findall] always moves on by the length of the match. *)
Lemma atoms_match_min_length p prev s ps rest :
  atoms_match p prev s ps rest -> min_length p <= String.length (whole ps).
Proof.
  induction 1 as [prev s | p prev s ps rest B _ IH
                  | cls lo hi p prev w s ps rest Hc Hlo Hhi _ IH].
  - simpl. lia.
  - exact IH.
  - unfold whole in *. cbn [fold_right min_length]. rewrite length_append. lia.
Qed.

Lemma program_patterns_consume :
  Forall (fun r => 1 <= min_length (atoms r))
         (email_pattern :: phone_pattern :: exp_patterns).
Proof. repeat constructor; simpl; lia. Qed.

(** The branch of [handle_stage_transitions] written for the experience
    question: once the experience is in the profile, the stage moves on and
    a back-end position gets the back-end examples. *)
Lemma experience_transition_when_set w resp user_input s :
  current_stage s = "collecting_experience" ->
  experience (candidate_info s) = Some "4 years" ->
  position (candidate_info s) = Some "Backend Developer" ->
  let o := handle_stage_transitions w resp user_input s in
  current_stage (store o) = "collecting_tech_stack"
  /\ exists reply,
       result o = inr reply
       /\ contains "Node.js, Python, Java, PHP, Ruby, databases" reply = true.
Proof.
  destruct s as [ms info stage qs qi ended]. proj_simpl. intros Hs He Hp.
  unfold handle_stage_transitions. monad_unfold.
  split_ifs; stage_facts; try discriminate.
  - rewrite Hp. proj_simpl. split; [reflexivity|].
    eexists. split; [reflexivity|]. vm_compute. reflexivity.
  - rewrite Hs, He in *. discriminate.
Qed.

Example experience_pattern_reads_the_answer :
  first_experience exp_patterns (lower "I have 4 years of experience") = Some "4 years".
Proof. vm_compute. reflexivity. Qed.

(** A first message that holds everything carries the session, call after
    call, to the question about the stack, where it stays. *)
Example session_reaches_the_stack_question :
  map (fun o => current_stage (store o))
      (run [(offline_world, "Jane Roe jane@roe.org 555-123-4567 6 years data analyst");
            (offline_world, "ok"); (offline_world, "ok"); (offline_world, "ok");
            (offline_world, "ok"); (offline_world, "python, django and sql");
            (offline_world, "python, django and sql")]
           initial_state)
  = ["collecting_email"; "collecting_phone"; "collecting_position";
     "collecting_experience"; "collecting_tech_stack"; "collecting_tech_stack";
     "collecting_tech_stack"].
Proof. vm_compute. reflexivity. Qed.

Example greeting_hey_is_a_dead_end :
  map (fun o => current_stage (store o))
      (run [(offline_world, "hey"); (offline_world, "Jane Roe");
            (offline_world, "jane@roe.org")] initial_state)
  = ["collecting_name"; "collecting_name"; "collecting_name"].
Proof. vm_compute. reflexivity. Qed.

Example findall_email_examples :
  findall email_pattern "mail john.doe@example.com, or x@y.org"
  = ["john.doe@example.com"; "x@y.org"]
  /\ findall email_pattern "a@b.cd1" = []
  /\ findall email_pattern "a@b.c|d" = ["a@b.c|d"]
  /\ findall phone_pattern "call +1 (555) 123-4567 now" = ["(555) 123-4567"].
Proof. repeat split; vm_compute; reflexivity. Qed.

(** The script body keeps the session among the reachable stores. *)
Lemma reachable_send w user_input s :
  reachable s -> reachable (store (send w user_input s)).
Proof.
  intros Hr. unfold send. monad_unfold.
  match goal with
  | |- context [process_user_input w user_input ?x] => set (s1 := x)
  end.
  assert (Hr1 : reachable s1) by (apply reach_transcript, Hr).
  pose proof (reach_call s1 w user_input Hr1) as Hr2.
  destruct (process_user_input w user_input s1) as [s2 evs2 [e|a]];
    cbn [store] in *.
  - destruct s; exact Hr2.
  - apply reach_transcript. exact Hr2.
Qed.

(** No call raises in a reachable store: the only [raise] a session could
    meet needs a stage that comes after an unset position. *)
Lemma handle_stage_transitions_returns w resp user_input s :
  (current_stage s = "collecting_experience" ->
   truthy (position (candidate_info s)) = true) ->
  current_stage s <> "tech_stack_confirmation" ->
  current_stage s <> "technical_questions" ->
  exists reply, result (handle_stage_transitions w resp user_input s) = inr reply.
Proof.
  destruct s as [ms info stage qs qi ended]. proj_simpl. intros Hp H1 H2.
  unfold handle_stage_transitions. monad_unfold.
  split_ifs; stage_facts; try contradiction; proj_simpl; eauto.
  specialize (Hp eq_refl). destruct (position info); [eauto|discriminate].
Qed.

Lemma reachable_positioned s :
  reachable s ->
  current_stage s = "collecting_experience" ->
  truthy (position (candidate_info s)) = true.
Proof.
  induction 1 as [|s w user_input Hr IH|s msgs Hr IH].
  - discriminate.
  - destruct (process_user_input_moved w user_input s) as
      (_ & [Heq | [(He & Hi & Hs & He') | (He & Hi & Hmv)]]).
    + rewrite Heq. exact IH.
    + rewrite Hs. discriminate.
    + intros Hx. destruct Hmv as [[Hs Hd] | [[Hf Hd] | [Hs Hd]]]; setters_in_all.
      * rewrite Hx in Hs. symmetry in Hs. rewrite Hi.
        rewrite extract_outside_stages by (rewrite Hs; reflexivity).
        apply IH, Hs.
      * apply forward_cases in Hf. rewrite Hx in Hf.
        repeat (destruct Hf as [Hf|Hf]);
          repeat match goal with H : _ /\ _ |- _ => destruct H end;
          try discriminate; assumption.
      * rewrite Hs in Hx. discriminate.
  - destruct s; exact IH.
Qed.

(** Every call of [process_user_input] in a reachable store returns a
    reply. *)
Lemma process_user_input_returns w user_input s :
  reachable s -> exists reply, result (process_user_input w user_input s) = inr reply.
Proof.
  intros Hr.
  destruct (reachable_early s Hr) as [Hin _].
  destruct (process_user_input_cases w user_input s) as
    [[He Ho] | [(He & _ & _ & Ho) | (He & _ & request & Ho)]];
    cbv zeta in Ho; rewrite Ho; cbn [result]; eauto.
  apply handle_stage_transitions_returns; cbn [current_stage set_candidate_info candidate_info].
  - intros Hx. rewrite extract_outside_stages by (rewrite Hx; reflexivity).
    apply reachable_positioned; assumption.
  - intros Hx. rewrite Hx in Hin. unfold before_confirmation in Hin. simpl in Hin.
    repeat (destruct Hin as [Hin|Hin]); try discriminate; contradiction.
  - intros Hx. rewrite Hx in Hin. unfold before_confirmation in Hin. simpl in Hin.
    repeat (destruct Hin as [Hin|Hin]); try discriminate; contradiction.
Qed.

(** ** The theorems at concrete inputs *)

Lemma stage_never_moves_back_witness :
  well_formed ended_state
  /\ current_stage ended_state = "farewell"
  /\ (forall turns,
        stage_le (current_stage ended_state) (current_stage (final turns ended_state)))
  /\ (forall turns,
        Forall (fun o => current_stage (store o) = "farewell"
                         /\ result o = inr ended_notice)
               (run turns ended_state)).
Proof.
  assert (Hw : well_formed ended_state).
  { split.
    - split; intros _; vm_compute; reflexivity.
    - vm_compute. tauto. }
  assert (Hf : current_stage ended_state = "farewell") by (vm_compute; reflexivity).
  split; [exact Hw|]. split; [exact Hf|].
  split.
  - exact (proj1 (stage_never_moves_back ended_state Hw)).
  - exact (proj2 (stage_never_moves_back ended_state Hw) Hf).
Defined.

Lemma tech_stack_extraction_unreachable_witness :
  reachable initial_state
  /\ tech_stack (candidate_info initial_state) = None
  /\ current_stage initial_state <> "tech_stack_confirmation"
  /\ current_stage
       (store (process_user_input offline_world "I know python, react and sql"
                                  initial_state))
     <> "tech_stack_confirmation".
Proof.
  pose proof (proj2 (proj2 tech_stack_extraction_unreachable) initial_state reach_init)
    as (H1 & _ & H3 & H4).
  split; [exact reach_init|]. split; [exact H1|]. split; [exact H3|].
  exact (proj2 (H4 offline_world "I know python, react and sql")).
Defined.


Lemma exit_keyword_ends_conversation_witness :
  consistent initial_state
  /\ current_stage initial_state <> "farewell"
  /\ In "quit" exit_keywords
  /\ contains "quit" (lower "I QUIT, sorry") = true
  /\ current_stage (store (process_user_input offline_world "I QUIT, sorry" initial_state))
     = "farewell"
  /\ filter is_model_or_extract
       (events (process_user_input offline_world "I QUIT, sorry" initial_state)) = [].
Proof.
  assert (Hc : consistent initial_state) by (split; discriminate).
  assert (Hn : current_stage initial_state <> "farewell") by discriminate.
  assert (Hi : In "quit" exit_keywords) by (simpl; tauto).
  assert (Hk : contains "quit" (lower "I QUIT, sorry") = true) by reflexivity.
  pose proof (exit_keyword_ends_conversation offline_world "I QUIT, sorry" "quit"
                initial_state Hc Hn Hi Hk) as (H1 & _ & H3 & _).
  repeat (split; [assumption|]). exact H3.
Defined.

Lemma last_answer_ends_conversation_witness :
  consistent last_question_scenario
  /\ current_stage last_question_scenario = "technical_questions"
  /\ question_index last_question_scenario = 4
  /\ List.length (tech_questions last_question_scenario) = 5
  /\ current_stage
       (store (process_user_input offline_world "It uses reference counting."
                                  last_question_scenario)) = "farewell"
  /\ count_saves
       (events (process_user_input offline_world "It uses reference counting."
                                   last_question_scenario)) = 1.
Proof.
  assert (Hc : consistent last_question_scenario) by (split; discriminate).
  pose proof (last_answer_ends_conversation offline_world "It uses reference counting."
                last_question_scenario Hc eq_refl eq_refl eq_refl) as (H1 & _ & H3).
  split; [exact Hc|]. do 3 (split; [reflexivity|]). split; [exact H1 | exact H3].
Defined.

Lemma fallback_python_react_questions_witness :
  truthy (api_key offline_world) = false
  /\ contains "python" "python, django and react" = true
  /\ contains "react" "python, django and react" = true
  /\ LLM.generate_technical_questions offline_world "python, django and react" 5
     = firstn 5 (LLM.python_questions ++ LLM.react_questions)%list.
Proof.
  split; [reflexivity|]. split; [reflexivity|]. split; [reflexivity|].
  exact (fallback_python_react_questions offline_world "python, django and react" 5
           (or_introl eq_refl) eq_refl eq_refl).
Defined.

Lemma save_failures_are_swallowed_witness :
  validate_email (Some "not an email") = inl (ValueError "Invalid email format")
  /\ snd (save_conversation offline_world (set_email "not an email" initial_info) [] [])
     = false
  /\ result (end_conversation offline_world
               (set_candidate_info (set_email "not an email" initial_info) initial_state))
     = inr (closing_message (set_email "not an email" initial_info)).
Proof.
  pose proof (save_failures_are_swallowed offline_world
                (set_email "not an email" initial_info) [] [])
    as (_ & H2 & _ & _ & _ & H6).
  split; [reflexivity|]. split.
  - exact (H2 _ eq_refl).
  - exact (proj1 (H6 offline_world
                     (set_candidate_info (set_email "not an email" initial_info)
                                         initial_state) eq_refl)).
Defined.

Lemma nameless_session_is_not_recorded_witness :
  name initial_info = None
  /\ snd (save_conversation offline_world initial_info [] []) = false
  /\ filter is_write (fst (save_conversation offline_world initial_info [] [])) = [].
Proof.
  pose proof (nameless_session_is_not_recorded offline_world initial_info [] [] eq_refl)
    as (H1 & H2 & _).
  split; [reflexivity|]. split; [exact H1 | exact H2].
Defined.

(** * Further properties of the code *)

(** ** The prompts *)

Lemma prefix_append a b : String.prefix a (a ++ b) = true.
Proof.
  induction a as [|c a IH]; simpl.
  - destruct b; reflexivity.
  - destruct (ascii_dec c c) as [_|N]; [exact IH | contradiction].
Qed.

(** X1.  Whatever the stage, the system prompt begins with the base prompt;
    and in each of the six stages in which the program asks for one field
    the prompt is the base prompt alone, since the table has no entry for
    them. *)
Theorem system_prompt_has_the_base (stage : string) :
  String.prefix PromptEngineering.BASE_SYSTEM_PROMPT
                (PromptEngineering.get_system_prompt stage) = true
  /\ (In stage collecting_stages ->
      PromptEngineering.get_system_prompt stage = PromptEngineering.BASE_SYSTEM_PROMPT).
Proof.
  split.
  - unfold PromptEngineering.get_system_prompt, PromptEngineering.prompts.
    cbn [PromptEngineering.get_default].
    repeat match goal with
    | |- context [if ?c then _ else _] => destruct c
    end;
      try apply prefix_append.
    rewrite <- (append_nil_r PromptEngineering.BASE_SYSTEM_PROMPT) at 2.
    apply prefix_append.
  - unfold collecting_stages. simpl.
    intros H; repeat (destruct H as [H|H]); try contradiction; subst; reflexivity.
Qed.

Lemma system_prompt_has_the_base_witness :
  In "collecting_experience" collecting_stages
  /\ PromptEngineering.get_system_prompt "collecting_experience"
     = PromptEngineering.BASE_SYSTEM_PROMPT.
Proof.
  assert (H : In "collecting_experience" collecting_stages) by (simpl; tauto).
  split; [exact H|].
  exact (proj2 (system_prompt_has_the_base "collecting_experience") H).
Defined.

(** X2.  The helper [get_tech_questions_prompt] builds, for every stack
    and every count, exactly the prompt that [generate_technical_questions]
    writes out for the model. *)
Theorem tech_questions_prompt_agrees (stack : string) (n : nat) :
  PromptEngineering.get_tech_questions_prompt stack n = LLM.generation_prompt stack n.
Proof.
  unfold PromptEngineering.get_tech_questions_prompt,
    PromptEngineering.TECHNICAL_QUESTIONS_GENERATION_PROMPT, LLM.generation_prompt.
  cbv zeta. repeat rewrite append_assoc. reflexivity.
Qed.

(** ** The generated questions *)

Lemma matching_questions_length table stack :
  Forall (fun entry => List.length (snd entry) = 5) table ->
  LLM.matching_questions table stack = []
  \/ 5 <= List.length (LLM.matching_questions table stack).
Proof.
  induction 1 as [|[tech qs] table Hq _ IH]; cbn [LLM.matching_questions].
  - left. reflexivity.
  - destruct (contains tech stack); [|exact IH].
    right. rewrite length_app. cbn [snd] in Hq. lia.
Qed.

Lemma tech_questions_table_fives :
  Forall (fun entry => List.length (snd entry) = 5) LLM.tech_questions_table.
Proof. repeat constructor. Qed.

Lemma mock_questions_are_five stack :
  List.length (LLM.get_mock_technical_questions stack) = 5.
Proof.
  unfold LLM.get_mock_technical_questions. cbv zeta.
  destruct (matching_questions_length LLM.tech_questions_table (lower stack)
              tech_questions_table_fives) as [E|E].
  - rewrite E. reflexivity.
  - destruct (LLM.matching_questions LLM.tech_questions_table (lower stack))
      as [|q qs] eqn:Eq; [simpl in E; lia|].
    rewrite length_firstn. lia.
Qed.

Lemma generate_technical_questions_nonempty w stack n :
  LLM.generate_technical_questions w stack n <> [].
Proof.
  assert (Hmock : LLM.get_mock_technical_questions stack <> []).
  { intros E. pose proof (mock_questions_are_five stack) as H.
    rewrite E in H. discriminate. }
  unfold LLM.generate_technical_questions.
  destruct (negb (LLM.nonempty stack)); [discriminate|].
  destruct (negb (truthy (api_key w))); [exact Hmock|].
  destruct (chat_completion w _) as [text|]; [|exact Hmock].
  cbv zeta.
  match goal with
  | |- match ?l with _ => _ end <> [] => destruct l; discriminate
  end.
Qed.

(** X3.  [generate_technical_questions] never returns an empty list,
    whatever the stack, the count and the answer of the model; and the
    canned list of the fallback always holds exactly five questions,
    whatever count was asked for. *)
Theorem generated_questions_are_never_empty :
  (forall w stack n, LLM.generate_technical_questions w stack n <> [])
  /\ (forall stack, List.length (LLM.get_mock_technical_questions stack) = 5)
  /\ (forall w stack n,
        truthy (api_key w) = false -> stack <> "" ->
        List.length (LLM.generate_technical_questions w stack n) = 5).
Proof.
  split; [exact generate_technical_questions_nonempty|].
  split; [exact mock_questions_are_five|].
  intros w stack n Hk Hs. unfold LLM.generate_technical_questions.
  destruct stack as [|c stack]; [contradiction|].
  cbn [LLM.nonempty negb]. rewrite Hk. cbn [negb].
  apply mock_questions_are_five.
Qed.

Lemma generated_questions_are_never_empty_witness :
  truthy (api_key offline_world) = false
  /\ "cobol" <> ""
  /\ List.length (LLM.generate_technical_questions offline_world "cobol" 3) = 5.
Proof.
  assert (Hs : "cobol" <> "") by discriminate.
  split; [reflexivity|]. split; [exact Hs|].
  exact (proj2 (proj2 generated_questions_are_never_empty) offline_world "cobol" 3
               eq_refl Hs).
Defined.

(** ** What extraction leaves alone *)

Lemma extract_name_kept user_input stage info :
  truthy (name info) = true -> extract_name user_input stage info = info.
Proof.
  intros H. unfold extract_name. rewrite H. cbn [negb]. rewrite andb_false_r.
  reflexivity.
Qed.

Lemma extract_phone_kept user_input info :
  truthy (phone info) = true -> extract_phone user_input info = info.
Proof. intros H. unfold extract_phone. rewrite H. reflexivity. Qed.

Lemma extract_experience_kept user_input info :
  truthy (experience info) = true -> extract_experience user_input info = info.
Proof. intros H. unfold extract_experience. rewrite H. reflexivity. Qed.

Lemma extract_position_kept user_input info :
  truthy (position info) = true -> extract_position user_input info = info.
Proof. intros H. unfold extract_position. cbv zeta. rewrite H. reflexivity. Qed.

Lemma extract_tech_stack_kept user_input stage info :
  truthy (tech_stack info) = true -> extract_tech_stack user_input stage info = info.
Proof. intros H. unfold extract_tech_stack. rewrite H. reflexivity. Qed.

(** X4.  Extraction never touches a field that already holds a non-empty
    text, whatever the input and the stage, and it never sets the
    location. *)
Theorem extraction_keeps_what_is_set (user_input : string) (info : CandidateInfo)
    (stage : string) :
  let i := extract_candidate_info user_input info stage in
  (truthy (name info) = true -> name i = name info)
  /\ (truthy (email info) = true -> email i = email info)
  /\ (truthy (phone info) = true -> phone i = phone info)
  /\ (truthy (experience info) = true -> experience i = experience info)
  /\ (truthy (position info) = true -> position i = position info)
  /\ (truthy (tech_stack info) = true -> tech_stack i = tech_stack info)
  /\ location i = location info.
Proof.
  cbv zeta. unfold extract_candidate_info.
  destruct (negb (in_list stage extraction_stages)); [repeat split; reflexivity|].
  cbv zeta.
  set (i1 := extract_name user_input stage info).
  set (i2 := extract_email user_input i1).
  set (i3 := extract_phone user_input i2).
  set (i4 := extract_experience user_input i3).
  set (i5 := extract_position user_input i4).
  destruct (extract_name_others user_input stage info) as (N1 & N2 & N3 & N4 & N5 & N6).
  destruct (extract_email_others user_input i1) as (E1 & E2 & E3 & E4 & E5 & E6).
  destruct (extract_phone_others user_input i2) as (P1 & P2 & P3 & P4 & P5 & P6).
  destruct (extract_experience_others user_input i3) as (X1 & X2 & X3 & X4 & X5 & X6).
  destruct (extract_position_others user_input i4) as (Q1 & Q2 & Q3 & Q4 & Q5 & Q6).
  destruct (extract_tech_stack_others user_input stage i5) as (T1 & T2 & T3 & T4 & T5 & T6).
  fold i1 in N1, N2, N3, N4, N5, N6. fold i2 in E1, E2, E3, E4, E5, E6.
  fold i3 in P1, P2, P3, P4, P5, P6. fold i4 in X1, X2, X3, X4, X5, X6.
  fold i5 in Q1, Q2, Q3, Q4, Q5, Q6.
  repeat split.
  - intros H. rewrite T1, Q1, X1, P1, E1. unfold i1.
    rewrite extract_name_kept by exact H. reflexivity.
  - intros H. rewrite T2, Q2, X2, P2. unfold i2.
    rewrite extract_email_kept by (rewrite N1; exact H). exact N1.
  - intros H. rewrite T3, Q3, X3. unfold i3.
    rewrite extract_phone_kept by (rewrite E2, N2; exact H). rewrite E2. exact N2.
  - intros H. rewrite T4, Q4. unfold i4.
    rewrite extract_experience_kept by (rewrite P3, E3, N3; exact H).
    rewrite P3, E3. exact N3.
  - intros H. rewrite T5. unfold i5.
    rewrite extract_position_kept by (rewrite X4, P4, E4, N4; exact H).
    rewrite X4, P4, E4. exact N4.
  - intros H.
    rewrite extract_tech_stack_kept by (rewrite Q6, X6, P6, E6, N6; exact H).
    rewrite Q6, X6, P6, E6. exact N6.
  - rewrite T6, Q5, X5, P5, E5. exact N5.
Qed.

Lemma extraction_keeps_what_is_set_witness :
  truthy (email (set_email "jane@roe.org" initial_info)) = true
  /\ email (extract_candidate_info "no, it is j.roe@work.example"
              (set_email "jane@roe.org" initial_info) "greeting")
     = Some "jane@roe.org".
Proof.
  split; [reflexivity|].
  exact (proj1 (proj2 (extraction_keeps_what_is_set "no, it is j.roe@work.example"
                         (set_email "jane@roe.org" initial_info) "greeting"))
               eq_refl).
Defined.

(** *** Input made of white space *)

Lemma space_is_no_digit c : is_space c = true -> is_digit c = false.
Proof.
  unfold is_space, is_digit, between. intros H.
  apply orb_true_iff in H.
  destruct H as [H|H]; apply andb_true_iff in H; destruct H as [H1 H2];
    apply Nat.leb_le in H1, H2; apply andb_false_iff;
    destruct (Nat.leb_spec 48 (code c)); auto; right; apply Nat.leb_gt; lia.
Qed.

Lemma blank_any_char (p : ascii -> bool) s :
  (forall c, is_space c = true -> p c = false) ->
  all_in is_space s = true -> any_char p s = false.
Proof.
  intros Hp. unfold all_in. rewrite negb_true_iff.
  induction s as [|c s IH]; simpl; intros H; [reflexivity|].
  apply orb_false_iff in H. destruct H as [Hc Hs].
  apply negb_false_iff in Hc. rewrite (Hp c Hc). exact (IH Hs).
Qed.

Lemma blank_lstrip s : all_in is_space s = true -> lstrip s = "".
Proof.
  unfold all_in. rewrite negb_true_iff.
  induction s as [|c s IH]; simpl; intros H; [reflexivity|].
  apply orb_false_iff in H. destruct H as [Hc Hs].
  apply negb_false_iff in Hc. rewrite Hc. exact (IH Hs).
Qed.

Lemma blank_split s : all_in is_space s = true -> split s = [].
Proof.
  unfold all_in, split. rewrite negb_true_iff.
  induction s as [|c s IH]; simpl; intros H; [reflexivity|].
  apply orb_false_iff in H. destruct H as [Hc Hs].
  apply negb_false_iff in Hc. rewrite Hc. exact (IH Hs).
Qed.

Lemma blank_no_at s : all_in is_space s = true -> contains "@" s = false.
Proof.
  unfold all_in. rewrite negb_true_iff.
  induction s as [|c s IH]; intros H; [reflexivity|].
  cbn [any_char] in H. apply orb_false_iff in H. destruct H as [Hc Hs].
  apply negb_false_iff in Hc. cbn [contains String.prefix]. rewrite (IH Hs).
  destruct (ascii_dec "@" c) as [<-|]; [discriminate Hc|]. reflexivity.
Qed.

(** X5.  An input that is empty or made of white space only leaves the
    profile exactly as it was, in every stage. *)
Theorem blank_input_extracts_nothing (user_input : string) (info : CandidateInfo)
    (stage : string) :
  all_in is_space user_input = true ->
  extract_candidate_info user_input info stage = info.
Proof.
  intros Hb. unfold extract_candidate_info.
  destruct (negb (in_list stage extraction_stages)); [reflexivity|].
  cbv zeta.
  assert (Hn : extract_name user_input stage info = info).
  { unfold extract_name. unfold strip. rewrite (blank_lstrip _ Hb).
    destruct ((stage =? "greeting")%string && negb (truthy (name info))); reflexivity. }
  assert (He : extract_email user_input info = info).
  { unfold extract_email. rewrite (blank_no_at _ Hb), andb_false_r. reflexivity. }
  assert (Hd : any_char is_digit user_input = false).
  { apply blank_any_char; [exact space_is_no_digit | exact Hb]. }
  assert (Hp : extract_phone user_input info = info).
  { unfold extract_phone. rewrite Hd, andb_false_r. reflexivity. }
  assert (Hx : extract_experience user_input info = info).
  { unfold extract_experience. rewrite Hd, andb_false_r. reflexivity. }
  assert (Hq : extract_position user_input info = info).
  { unfold extract_position, strip. rewrite (blank_lstrip _ Hb). cbv zeta.
    cbn [rstrip split split_from List.length Nat.leb].
    rewrite andb_false_r. reflexivity. }
  assert (Ht : extract_tech_stack user_input stage info = info).
  { unfold extract_tech_stack. rewrite (blank_split _ Hb).
    cbn [List.length Nat.leb]. rewrite andb_false_r. reflexivity. }
  rewrite Hn, He, Hp, Hx, Hq, Ht. reflexivity.
Qed.

Lemma blank_input_extracts_nothing_witness :
  all_in is_space ("   " ++ nl) = true
  /\ extract_candidate_info ("   " ++ nl) initial_info "greeting" = initial_info.
Proof.
  split; [reflexivity|].
  exact (blank_input_extracts_nothing ("   " ++ nl) initial_info "greeting" eq_refl).
Defined.

(** ** Sessions that cannot go on *)

Lemma same_info s : set_candidate_info (candidate_info s) s = s.
Proof. destruct s; reflexivity. Qed.

Lemma collecting_not_extracting stage :
  In stage collecting_stages -> in_list stage extraction_stages = false.
Proof.
  unfold collecting_stages. simpl.
  intros H; repeat (destruct H as [H|H]); try contradiction; subst; reflexivity.
Qed.

Lemma handle_stage_transitions_waits w resp user_input s :
  In (current_stage s) collecting_stages ->
  awaited (current_stage s) (candidate_info s) = false ->
  handle_stage_transitions w resp user_input s = MkOutcome s [] (inr resp).
Proof.
  destruct s as [ms info stage qs qi ended]. proj_simpl. intros Hin Haw.
  unfold handle_stage_transitions. monad_unfold.
  split_ifs; stage_facts;
    try (exfalso; unfold collecting_stages in Hin; simpl in Hin;
         repeat (destruct Hin as [Hin|Hin]); try discriminate; contradiction);
    try (unfold awaited in Haw; simpl in Haw; congruence).
  cbv [app]. reflexivity.
Qed.

Lemma waiting_call w user_input s :
  consistent s ->
  In (current_stage s) collecting_stages ->
  awaited (current_stage s) (candidate_info s) = false ->
  let o := process_user_input w user_input s in
  (store o = s /\ exists request, result o = inr (LLM.get_chatbot_response w request))
  \/ (exit_requested user_input = true
      /\ current_stage (store o) = "farewell"
      /\ conversation_ended (store o) = true
      /\ candidate_info (store o) = candidate_info s).
Proof.
  intros Hc Hin Haw. cbv zeta.
  destruct (process_user_input_cases w user_input s) as
    [[He Ho] | [(He & Hx & _ & Ho) | (He & _ & request & Ho)]].
  - exfalso. apply Hc in He. rewrite He in Hin.
    unfold collecting_stages in Hin. simpl in Hin.
    repeat (destruct Hin as [Hin|Hin]); try discriminate; contradiction.
  - right. rewrite Ho. cbn [store]. repeat split; try assumption; destruct s; reflexivity.
  - left. cbv zeta in Ho. rewrite Ho. clear Ho.
    rewrite extract_outside_stages by (apply collecting_not_extracting, Hin).
    rewrite same_info.
    rewrite handle_stage_transitions_waits by assumption.
    cbn [store result]. split; [reflexivity|]. exists request. reflexivity.
Qed.

Lemma ended_final turns : forall s,
  conversation_ended s = true -> final turns s = s.
Proof.
  induction turns as [|[w user_input] rest IH]; intros s He; simpl; [reflexivity|].
  destruct (process_user_input_cases w user_input s) as
    [[_ Ho] | [(He' & _) | (He' & _)]]; try congruence.
  rewrite Ho. cbn [store]. apply IH, He.
Qed.

Lemma waiting_call_cases w user_input s :
  consistent s ->
  In (current_stage s) collecting_stages ->
  awaited (current_stage s) (candidate_info s) = false ->
  let o := process_user_input w user_input s in
  (exit_requested user_input = false ->
   store o = s /\ exists request, result o = inr (LLM.get_chatbot_response w request))
  /\ (exit_requested user_input = true ->
      current_stage (store o) = "farewell"
      /\ conversation_ended (store o) = true
      /\ candidate_info (store o) = candidate_info s).
Proof.
  intros Hc Hin Haw. cbv zeta.
  destruct (waiting_call w user_input s Hc Hin Haw) as [[Hs Hr] | (Hx & Hf & He & Hi)].
  - split; [intros _; split; assumption|].
    intros Hx. exfalso.
    destruct (process_user_input_cases w user_input s) as
      [[He Ho] | [(He & _ & _ & Ho) | (He & Hq & _)]].
    + apply Hc in He. rewrite He in Hin.
      unfold collecting_stages in Hin. simpl in Hin.
      repeat (destruct Hin as [Hin|Hin]); try discriminate; contradiction.
    + rewrite Ho in Hs. cbn [store] in Hs.
      assert (Hf : current_stage s = "farewell").
      { rewrite <- Hs. destruct s; reflexivity. }
      rewrite Hf in Hin. unfold collecting_stages in Hin. simpl in Hin.
      repeat (destruct Hin as [Hin|Hin]); try discriminate; contradiction.
    + rewrite Hx in Hq. cbn [andb] in Hq. apply negb_false_iff, String.eqb_eq in Hq.
      rewrite Hq in Hin. unfold collecting_stages in Hin. simpl in Hin.
      repeat (destruct Hin as [Hin|Hin]); try discriminate; contradiction.
  - split; [congruence|]. intros _. repeat split; assumption.
Qed.

(** X6.  In a stage that asks for one field, while the field it waits for
    is not in the profile (and in [collecting_name] always), no input
    moves the session on.  A call whose input holds no exit keyword leaves
    the whole store as it was and returns what the model answered; a call
    whose input holds one ends the conversation with the profile
    unchanged.  Hence a sequence of inputs without exit keyword leaves the
    store where it was, and a sequence with one ends at [farewell] with the
    profile unchanged. *)
Theorem unanswered_field_blocks_the_session (s : SessionState) :
  consistent s ->
  In (current_stage s) collecting_stages ->
  awaited (current_stage s) (candidate_info s) = false ->
  (forall w user_input,
      let o := process_user_input w user_input s in
      (exit_requested user_input = false ->
       store o = s /\ exists request, result o = inr (LLM.get_chatbot_response w request))
      /\ (exit_requested user_input = true ->
          current_stage (store o) = "farewell"
          /\ conversation_ended (store o) = true
          /\ candidate_info (store o) = candidate_info s))
  /\ (forall turns : list Turn,
        (Forall (fun t => exit_requested (snd t) = false) turns -> final turns s = s)
        /\ (Exists (fun t => exit_requested (snd t) = true) turns ->
            current_stage (final turns s) = "farewell"
            /\ conversation_ended (final turns s) = true
            /\ candidate_info (final turns s) = candidate_info s)).
Proof.
  intros Hc Hin Haw. split; [intros w user_input; apply waiting_call_cases; assumption|].
  induction turns as [|[w user_input] rest [IH1 IH2]].
  - split; [reflexivity|]. intros H. inversion H.
  - destruct (waiting_call_cases w user_input s Hc Hin Haw) as [Hno Hyes].
    cbv zeta in Hno, Hyes. cbn [final]. split.
    + intros H. inversion H as [|t l Ht Hl]; subst. cbn [snd] in Ht.
      destruct (Hno Ht) as [Hs _]. rewrite Hs. apply IH1, Hl.
    + intros H. destruct (exit_requested user_input) eqn:Hx.
      * destruct (Hyes eq_refl) as (Hf & He & Hi).
        rewrite (ended_final rest _ He). repeat split; assumption.
      * destruct (Hno eq_refl) as [Hs _]. rewrite Hs. apply IH2.
        inversion H as [t l Ht|t l Hl]; subst; [|exact Hl].
        cbn [snd] in Ht. congruence.
Qed.

Lemma unanswered_field_blocks_the_session_witness :
  consistent hey_state
  /\ In (current_stage hey_state) collecting_stages
  /\ awaited (current_stage hey_state) (candidate_info hey_state) = false
  /\ Forall (fun t : Turn => exit_requested (snd t) = false)
        [(offline_world, "Jane Roe"); (offline_world, "jane@roe.org, 555-123-4567");
         (offline_world, "I am a data analyst with 6 years")]
  /\ final [(offline_world, "Jane Roe"); (offline_world, "jane@roe.org, 555-123-4567");
            (offline_world, "I am a data analyst with 6 years")] hey_state
     = hey_state.
Proof.
  assert (Hc : consistent hey_state) by (split; vm_compute; discriminate).
  assert (Hin : In (current_stage hey_state) collecting_stages)
    by (vm_compute; tauto).
  assert (Haw : awaited (current_stage hey_state) (candidate_info hey_state) = false)
    by reflexivity.
  assert (Hno : Forall (fun t : Turn => exit_requested (snd t) = false)
                  [(offline_world, "Jane Roe");
                   (offline_world, "jane@roe.org, 555-123-4567");
                   (offline_world, "I am a data analyst with 6 years")])
    by (repeat constructor).
  split; [exact Hc|]. split; [exact Hin|]. split; [exact Haw|]. split; [exact Hno|].
  exact (proj1 (proj2 (unanswered_field_blocks_the_session hey_state Hc Hin Haw) _) Hno).
Defined.

(** X7.  Once a session has left the stage [greeting], no call changes the
    profile any more: whatever the candidate answers to the later
    questions, nothing of it is extracted. *)
Theorem profile_changes_only_in_greeting (w : World) (user_input : string)
    (s : SessionState) :
  reachable s ->
  current_stage s <> "greeting" ->
  candidate_info (store (process_user_input w user_input s)) = candidate_info s.
Proof.
  intros Hr Hg.
  destruct (reachable_early s Hr) as [Hin _].
  destruct (process_user_input_moved w user_input s) as
    (_ & [Heq | [(_ & Hi & _) | (_ & Hi & _)]]).
  - rewrite Heq. reflexivity.
  - exact Hi.
  - rewrite Hi. apply extract_outside_stages.
    unfold before_confirmation in Hin. simpl in Hin.
    repeat (destruct Hin as [Hin|Hin]); try contradiction;
      try (exfalso; apply Hg; symmetry; exact Hin);
      rewrite <- Hin; reflexivity.
Qed.

Lemma profile_changes_only_in_greeting_witness :
  reachable hey_state
  /\ current_stage hey_state <> "greeting"
  /\ candidate_info
       (store (process_user_input offline_world "Jane Roe, jane@roe.org" hey_state))
     = candidate_info hey_state.
Proof.
  assert (Hr : reachable hey_state)
    by exact (reach_call initial_state offline_world "hey" reach_init).
  assert (Hg : current_stage hey_state <> "greeting") by (vm_compute; discriminate).
  split; [exact Hr|]. split; [exact Hg|].
  exact (profile_changes_only_in_greeting offline_world "Jane Roe, jane@roe.org"
           hey_state Hr Hg).
Defined.

(** ** The technical questions *)

Lemma handle_stage_transitions_first_question w resp user_input s :
  current_stage s = "tech_stack_confirmation" ->
  tech_questions s = [] ->
  exists request q rest,
    LLM.generate_technical_questions w request 5 = q :: rest
    /\ handle_stage_transitions w resp user_input s
       = MkOutcome
           (set_current_stage "technical_questions" (set_tech_questions (q :: rest) s))
           [CallGenerate request] (inr (first_question_reply q)).
Proof.
  destruct s as [ms info stage qs qi ended]. proj_simpl. intros Hs Hq. subst qs.
  unfold handle_stage_transitions. monad_unfold.
  split_ifs; stage_facts; try discriminate.
  all: try (match goal with
            | |- context [LLM.generate_technical_questions ?v ?r 5] =>
                exists r;
                pose proof (generate_technical_questions_nonempty v r 5) as Hne;
                destruct (LLM.generate_technical_questions v r 5) as [|q rest];
                [contradiction|];
                exists q, rest; split; [reflexivity|]; proj_simpl; cbv [app]; reflexivity
            end).
  all: rewrite Hs in *; discriminate.
Qed.

(** X8.  At the confirmation of the stack, with no question stored yet,
    a call whose input holds no exit keyword generates the questions once,
    stores them, moves the stage to [technical_questions] and returns the
    opening line followed by the first question; it never fails on an
    empty list, and the index stays where it was. *)
Theorem confirmation_starts_the_questions (w : World) (user_input : string)
    (s : SessionState) :
  conversation_ended s = false ->
  current_stage s = "tech_stack_confirmation" ->
  tech_questions s = [] ->
  exit_requested user_input = false ->
  let o := process_user_input w user_input s in
  current_stage (store o) = "technical_questions"
  /\ question_index (store o) = question_index s
  /\ count_generates (events o) = 1
  /\ count_saves (events o) = 0
  /\ exists q rest,
       tech_questions (store o) = q :: rest
       /\ result o = inr (first_question_reply q).
Proof.
  intros He Hs Hq Hx. cbv zeta.
  destruct (process_user_input_cases w user_input s) as
    [[He' Ho] | [(_ & Hx' & _) | (_ & _ & request & Ho)]]; try congruence.
  cbv zeta in Ho. rewrite Ho. clear Ho.
  match goal with
  | |- context [handle_stage_transitions w ?r user_input ?s1] =>
      destruct (handle_stage_transitions_first_question w r user_input s1)
        as (req & q & rest & Hg & Hh); [exact Hs | exact Hq |]; rewrite Hh
  end.
  cbn [store events result].
  split; [reflexivity|]. split; [reflexivity|].
  split; [reflexivity|]. split; [reflexivity|].
  exists q, rest. split; reflexivity.
Qed.

Lemma confirmation_starts_the_questions_witness :
  conversation_ended confirmation_scenario = false
  /\ current_stage confirmation_scenario = "tech_stack_confirmation"
  /\ tech_questions confirmation_scenario = []
  /\ exit_requested "no, that is all" = false
  /\ current_stage
       (store (process_user_input offline_world "no, that is all" confirmation_scenario))
     = "technical_questions"
  /\ count_generates
       (events (process_user_input offline_world "no, that is all" confirmation_scenario))
     = 1.
Proof.
  pose proof (confirmation_starts_the_questions offline_world "no, that is all"
                confirmation_scenario eq_refl eq_refl eq_refl eq_refl)
    as (H1 & _ & H3 & _).
  do 4 (split; [reflexivity|]). split; [exact H1 | exact H3].
Defined.

Lemma handle_stage_transitions_next_question w resp user_input s q :
  current_stage s = "technical_questions" ->
  nth_error (tech_questions s) (question_index s + 1) = Some q ->
  handle_stage_transitions w resp user_input s
  = MkOutcome (set_question_index (question_index s + 1) s) []
              (inr (next_question_reply q)).
Proof.
  destruct s as [ms info stage qs qi ended]. proj_simpl. intros Hs Hq.
  assert (Hlt : (qi + 1 <? List.length qs) = true).
  { apply Nat.ltb_lt, nth_error_Some. congruence. }
  unfold handle_stage_transitions. monad_unfold.
  split_ifs; stage_facts; try discriminate; try congruence.
  - rewrite Hq. proj_simpl. cbv [app]. reflexivity.
  - rewrite Hs in *. discriminate.
Qed.

Lemma next_question_call w user_input s q :
  conversation_ended s = false ->
  current_stage s = "technical_questions" ->
  exit_requested user_input = false ->
  nth_error (tech_questions s) (question_index s + 1) = Some q ->
  let o := process_user_input w user_input s in
  store o = set_question_index (question_index s + 1) s
  /\ result o = inr (next_question_reply q).
Proof.
  intros He Hs Hx Hq. cbv zeta.
  destruct (process_user_input_cases w user_input s) as
    [[He' Ho] | [(_ & Hx' & _) | (_ & _ & request & Ho)]]; try congruence.
  cbv zeta in Ho. rewrite Ho. clear Ho.
  rewrite extract_outside_stages by (rewrite Hs; reflexivity).
  rewrite same_info.
  rewrite (handle_stage_transitions_next_question _ _ _ _ q Hs Hq).
  split; reflexivity.
Qed.

Lemma skipn_nth_error {A : Type} (l : list A) : forall k x,
  nth_error l k = Some x -> skipn k l = x :: skipn (S k) l.
Proof.
  induction l as [|y l IH]; intros [|k] x H; simpl in *; try discriminate.
  - injection H as ->. reflexivity.
  - apply IH, H.
Qed.

(** X9.  During the technical questions, answers that hold no exit keyword
    are met with the stored questions in order, one per answer: after [k]
    answers, as long as a question is left, the index has grown by [k],
    nothing else in the store has changed, and the replies were the
    questions that follow the current one.  When no question is left, the
    next input, whatever it is, ends the conversation with the closing
    message and one call of [save_conversation]. *)
Theorem technical_questions_are_asked_in_order (turns : list Turn) (s : SessionState) :
  conversation_ended s = false ->
  current_stage s = "technical_questions" ->
  Forall (fun t : Turn => exit_requested (snd t) = false) turns ->
  question_index s + List.length turns < List.length (tech_questions s) ->
  (final turns s = set_question_index (question_index s + List.length turns) s
   /\ map result (run turns s)
      = map (fun q => inr (next_question_reply q))
            (firstn (List.length turns)
                    (skipn (question_index s + 1) (tech_questions s))))
  /\ (question_index s + List.length turns + 1 = List.length (tech_questions s) ->
      forall w user_input,
        let o := process_user_input w user_input (final turns s) in
        current_stage (store o) = "farewell"
        /\ result o = inr (closing_message (candidate_info s))
        /\ count_saves (events o) = 1).
Proof.
  intros He Hs Hx Hlen.
  assert (Hmain :
    final turns s = set_question_index (question_index s + List.length turns) s
    /\ map result (run turns s)
       = map (fun q => inr (next_question_reply q))
             (firstn (List.length turns)
                     (skipn (question_index s + 1) (tech_questions s)))).
  { revert s He Hs Hx Hlen.
    induction turns as [|[w user_input] rest IH]; intros s He Hs Hx Hlen.
    - simpl. rewrite Nat.add_0_r. split; [destruct s; reflexivity | reflexivity].
    - cbn [List.length] in Hlen. inversion Hx as [|t ts Hx1 Hx2]; subst. cbn [snd] in Hx1.
      destruct (nth_error (tech_questions s) (question_index s + 1)) as [q|] eqn:Hq;
        [|apply nth_error_None in Hq; lia].
      destruct (next_question_call w user_input s q He Hs Hx1 Hq) as [Hst Hres].
      cbn [final run map List.length]. rewrite Hst, Hres.
      destruct (IH (set_question_index (question_index s + 1) s)) as [IH1 IH2].
      + destruct s; exact He.
      + destruct s; exact Hs.
      + exact Hx2.
      + destruct s; cbn [question_index tech_questions set_question_index] in *. lia.
      + rewrite IH1, IH2. split.
        * destruct s as [ms info stage qs qi ended]. unfold set_question_index. simpl.
          f_equal. lia.
        * rewrite (skipn_nth_error _ _ _ Hq). cbn [firstn map].
          destruct s as [ms info stage qs qi ended]. unfold set_question_index.
          cbn [question_index tech_questions messages candidate_info current_stage
               conversation_ended].
          replace (S (qi + 1)) with (qi + 1 + 1) by lia.
          reflexivity. }
  split; [exact Hmain|].
  intros Hend w user_input. destruct Hmain as [Hf _]. rewrite Hf. cbv zeta.
  set (s1 := set_question_index (question_index s + List.length turns) s).
  assert (He1 : conversation_ended s1 = false) by (destruct s; exact He).
  assert (Hs1 : current_stage s1 = "technical_questions") by (destruct s; exact Hs).
  assert (Hi1 : candidate_info s1 = candidate_info s) by (destruct s; reflexivity).
  assert (Hq1 : (question_index s1 + 1 <? List.length (tech_questions s1)) = false).
  { apply Nat.ltb_ge. destruct s; cbn in *. lia. }
  destruct (process_user_input_cases w user_input s1) as
    [[He' Ho] | [(_ & _ & _ & Ho) | (_ & _ & request & Ho)]].
  - congruence.
  - rewrite Ho. cbn [store events result]. rewrite Hi1.
    split; [reflexivity|]. split; [reflexivity|].
    unfold count_saves. cbn [filter List.length]. f_equal.
    apply save_conversation_no_saves.
  - cbv zeta in Ho. rewrite Ho. clear Ho.
    rewrite extract_outside_stages by (rewrite Hs1; reflexivity).
    rewrite same_info.
    rewrite (handle_stage_transitions_last_question _ _ _ _ Hs1 Hq1).
    cbn [store events result]. rewrite Hi1.
    split; [reflexivity|]. split; [reflexivity|].
    unfold count_saves. cbn [filter List.length]. f_equal.
    apply save_conversation_no_saves.
Qed.

Lemma technical_questions_are_asked_in_order_witness :
  conversation_ended questions_scenario = false
  /\ current_stage questions_scenario = "technical_questions"
  /\ question_index
       (final [(offline_world, "a list is mutable"); (offline_world, "with try and except")]
              questions_scenario) = 2
  /\ map result
       (run [(offline_world, "a list is mutable"); (offline_world, "with try and except")]
            questions_scenario)
     = [inr (next_question_reply "How do you handle exceptions in Python?");
        inr (next_question_reply
               "What is the difference between __init__ and __new__ in Python classes?")].
Proof.
  assert (Hx : Forall (fun t : Turn => exit_requested (snd t) = false)
                 [(offline_world, "a list is mutable");
                  (offline_world, "with try and except")])
    by (repeat constructor).
  assert (Hl : question_index questions_scenario
               + List.length [(offline_world, "a list is mutable");
                              (offline_world, "with try and except")]
               < List.length (tech_questions questions_scenario))
    by (simpl; lia).
  destruct (technical_questions_are_asked_in_order _ questions_scenario
              eq_refl eq_refl Hx Hl) as [[H1 H2] _].
  split; [reflexivity|]. split; [reflexivity|].
  split; [rewrite H1; reflexivity | exact H2].
Defined.

(** ** One record per session *)

Lemma handle_stage_transitions_saves w resp user_input s :
  let o := handle_stage_transitions w resp user_input s in
  (count_saves (events o) = 0 /\ conversation_ended (store o) = conversation_ended s)
  \/ (count_saves (events o) = 1 /\ conversation_ended (store o) = true).
Proof.
  destruct s as [ms info stage qs qi ended].
  unfold handle_stage_transitions. monad_unfold.
  split_ifs; stage_facts;
    repeat match goal with
    | |- context [match position info with _ => _ end] => destruct (position info)
    | |- context [match qs with _ => _ end] => destruct qs
    | |- context [match LLM.generate_technical_questions ?a ?b ?c with _ => _ end] =>
        destruct (LLM.generate_technical_questions a b c)
    | |- context [match nth_error ?a ?b with _ => _ end] => destruct (nth_error a b)
    end; proj_simpl.
  all: try (left; split; reflexivity).
  all: rewrite end_conversation_eq; proj_simpl; right; split; [|reflexivity].
  all: cbv [app]; unfold count_saves; cbn [filter List.length]; f_equal;
    apply save_conversation_no_saves.
Qed.

Lemma process_user_input_saves w user_input s :
  let o := process_user_input w user_input s in
  count_saves (events o)
  = if negb (conversation_ended s) && conversation_ended (store o) then 1 else 0.
Proof.
  cbv zeta.
  destruct (process_user_input_cases w user_input s) as
    [[He Ho] | [(He & _ & _ & Ho) | (He & _ & request & Ho)]].
  - rewrite Ho, He. reflexivity.
  - rewrite Ho, He. cbn [store events negb andb conversation_ended set_conversation_ended].
    unfold count_saves. cbn [filter List.length]. f_equal.
    apply save_conversation_no_saves.
  - cbv zeta in Ho. rewrite Ho, He. clear Ho. cbn [store events negb andb].
    match goal with
    | |- context [handle_stage_transitions ?a ?b ?c ?d] =>
        destruct (handle_stage_transitions_saves a b c d) as [[H0 Hd]|[H1 Hd]];
        cbv zeta in *
    end.
    + unfold count_saves in *. cbn [filter]. rewrite H0, Hd.
      destruct s; cbn [conversation_ended set_candidate_info] in *. rewrite He.
      reflexivity.
    + unfold count_saves in *. cbn [filter]. rewrite H1, Hd. reflexivity.
Qed.

(** X10.  Over any sequence of calls, [save_conversation] is called once
    if the session was open at the start and is ended at the finish, and
    not at all otherwise: a session is recorded at most once, at the call
    that ends it. *)
Theorem session_is_saved_once (turns : list Turn) (s : SessionState) :
  total_saves (run turns s)
  = if negb (conversation_ended s) && conversation_ended (final turns s) then 1 else 0.
Proof.
  revert s. induction turns as [|[w user_input] rest IH]; intros s.
  - simpl. destruct (conversation_ended s); reflexivity.
  - cbn [run final].
    change (total_saves (?o :: ?l)) with (count_saves (events o) + total_saves l).
    rewrite IH, process_user_input_saves.
    destruct (conversation_ended s) eqn:He.
    + cbn [negb andb]. rewrite (ended_final [(w, user_input)] s He) at 1.
      pose proof (ended_final [(w, user_input)] s He) as Hs. cbn [final] in Hs.
      rewrite Hs, He. reflexivity.
    + cbn [negb andb].
      destruct (conversation_ended (store (process_user_input w user_input s))) eqn:He1.
      * rewrite (ended_final rest _ He1), He1. reflexivity.
      * cbn [negb andb]. reflexivity.
Qed.

Lemma session_is_saved_once_witness :
  total_saves
    (run [(offline_world, "Jane Roe"); (offline_world, "that is the end");
          (offline_world, "bye"); (offline_world, "bye again")] initial_state) = 1.
Proof.
  rewrite (session_is_saved_once
             [(offline_world, "Jane Roe"); (offline_world, "that is the end");
              (offline_world, "bye"); (offline_world, "bye again")] initial_state).
  reflexivity.
Defined.

(** ** What extraction stores *)

Lemma filter_chars_append p a b :
  filter_chars p (a ++ b) = filter_chars p a ++ filter_chars p b.
Proof.
  induction a as [|c a IH]; simpl; [reflexivity|].
  destruct (p c); simpl; rewrite IH; reflexivity.
Qed.

Lemma filter_chars_all p w :
  any_char (fun c => negb (p c)) w = false -> filter_chars p w = w.
Proof.
  induction w as [|c w IH]; simpl; intros H; [reflexivity|].
  apply orb_false_iff in H. destruct H as [Hc Hw].
  apply negb_false_iff in Hc. rewrite Hc, (IH Hw). reflexivity.
Qed.

Lemma phone_match_digits prev s ps rest :
  atoms_match (atoms phone_pattern) prev s ps rest ->
  10 <= String.length (filter_chars is_digit (whole ps)).
Proof.
  unfold phone_pattern, atoms, Opt. intros H.
  repeat match goal with
  | H : atoms_match (_ :: _) _ _ _ _ |- _ => inversion H; subst; clear H
  | H : atoms_match [] _ _ _ _ |- _ => inversion H; subst; clear H
  end.
  unfold whole. cbn [fold_right].
  repeat rewrite filter_chars_append. repeat rewrite length_append.
  repeat match goal with
  | H : any_char (fun c => negb (is_digit c)) ?w = false |- _ =>
      rewrite (filter_chars_all is_digit w H); clear H
  end.
  lia.
Qed.

Lemma findall_head_match r text m ms :
  findall r text = m :: ms ->
  exists pre ps rest,
    search (atoms r) None text = Some (pre, ps, rest) /\ m = reported r ps.
Proof.
  intros H. pose proof (findall_scan_head r text None) as Hh.
  unfold findall in H. rewrite H in Hh. cbn [hd_error] in Hh.
  destruct (search (atoms r) None text) as [[[pre ps] rest]|]; [|discriminate].
  injection Hh as ->. eauto.
Qed.

Lemma extract_phone_valid user_input info :
  truthy (phone info) = false ->
  validate_phone (phone (extract_phone user_input info))
  = inr (phone (extract_phone user_input info)).
Proof.
  intros Hu.
  assert (Hold : validate_phone (phone info) = inr (phone info)).
  { unfold validate_phone. rewrite Hu. reflexivity. }
  unfold extract_phone.
  destruct (negb (truthy (phone info)) && any_char is_digit user_input); [|exact Hold].
  destruct (findall phone_pattern user_input) as [|m ms] eqn:Ef; [exact Hold|].
  destruct (findall_head_match _ _ _ _ Ef) as (pre & ps & rest & Hs & ->).
  destruct (search_sound _ _ _ _ _ _ Hs) as [_ Hm].
  pose proof (phone_match_digits _ _ _ _ Hm) as Hd.
  cbn [phone set_phone]. unfold reported. cbn [group phone_pattern].
  unfold validate_phone.
  destruct (whole ps) as [|c m] eqn:Ew; [simpl in Hd; lia|].
  cbn [truthy fmt].
  destruct (Nat.ltb_spec (String.length (filter_chars is_digit (String c m))) 10);
    [lia | reflexivity].
Qed.

Lemma extract_phone_field user_input info stage :
  in_list stage extraction_stages = true ->
  phone (extract_candidate_info user_input info stage)
  = phone (extract_phone user_input
             (extract_email user_input (extract_name user_input stage info))).
Proof.
  intros Hst. unfold extract_candidate_info. rewrite Hst. cbn [negb]. cbv zeta.
  rewrite (proj1 (proj2 (proj2 (extract_tech_stack_others _ _ _)))).
  rewrite (proj1 (proj2 (proj2 (extract_position_others _ _)))).
  rewrite (proj1 (proj2 (proj2 (extract_experience_others _ _)))).
  reflexivity.
Qed.

Lemma extraction_phone_valid user_input info stage :
  validate_phone (phone info) = inr (phone info) ->
  validate_phone (phone (extract_candidate_info user_input info stage))
  = inr (phone (extract_candidate_info user_input info stage)).
Proof.
  intros Hold.
  destruct (truthy (phone info)) eqn:Ht.
  - destruct (in_list stage extraction_stages) eqn:Hst.
    + rewrite extract_phone_field by exact Hst.
      rewrite extract_phone_kept;
        rewrite (proj1 (proj2 (extract_email_others _ _)));
        rewrite (proj1 (proj2 (extract_name_others _ _ _))); assumption.
    + rewrite extract_outside_stages by exact Hst. exact Hold.
  - destruct (in_list stage extraction_stages) eqn:Hst.
    + rewrite extract_phone_field by exact Hst.
      apply extract_phone_valid.
      rewrite (proj1 (proj2 (extract_email_others _ _))).
      rewrite (proj1 (proj2 (extract_name_others _ _ _))). exact Ht.
    + rewrite extract_outside_stages by exact Hst. exact Hold.
Qed.

(** X11.  A phone number that extraction stores always holds at least ten
    digits, so it passes the validator of the record; hence in every store
    a session can reach the phone field passes [validate_phone], and the
    save never fails on the phone. *)
Theorem extracted_phone_passes_validation :
  (forall user_input info stage,
      truthy (phone info) = false ->
      validate_phone (phone (extract_candidate_info user_input info stage))
      = inr (phone (extract_candidate_info user_input info stage)))
  /\ (forall s, reachable s ->
        validate_phone (phone (candidate_info s)) = inr (phone (candidate_info s))).
Proof.
  split.
  - intros user_input info stage Hu. apply extraction_phone_valid.
    unfold validate_phone. rewrite Hu. reflexivity.
  - induction 1 as [|s w user_input Hr IH|s msgs Hr IH].
    + reflexivity.
    + destruct (process_user_input_moved w user_input s) as
        (_ & [Heq | [(_ & Hi & _) | (_ & Hi & _)]]).
      * rewrite Heq. exact IH.
      * rewrite Hi. exact IH.
      * rewrite Hi. apply extraction_phone_valid, IH.
    + destruct s; exact IH.
Qed.

Lemma extracted_phone_passes_validation_witness :
  truthy (phone initial_info) = false
  /\ phone (extract_candidate_info "call me on +1 (555) 123-4567 please" initial_info
              "greeting") = Some "(555) 123-4567"
  /\ validate_phone
       (phone (extract_candidate_info "call me on +1 (555) 123-4567 please" initial_info
                 "greeting"))
     = inr (Some "(555) 123-4567").
Proof.
  assert (E : phone (extract_candidate_info "call me on +1 (555) 123-4567 please"
                       initial_info "greeting") = Some "(555) 123-4567")
    by (vm_compute; reflexivity).
  split; [reflexivity|]. split; [exact E|].
  rewrite <- E.
  exact (proj1 extracted_phone_passes_validation
           "call me on +1 (555) 123-4567 please" initial_info "greeting" eq_refl).
Defined.

Lemma rep_first_piece cls lo hi p prev s ps rest :
  atoms_match (Rep cls lo hi :: p) prev s ps rest ->
  exists w ps', ps = w :: ps' /\ all_in cls w = true /\ lo <= String.length w.
Proof.
  intros H. inversion H; subst.
  eexists. eexists. split; [reflexivity|]. split; [|assumption].
  unfold all_in. apply negb_true_iff. assumption.
Qed.

Lemma first_experience_shape text e :
  first_experience exp_patterns text = Some e ->
  exists d, e = d ++ " years" /\ d <> "" /\ all_in is_digit d = true.
Proof.
  unfold exp_patterns. cbn [first_experience].
  repeat match goal with
  | |- context [findall ?r text] =>
      let Ef := fresh "Ef" in
      destruct (findall r text) as [|m ms] eqn:Ef;
      [|intros H; injection H as <-;
        destruct (findall_head_match _ _ _ _ Ef) as (pre & ps & rest & Hs & ->);
        destruct (search_sound _ _ _ _ _ _ Hs) as [_ Hm];
        cbn [atoms exp_head app] in Hm; unfold Plus in Hm;
        destruct (rep_first_piece _ _ _ _ _ _ _ _ Hm) as (w & ps' & -> & Hw & Hl);
        exists w; unfold reported; cbn [group nth];
        split; [reflexivity|]; split; [|exact Hw];
        intros ->; simpl in Hl; lia]
  end.
  discriminate.
Qed.

Lemma extract_experience_field user_input info stage :
  in_list stage extraction_stages = true ->
  experience (extract_candidate_info user_input info stage)
  = experience (extract_experience user_input
                  (extract_phone user_input
                     (extract_email user_input (extract_name user_input stage info)))).
Proof.
  intros Hst. unfold extract_candidate_info. rewrite Hst. cbn [negb]. cbv zeta.
  rewrite (proj1 (proj2 (proj2 (proj2 (extract_tech_stack_others _ _ _))))).
  rewrite (proj1 (proj2 (proj2 (proj2 (extract_position_others _ _))))).
  reflexivity.
Qed.

Example extracted_experience_examples :
  experience (extract_candidate_info "Sam Lee, 12+ yrs in ops" initial_info "greeting")
  = Some "12 years"
  /\ experience (extract_candidate_info "Sam Lee, 1 year" initial_info "greeting")
     = Some "1 years"
  /\ experience (extract_candidate_info "Sam Lee, seven years" initial_info "greeting")
     = None.
Proof. repeat split; vm_compute; reflexivity. Qed.

(** ** When a session is recorded *)

Lemma accepted_inr {A : Type} (v : A) : accepted (inr v : exn + A).
Proof. exists v. reflexivity. Qed.

Lemma not_accepted_inl {A : Type} (e : exn) : ~ accepted (inl e : exn + A).
Proof. intros [v H]. discriminate. Qed.

(** X13.  For a profile whose name, email and phone are written in ASCII,
    [save_conversation] returns [True] exactly when the directory can be
    made, the email and the phone of the profile pass their validators,
    the profile has a name, and the file named after the lowercased name
    (blanks turned into underscores) and the clock can be written; it then
    has written that one file, with the record printed as JSON. *)
Theorem save_succeeds_exactly_when (w : World) (info : CandidateInfo)
    (msgs qs : list string) :
  ascii_field (name info) = true ->
  ascii_field (email info) = true ->
  ascii_field (phone info) = true ->
  (snd (save_conversation w info msgs qs) = true
   <-> makedirs_ok w "data" = true
       /\ accepted (validate_email (email info))
       /\ accepted (validate_phone (phone info))
       /\ exists n, name info = Some n
                    /\ write_ok w (record_path w n)
                         (to_json w (MkRecord (now_stamp w) info msgs qs)) = true)
  /\ (forall n, name info = Some n ->
      snd (save_conversation w info msgs qs) = true ->
      fst (save_conversation w info msgs qs)
      = [Makedirs "data";
         WriteFile (record_path w n) (to_json w (MkRecord (now_stamp w) info msgs qs))]).
Proof.
  intros _ _ _.
  unfold save_conversation, save_body, make_ConversationRecord, make_CandidateInfo,
    record_path.
  destruct (makedirs_ok w "data"); cbn [negb].
  2:{ split; [split; [discriminate | intros [H _]; discriminate] | discriminate]. }
  destruct (validate_email (email info)) as [e1|v1]; cbn [errors_of app].
  { split; [split; [discriminate|] | discriminate].
    intros (_ & H & _). exfalso. exact (not_accepted_inl _ H). }
  destruct (validate_phone (phone info)) as [e2|v2]; cbn [errors_of app].
  { split; [split; [discriminate|] | discriminate].
    intros (_ & _ & H & _). exfalso. exact (not_accepted_inl _ H). }
  destruct (name info) as [n|].
  2:{ split; [split; [discriminate|] | discriminate].
      intros (_ & _ & _ & n & H & _). discriminate. }
  cbv zeta.
  match goal with
  | |- context [if ?c then _ else _] => destruct c eqn:Ew
  end; cbn [fst snd].
  - split.
    + split; [|reflexivity]. intros _.
      split; [reflexivity|]. split; [apply accepted_inr|]. split; [apply accepted_inr|].
      exists n. split; [reflexivity | exact Ew].
    + intros n' Hn _. injection Hn as <-. reflexivity.
  - split; [split; [discriminate|] | discriminate].
    intros (_ & _ & _ & n' & Hn & Hw). injection Hn as <-. congruence.
Qed.

Lemma save_succeeds_exactly_when_witness :
  ascii_field (name (set_name "Jane Roe" initial_info)) = true
  /\ ascii_field (email (set_name "Jane Roe" initial_info)) = true
  /\ ascii_field (phone (set_name "Jane Roe" initial_info)) = true
  /\ name (set_name "Jane Roe" initial_info) = Some "Jane Roe"
  /\ snd (save_conversation offline_world (set_name "Jane Roe" initial_info) [] []) = true
  /\ fst (save_conversation offline_world (set_name "Jane Roe" initial_info) [] [])
     = [Makedirs "data";
        WriteFile "data/conversation_jane_roe_20240101_000000.json" "{}"].
Proof.
  assert (Hs : snd (save_conversation offline_world (set_name "Jane Roe" initial_info)
                      [] []) = true) by reflexivity.
  do 4 (split; [reflexivity|]). split; [exact Hs|].
  exact (proj2 (save_succeeds_exactly_when offline_world
                  (set_name "Jane Roe" initial_info) [] [] eq_refl eq_refl eq_refl)
               "Jane Roe" eq_refl Hs).
Defined.

(** ** Stages whose field is already known *)

Lemma handle_stage_transitions_advances w resp user_input s :
  In (current_stage s) collecting_stages ->
  awaited (current_stage s) (candidate_info s) = true ->
  let s' := store (handle_stage_transitions w resp user_input s) in
  candidate_info s' = candidate_info s
  /\ exists i, stage_index (current_stage s) = Some i
               /\ stage_index (current_stage s') = Some (S i).
Proof.
  destruct s as [ms info stage qs qi ended]. proj_simpl. intros Hin Haw.
  unfold handle_stage_transitions. monad_unfold.
  split_ifs; stage_facts;
    repeat match goal with
    | |- context [match position info with _ => _ end] => destruct (position info)
    end; proj_simpl;
    try (split; [reflexivity|]; eexists; split; reflexivity).
  all: exfalso; unfold collecting_stages in Hin; simpl in Hin;
    repeat (destruct Hin as [Hin|Hin]); try contradiction; try discriminate;
    subst; unfold awaited in Haw; simpl in *; congruence.
Qed.

(** X14.  In a stage that asks for one field, when the field it waits for
    is already in the profile, the input is not looked at: any input
    without an exit keyword moves the stage one step on in the canonical
    order and leaves the profile as it was. *)
Theorem known_field_lets_any_input_through (w : World) (user_input : string)
    (s : SessionState) :
  conversation_ended s = false ->
  In (current_stage s) collecting_stages ->
  awaited (current_stage s) (candidate_info s) = true ->
  exit_requested user_input = false ->
  let s' := store (process_user_input w user_input s) in
  candidate_info s' = candidate_info s
  /\ exists i, stage_index (current_stage s) = Some i
               /\ stage_index (current_stage s') = Some (S i).
Proof.
  intros He Hin Haw Hx. cbv zeta.
  destruct (process_user_input_cases w user_input s) as
    [[He' Ho] | [(_ & Hx' & _) | (_ & _ & request & Ho)]]; try congruence.
  cbv zeta in Ho. rewrite Ho. clear Ho. cbn [store].
  rewrite extract_outside_stages by (apply collecting_not_extracting, Hin).
  rewrite same_info.
  apply handle_stage_transitions_advances; assumption.
Qed.

Lemma known_field_lets_any_input_through_witness :
  In (current_stage
        (MkState [] (set_email "jane@roe.org" initial_info) "collecting_email" [] 0 false))
     collecting_stages
  /\ exit_requested "no idea what to type here" = false
  /\ exists i,
       stage_index "collecting_email" = Some i
       /\ stage_index
            (current_stage
               (store (process_user_input offline_world "no idea what to type here"
                         (MkState [] (set_email "jane@roe.org" initial_info)
                                  "collecting_email" [] 0 false))))
          = Some (S i).
Proof.
  assert (Hin : In (current_stage
                      (MkState [] (set_email "jane@roe.org" initial_info)
                               "collecting_email" [] 0 false)) collecting_stages)
    by (simpl; tauto).
  split; [exact Hin|]. split; [reflexivity|].
  exact (proj2 (known_field_lets_any_input_through offline_world
                  "no idea what to type here"
                  (MkState [] (set_email "jane@roe.org" initial_info) "collecting_email"
                           [] 0 false) eq_refl Hin eq_refl eq_refl)).
Defined.

(** ** Calls that raise *)

Lemma handle_stage_transitions_raises w resp user_input s :
  current_stage s = "collecting_experience" ->
  truthy (experience (candidate_info s)) = true ->
  position (candidate_info s) = None ->
  handle_stage_transitions w resp user_input s
  = MkOutcome (set_current_stage "collecting_tech_stack" s) []
              (inl (AttributeError "'NoneType' object has no attribute 'lower'")).
Proof.
  destruct s as [ms info stage qs qi ended]. proj_simpl. intros Hs Hx Hp.
  unfold handle_stage_transitions. monad_unfold.
  split_ifs; stage_facts; try discriminate.
  - rewrite Hp. proj_simpl. cbv [app]. reflexivity.
  - rewrite Hs, Hx in *. discriminate.
Qed.

(** X15.  In every store a session can reach, every call of
    [process_user_input] returns a reply.  The one exception the function
    can raise needs a store no session reaches: in [collecting_experience]
    with the experience known and no position, the call raises the
    attribute error of [None.lower()], after it has already moved the
    stage to [collecting_tech_stack]. *)
Theorem calls_return_in_reachable_stores (w : World) (user_input : string)
    (s : SessionState) :
  (reachable s -> exists reply, result (process_user_input w user_input s) = inr reply)
  /\ (conversation_ended s = false ->
      current_stage s = "collecting_experience" ->
      truthy (experience (candidate_info s)) = true ->
      position (candidate_info s) = None ->
      exit_requested user_input = false ->
      let o := process_user_input w user_input s in
      result o = inl (AttributeError "'NoneType' object has no attribute 'lower'")
      /\ store o = set_current_stage "collecting_tech_stack" s).
Proof.
  split; [apply process_user_input_returns|].
  intros He Hs Hx Hp Hq. cbv zeta.
  destruct (process_user_input_cases w user_input s) as
    [[He' Ho] | [(_ & Hq' & _) | (_ & _ & request & Ho)]]; try congruence.
  cbv zeta in Ho. rewrite Ho. clear Ho.
  rewrite extract_outside_stages by (rewrite Hs; reflexivity).
  rewrite same_info.
  rewrite handle_stage_transitions_raises by assumption.
  split; reflexivity.
Qed.

Lemma calls_return_in_reachable_stores_witness :
  reachable hey_state
  /\ (exists reply,
        result (process_user_input offline_world "Jane Roe" hey_state) = inr reply)
  /\ result (process_user_input offline_world "about six"
               (MkState [] (set_experience "6 years" initial_info)
                        "collecting_experience" [] 0 false))
     = inl (AttributeError "'NoneType' object has no attribute 'lower'").
Proof.
  assert (Hr : reachable hey_state)
    by exact (reach_call initial_state offline_world "hey" reach_init).
  split; [exact Hr|]. split.
  - exact (proj1 (calls_return_in_reachable_stores offline_world "Jane Roe" hey_state) Hr).
  - exact (proj1 (proj2 (calls_return_in_reachable_stores offline_world "about six"
                           (MkState [] (set_experience "6 years" initial_info)
                                    "collecting_experience" [] 0 false))
                        eq_refl eq_refl eq_refl eq_refl eq_refl)).
Defined.

(** ** The transcript *)

(** X16.  One pass of the script body in a reachable store adds exactly
    two lines to the end of the transcript, the line of the user and the
    reply of the assistant, in this order; the call itself sees the
    transcript with the line of the user already in it and does not change
    it. *)
Theorem send_appends_the_turn (w : World) (user_input : string) (s : SessionState) :
  reachable s ->
  exists reply,
    result (process_user_input w user_input
              (set_messages (messages s ++ [String.append "You: " user_input])%list s))
    = inr reply
    /\ messages (store (send w user_input s))
       = (messages s
            ++ [String.append "You: " user_input; String.append "TalentScout: " reply])%list
    /\ result (send w user_input s) = inr tt.
Proof.
  intros Hr.
  set (s1 := set_messages (messages s ++ [String.append "You: " user_input])%list s).
  assert (Hr1 : reachable s1) by (apply reach_transcript, Hr).
  destruct (process_user_input_returns w user_input s1 Hr1) as [reply Hres].
  pose proof (proj1 (process_user_input_moved w user_input s1)) as Hm.
  cbv zeta in Hm.
  exists reply. split; [exact Hres|].
  unfold send. cbv [bind gets modify]. fold s1.
  destruct (process_user_input w user_input s1) as [s2 evs2 r2].
  cbn [result store] in Hres, Hm. subst r2.
  cbn [store result messages set_messages]. rewrite Hm.
  split; [|reflexivity].
  unfold s1. destruct s as [ms info stage qs qi ended].
  cbn [messages set_messages]. rewrite <- app_assoc. reflexivity.
Qed.

Lemma send_appends_the_turn_witness :
  reachable (set_messages ["TalentScout: Hello!"] initial_state)
  /\ exists reply,
       result (process_user_input offline_world "hey"
                 (set_messages ["TalentScout: Hello!"; "You: hey"] initial_state))
       = inr reply
       /\ messages (store (send offline_world "hey"
                             (set_messages ["TalentScout: Hello!"] initial_state)))
          = ["TalentScout: Hello!"; "You: hey"; String.append "TalentScout: " reply].
Proof.
  assert (Hr : reachable (set_messages ["TalentScout: Hello!"] initial_state))
    by exact (reach_transcript _ _ reach_init).
  split; [exact Hr|].
  destruct (send_appends_the_turn offline_world "hey"
              (set_messages ["TalentScout: Hello!"] initial_state) Hr)
    as (reply & H1 & H2 & _).
  exists reply. split; [exact H1 | exact H2].
Defined.

(** ** The same input twice *)

Ltac split_all :=
  repeat match goal with
  | H : context [if ?c then _ else _] |- _ => let E := fresh "E" in destruct c eqn:E
  | H : context [match findall ?r ?t with _ => _ end] |- _ =>
      let E := fresh "E" in destruct (findall r t) eqn:E
  | H : context [match first_experience ?r ?t with _ => _ end] |- _ =>
      let E := fresh "E" in destruct (first_experience r t) eqn:E
  | H : context [match first_title ?r ?t with _ => _ end] |- _ =>
      let E := fresh "E" in destruct (first_title r t) eqn:E
  | H : context [match filter ?f ?l with _ => _ end] |- _ =>
      let E := fresh "E" in destruct (filter f l) eqn:E
  end.

Ltac split_goal :=
  repeat match goal with
  | |- context [if ?c then _ else _] => let E := fresh "E" in destruct c eqn:E
  | |- context [match findall ?r ?t with _ => _ end] =>
      let E := fresh "E" in destruct (findall r t) eqn:E
  | |- context [match first_experience ?r ?t with _ => _ end] =>
      let E := fresh "E" in destruct (first_experience r t) eqn:E
  | |- context [match first_title ?r ?t with _ => _ end] =>
      let E := fresh "E" in destruct (first_title r t) eqn:E
  | |- context [match filter ?f ?l with _ => _ end] =>
      let E := fresh "E" in destruct (filter f l) eqn:E
  end.

Ltac stable j :=
  let H := fresh "H" in
  intros H; cbv zeta in *;
  destruct j as [n e p x q l t];
  cbn [name email phone experience position tech_stack] in *;
  split_all;
  cbn [name email phone experience position tech_stack
       set_name set_email set_phone set_experience set_position set_tech_stack] in *;
  subst;
  split_goal;
  cbn [name email phone experience position location tech_stack
       set_name set_email set_phone set_experience set_position set_tech_stack] in *;
  try reflexivity; try congruence.

Lemma extract_name_stable user_input stage i j :
  name j = name (extract_name user_input stage i) ->
  extract_name user_input stage j = j.
Proof. unfold extract_name. stable j. Qed.

Lemma extract_email_stable user_input i j :
  email j = email (extract_email user_input i) ->
  extract_email user_input j = j.
Proof. unfold extract_email. stable j. Qed.

Lemma extract_phone_stable user_input i j :
  phone j = phone (extract_phone user_input i) ->
  extract_phone user_input j = j.
Proof. unfold extract_phone. stable j. Qed.

Lemma extract_experience_stable user_input i j :
  experience j = experience (extract_experience user_input i) ->
  extract_experience user_input j = j.
Proof. unfold extract_experience. stable j. Qed.

Lemma extract_position_stable user_input i j :
  position j = position (extract_position user_input i) ->
  extract_position user_input j = j.
Proof. unfold extract_position. stable j. Qed.

Lemma extract_tech_stack_stable user_input stage i j :
  tech_stack j = tech_stack (extract_tech_stack user_input stage i) ->
  extract_tech_stack user_input stage j = j.
Proof. unfold extract_tech_stack. stable j. Qed.

Lemma extract_name_field user_input info stage :
  in_list stage extraction_stages = true ->
  name (extract_candidate_info user_input info stage)
  = name (extract_name user_input stage info).
Proof.
  intros Hst. unfold extract_candidate_info. rewrite Hst. cbn [negb]. cbv zeta.
  rewrite (proj1 (extract_tech_stack_others _ _ _)).
  rewrite (proj1 (extract_position_others _ _)).
  rewrite (proj1 (extract_experience_others _ _)).
  rewrite (proj1 (extract_phone_others _ _)).
  rewrite (proj1 (extract_email_others _ _)).
  reflexivity.
Qed.

Lemma extract_position_field user_input info stage :
  in_list stage extraction_stages = true ->
  position (extract_candidate_info user_input info stage)
  = position
      (extract_position user_input
         (extract_experience user_input
            (extract_phone user_input
               (extract_email user_input (extract_name user_input stage info))))).
Proof.
  intros Hst. unfold extract_candidate_info. rewrite Hst. cbn [negb]. cbv zeta.
  rewrite (proj1 (proj2 (proj2 (proj2 (proj2 (extract_tech_stack_others _ _ _)))))).
  reflexivity.
Qed.

(** X17.  Extraction is idempotent: handing the same input to
    [extract_candidate_info] a second time, in the same stage, changes
    nothing more in the profile. *)
Theorem extraction_is_idempotent (user_input : string) (info : CandidateInfo)
    (stage : string) :
  extract_candidate_info user_input
    (extract_candidate_info user_input info stage) stage
  = extract_candidate_info user_input info stage.
Proof.
  destruct (in_list stage extraction_stages) eqn:Hst;
    [|rewrite !extract_outside_stages by exact Hst; reflexivity].
  pose proof (extract_name_field user_input info stage Hst) as Hn.
  pose proof (extract_email_field user_input info stage Hst) as He.
  pose proof (extract_phone_field user_input info stage Hst) as Hp.
  pose proof (extract_experience_field user_input info stage Hst) as Hx.
  pose proof (extract_position_field user_input info stage Hst) as Hq.
  assert (Ht : tech_stack (extract_candidate_info user_input info stage)
               = tech_stack
                   (extract_tech_stack user_input stage
                      (extract_position user_input
                         (extract_experience user_input
                            (extract_phone user_input
                               (extract_email user_input
                                  (extract_name user_input stage info))))))).
  { unfold extract_candidate_info. rewrite Hst. reflexivity. }
  set (j := extract_candidate_info user_input info stage) in *.
  unfold extract_candidate_info. rewrite Hst. cbn [negb]. cbv zeta.
  rewrite (extract_name_stable _ _ _ _ Hn).
  rewrite (extract_email_stable _ _ _ He).
  rewrite (extract_phone_stable _ _ _ Hp).
  rewrite (extract_experience_stable _ _ _ Hx).
  rewrite (extract_position_stable _ _ _ Hq).
  exact (extract_tech_stack_stable _ _ _ _ Ht).
Qed.

(** ** The shape of what extraction stores *)

Lemma email_match_shape prev s ps rest :
  atoms_match (atoms email_pattern) prev s ps rest ->
  exists l d t,
    ps = [""; l; "@"; d; "."; t; ""]
    /\ (all_in email_local l = true /\ 1 <= String.length l)
    /\ (all_in email_domain d = true /\ 1 <= String.length d)
    /\ (all_in email_tld t = true /\ 2 <= String.length t).
Proof.
  unfold email_pattern, atoms, Lit, Plus. intros H.
  repeat match goal with
  | H : atoms_match (_ :: _) _ _ _ _ |- _ => inversion H; subst; clear H
  | H : atoms_match [] _ _ _ _ |- _ => inversion H; subst; clear H
  end.
  repeat match goal with
  | H : any_char (fun c => negb (Ascii.eqb ?a c)) ?w = false,
    H1 : 1 <= String.length ?w,
    H2 : forall h, Some 1 = Some h -> String.length ?w <= h |- _ =>
      pose proof (lit_piece a w H H1 (H2 1 eq_refl)); subst w; clear H H1 H2
  end.
  do 3 eexists. split; [reflexivity|].
  unfold all_in. rewrite !negb_true_iff. auto.
Qed.

(** X18.  When extraction sets the email, the value it stores is a
    non-empty local part, an [@], a non-empty domain, a dot and a last part
    of at least two characters, each made of the characters of its class
    only. *)
Theorem extracted_email_has_the_shape (user_input : string) (info : CandidateInfo)
    (stage : string) :
  email (extract_candidate_info user_input info stage) = email info
  \/ exists l d t,
       email (extract_candidate_info user_input info stage)
       = Some (l ++ "@" ++ d ++ "." ++ t)
       /\ (all_in email_local l = true /\ 1 <= String.length l)
       /\ (all_in email_domain d = true /\ 1 <= String.length d)
       /\ (all_in email_tld t = true /\ 2 <= String.length t).
Proof.
  destruct (in_list stage extraction_stages) eqn:Hst;
    [|left; rewrite extract_outside_stages by exact Hst; reflexivity].
  rewrite extract_email_field by exact Hst.
  pose proof (proj1 (extract_name_others user_input stage info)) as Hi.
  cbv zeta in Hi. set (i1 := extract_name user_input stage info) in *.
  unfold extract_email.
  match goal with
  | |- context [if ?c then _ else _] => destruct c; [|left; exact Hi]
  end.
  destruct (findall email_pattern user_input) as [|m ms] eqn:Ef; [left; exact Hi|].
  right.
  destruct (findall_head_match _ _ _ _ Ef) as (pre & ps & rest & Hs & ->).
  destruct (search_sound _ _ _ _ _ _ Hs) as [_ Hm].
  destruct (email_match_shape _ _ _ _ Hm) as (l & d & t & -> & Hl & Hd & Ht).
  exists l, d, t. split; [|auto].
  cbn [email set_email]. unfold reported, whole.
  cbn [group email_pattern fold_right append].
  rewrite !append_nil_r. reflexivity.
Qed.

Lemma substring_length n : forall m s, String.length (substring n m s) <= m.
Proof.
  induction n as [|n IH]; intros m s.
  - revert s. induction m as [|m IHm]; intros [|c s]; simpl; try lia.
    specialize (IHm s). lia.
  - destruct s as [|c s]; simpl; [destruct m; simpl; lia | apply IH].
Qed.

Lemma lstrip_length s : String.length (lstrip s) <= String.length s.
Proof.
  induction s as [|c s IH]; simpl; [lia|].
  destruct (is_space c); simpl; lia.
Qed.

Lemma rstrip_length s : String.length (rstrip s) <= String.length s.
Proof.
  induction s as [|c s IH]; simpl; [lia|].
  destruct (rstrip s); [destruct (is_space c)|]; simpl in *; lia.
Qed.

Lemma first_title_length titles user_input p :
  first_title titles user_input = Some p -> String.length p <= 50.
Proof.
  induction titles as [|title titles IH]; cbn [first_title]; [discriminate|].
  destruct (contains title (lower user_input)); [|exact IH].
  destruct (find title (lower user_input)) as [index|]; [|discriminate].
  cbv zeta. intros H. injection H as <-.
  unfold strip, slice.
  pose proof (rstrip_length
                (lstrip (substring (index - 20)
                           (Nat.min (String.length user_input) (index + 30)
                            - (index - 20)) user_input))).
  pose proof (lstrip_length
                (substring (index - 20)
                   (Nat.min (String.length user_input) (index + 30) - (index - 20))
                   user_input)).
  pose proof (substring_length (index - 20)
                (Nat.min (String.length user_input) (index + 30) - (index - 20))
                user_input).
  lia.
Qed.

(** X19.  When extraction sets the position, the value it stores is at
    most fifty characters long: the window of twenty characters before and
    thirty from the start of the job title, trimmed. *)
Theorem extracted_position_is_a_short_window (user_input : string)
    (info : CandidateInfo) (stage : string) :
  position (extract_candidate_info user_input info stage) = position info
  \/ exists p,
       position (extract_candidate_info user_input info stage) = Some p
       /\ String.length p <= 50.
Proof.
  destruct (in_list stage extraction_stages) eqn:Hst;
    [|left; rewrite extract_outside_stages by exact Hst; reflexivity].
  rewrite extract_position_field by exact Hst.
  set (i4 := extract_experience user_input _).
  assert (Hi : position i4 = position info).
  { unfold i4.
    rewrite (proj1 (proj2 (proj2 (proj2 (extract_experience_others _ _))))).
    rewrite (proj1 (proj2 (proj2 (proj2 (extract_phone_others _ _))))).
    rewrite (proj1 (proj2 (proj2 (proj2 (extract_email_others _ _))))).
    exact (proj1 (proj2 (proj2 (proj2 (extract_name_others _ _ _))))). }
  unfold extract_position. cbv zeta.
  match goal with
  | |- context [if ?c then _ else _] => destruct c; [|left; exact Hi]
  end.
  destruct (first_title job_titles user_input) as [p|] eqn:Ep; [|left; exact Hi].
  right. exists p. split; [reflexivity|].
  exact (first_title_length _ _ _ Ep).
Qed.

Example names_with_a_greeting_inside :
  name (extract_candidate_info "Sophia Lind" initial_info "greeting") = None
  /\ name (extract_candidate_info "My name is Jane Roe" initial_info "greeting")
     = Some "My name is"
  /\ name (extract_candidate_info "Al" initial_info "greeting") = None.
Proof. repeat split; vm_compute; reflexivity. Qed.

(** ** The email validator *)

Example email_validator_examples :
  validate_email (Some "jane@roe.org and whatever follows")
  = inr (Some "jane@roe.org and whatever follows")
  /\ validate_email (Some "mail: jane@roe.org") = inl (ValueError "Invalid email format").
Proof. split; vm_compute; reflexivity. Qed.

(** * The extractor and the validators on every text *)

(** ** What a session holds as email and as phone *)

Lemma truthy_not_empty (v : option string) : truthy v = true -> v <> Some "".
Proof. intros H ->. discriminate. Qed.

Lemma not_empty_truthy (v : option string) : v <> Some "" -> v <> None -> truthy v = true.
Proof. destruct v as [[|c s]|]; intros H1 H2; try reflexivity; contradiction. Qed.

Lemma extraction_email_set user_input info stage :
  email info <> Some "" ->
  email (extract_candidate_info user_input info stage) <> Some "".
Proof.
  intros H.
  destruct (in_list stage extraction_stages) eqn:Hst;
    [|rewrite extract_outside_stages by exact Hst; exact H].
  rewrite extract_email_field by exact Hst.
  pose proof (proj1 (extract_name_others user_input stage info)) as Hi.
  cbv zeta in Hi. set (i1 := extract_name user_input stage info) in *.
  unfold extract_email.
  match goal with
  | |- context [if ?c then _ else _] => destruct c; [|rewrite Hi; exact H]
  end.
  destruct (findall email_pattern user_input) as [|m ms] eqn:Ef; [rewrite Hi; exact H|].
  destruct (findall_head_match _ _ _ _ Ef) as (pre & ps & rest & Hs & ->).
  destruct (search_sound _ _ _ _ _ _ Hs) as [_ Hm].
  destruct (email_match_shape _ _ _ _ Hm) as (l & d & t & -> & [_ Hl] & _).
  cbn [email set_email]. unfold reported, whole.
  cbn [group email_pattern fold_right append].
  destruct l; [simpl in Hl; lia | discriminate].
Qed.

Lemma extraction_phone_set user_input info stage :
  phone info <> Some "" ->
  phone (extract_candidate_info user_input info stage) <> Some "".
Proof.
  intros H.
  destruct (in_list stage extraction_stages) eqn:Hst;
    [|rewrite extract_outside_stages by exact Hst; exact H].
  rewrite extract_phone_field by exact Hst.
  set (i2 := extract_email user_input _).
  assert (Hi : phone i2 = phone info).
  { unfold i2. rewrite (proj1 (proj2 (extract_email_others _ _))).
    exact (proj1 (proj2 (extract_name_others _ _ _))). }
  unfold extract_phone.
  match goal with
  | |- context [if ?c then _ else _] => destruct c; [|rewrite Hi; exact H]
  end.
  destruct (findall phone_pattern user_input) as [|m ms] eqn:Ef; [rewrite Hi; exact H|].
  destruct (findall_head_match _ _ _ _ Ef) as (pre & ps & rest & Hs & ->).
  destruct (search_sound _ _ _ _ _ _ Hs) as [_ Hm].
  pose proof (phone_match_digits _ _ _ _ Hm) as Hd.
  cbn [phone set_phone]. unfold reported. cbn [group phone_pattern].
  destruct (whole ps); [simpl in Hd; lia | discriminate].
Qed.

(** In a session the email and the phone are [None] or a match of their
    pattern: never the empty text. *)
Lemma session_fields_are_never_empty s :
  reachable s ->
  email (candidate_info s) <> Some "" /\ phone (candidate_info s) <> Some "".
Proof.
  induction 1 as [|s w user_input Hr IH|s msgs Hr IH].
  - split; discriminate.
  - destruct (process_user_input_moved w user_input s) as
      (_ & [Heq | [(_ & Hi & _) | (_ & Hi & _)]]).
    + rewrite Heq. exact IH.
    + rewrite Hi. exact IH.
    + rewrite Hi. destruct IH as [IH1 IH2].
      split; [apply extraction_email_set, IH1 | apply extraction_phone_set, IH2].
  - destruct s; exact IH.
Qed.

Lemma extraction_email_kept user_input info stage :
  truthy (email info) = true ->
  email (extract_candidate_info user_input info stage) = email info.
Proof.
  intros Ht. destruct (in_list stage extraction_stages) eqn:Hst.
  - rewrite extract_email_field by exact Hst.
    rewrite extract_email_kept;
      rewrite (proj1 (extract_name_others _ _ _)); [reflexivity | exact Ht].
  - rewrite extract_outside_stages by exact Hst. reflexivity.
Qed.

(** In a session an email that is set stays as it is, whatever the
    candidate writes afterwards. *)
Lemma session_email_is_kept w user_input s :
  reachable s ->
  email (candidate_info s) <> None ->
  email (candidate_info (store (process_user_input w user_input s)))
  = email (candidate_info s).
Proof.
  intros Hr Hn.
  pose proof (proj1 (session_fields_are_never_empty s Hr)) as He.
  pose proof (not_empty_truthy _ He Hn) as Ht.
  destruct (process_user_input_moved w user_input s) as
    (_ & [Heq | [(_ & Hi & _) | (_ & Hi & _)]]).
  - rewrite Heq. reflexivity.
  - rewrite Hi. reflexivity.
  - rewrite Hi. apply extraction_email_kept, Ht.
Qed.

(** ** The matcher and the steps of the extractor *)

Section AnyText.

Import Py.
Local Open Scope list_scope.

Variable T : Tables.

Lemma py_run_le_length cls s : run_length cls s <= List.length s.
Proof.
  induction s as [|c s IH]; simpl; [lia|]. destruct (cls c); lia.
Qed.

Lemma py_firstn_in_class cls k : forall s,
  k <= run_length cls s -> forallb cls (firstn k s) = true.
Proof.
  induction k as [|k IH]; intros [|c s] H; simpl in *; try reflexivity; try lia.
  destruct (cls c); simpl; [apply IH; lia | lia].
Qed.

Lemma py_run_app cls w s :
  forallb cls w = true -> List.length w <= run_length cls (w ++ s).
Proof.
  induction w as [|c w IH]; simpl; intros H; [lia|].
  apply andb_true_iff in H. destruct H as [Hc Hw].
  rewrite Hc. specialize (IH Hw). lia.
Qed.

Lemma py_capped_le hi n : capped hi n <= n.
Proof. destruct hi; simpl; lia. Qed.

Lemma py_capped_bound hi n h : hi = Some h -> capped hi n <= h.
Proof. intros ->. simpl. lia. Qed.

Lemma py_le_capped hi n k :
  k <= n -> (forall h, hi = Some h -> k <= h) -> k <= capped hi n.
Proof.
  intros Hn Hh. destruct hi as [h|]; simpl; [|exact Hn].
  specialize (Hh h eq_refl). lia.
Qed.

Lemma py_firstn_app_length (w s : text) : firstn (List.length w) (w ++ s) = w.
Proof. induction w as [|c w IH]; simpl; [reflexivity|]. rewrite IH. reflexivity. Qed.

Lemma py_skipn_app_length (w s : text) : skipn (List.length w) (w ++ s) = s.
Proof. induction w as [|c w IH]; simpl; [reflexivity|]. exact IH. Qed.

Lemma py_give_back_sound go_on s n ps rest :
  give_back go_on s n = Some (ps, rest) ->
  exists k ps', k <= n /\ go_on k = Some (ps', rest) /\ ps = firstn k s :: ps'.
Proof.
  induction n as [|n IH]; simpl; intros H.
  - destruct (go_on 0) as [[ps' r]|] eqn:E; [|discriminate].
    injection H as <- <-. exists 0, ps'. auto.
  - destruct (go_on (S n)) as [[ps' r]|] eqn:E.
    + injection H as <- <-. exists (S n), ps'. auto.
    + destruct (IH H) as (k & ps' & Hk & Hgo & Hps).
      exists k, ps'. auto.
Qed.

Lemma py_give_back_complete go_on s n k x :
  k <= n -> go_on k = Some x -> exists y, give_back go_on s n = Some y.
Proof.
  induction n as [|n IH]; intros Hk Hgo.
  - assert (k = 0) as -> by lia. simpl. rewrite Hgo. destruct x. eauto.
  - simpl. destruct (go_on (S n)) as [[ps' r]|] eqn:E; [eauto|].
    apply IH; [|exact Hgo].
    destruct (Nat.eq_dec k (S n)) as [->|]; [congruence|lia].
Qed.

Lemma py_give_back_ext g g' s : forall n,
  (forall k, g k = g' k) -> give_back g s n = give_back g' s n.
Proof.
  intros n Hg. induction n as [|n IH]; simpl; rewrite <- Hg;
    destruct (g _) as [[ps r]|]; try reflexivity.
  exact IH.
Qed.

Lemma py_match_atoms_sound wd p : forall prev s ps rest,
  match_atoms wd p prev s = Some (ps, rest) -> atoms_match wd p prev s ps rest.
Proof.
  induction p as [|a p IH]; intros prev s ps rest H.
  - simpl in H. injection H as <- <-. constructor.
  - destruct a as [cls lo hi|].
    + simpl in H. apply py_give_back_sound in H.
      destruct H as (k & ps' & Hk & Hgo & ->).
      destruct (Nat.leb_spec lo k) as [Hlo|]; [|discriminate].
      apply IH in Hgo.
      assert (Hrun : k <= run_length cls s).
      { pose proof (py_capped_le hi (run_length cls s)). lia. }
      pose proof (py_run_le_length cls s) as Hlen.
      pose proof (AM_rep wd cls lo hi p prev (firstn k s) (skipn k s) ps' rest) as Hm.
      rewrite firstn_skipn in Hm. apply Hm.
      * apply py_firstn_in_class, Hrun.
      * rewrite length_firstn. lia.
      * intros h Hh. rewrite length_firstn.
        pose proof (py_capped_bound hi (run_length cls s) h Hh). lia.
      * exact Hgo.
    + simpl in H. destruct (boundary wd prev s) eqn:B; [|discriminate].
      destruct (match_atoms wd p prev s) as [[ps' r]|] eqn:E; [|discriminate].
      injection H as <- <-. constructor; [exact B|].
      apply IH, E.
Qed.

Lemma py_match_atoms_complete wd p prev s ps rest :
  atoms_match wd p prev s ps rest ->
  exists ps' rest', match_atoms wd p prev s = Some (ps', rest').
Proof.
  induction 1 as [prev s | p prev s ps rest B _ IH
                  | cls lo hi p prev w s ps rest Hc Hlo Hhi _ IH].
  - simpl. eauto.
  - destruct IH as (ps' & rest' & E). simpl. rewrite B, E. eauto.
  - destruct IH as (ps' & rest' & E). simpl.
    match goal with
    | |- context [give_back ?g ?t ?n] =>
        destruct (py_give_back_complete g t n (List.length w) (ps', rest'))
          as [[ps2 r2] Hy]
    end.
    + apply py_le_capped; [apply py_run_app, Hc | exact Hhi].
    + cbv beta. rewrite (proj2 (Nat.leb_le _ _) Hlo).
      rewrite py_firstn_app_length, py_skipn_app_length. exact E.
    + eauto.
Qed.

Lemma py_atoms_match_whole wd p prev s ps rest :
  atoms_match wd p prev s ps rest -> s = concat ps ++ rest.
Proof.
  induction 1 as [prev s | p prev s ps rest B _ IH
                  | cls lo hi p prev w s ps rest Hc Hlo Hhi _ IH].
  - reflexivity.
  - exact IH.
  - cbn [concat]. rewrite <- app_assoc, <- IH. reflexivity.
Qed.

Lemma py_search_sound wd p : forall s prev pre ps rest,
  search wd p prev s = Some (pre, ps, rest) ->
  s = pre ++ concat ps ++ rest
  /\ atoms_match wd p (last_char prev pre) (concat ps ++ rest) ps rest.
Proof.
  induction s as [|a s IH]; intros prev pre ps rest H; cbn [search] in H;
    destruct (match_atoms wd p prev _) as [[ps' r]|] eqn:E.
  - injection H as <- <- <-. apply py_match_atoms_sound in E.
    pose proof (py_atoms_match_whole _ _ _ _ _ _ E) as Hw. cbn [app last_char].
    rewrite <- Hw. split; [reflexivity | exact E].
  - discriminate.
  - injection H as <- <- <-. apply py_match_atoms_sound in E.
    pose proof (py_atoms_match_whole _ _ _ _ _ _ E) as Hw. cbn [app last_char].
    rewrite <- Hw. split; [reflexivity | exact E].
  - destruct (search wd p (Some a) s) as [[[pre' ps2] r2]|] eqn:E2; [|discriminate].
    injection H as <- <- <-. destruct (IH _ _ _ _ E2) as [Hs Hm].
    cbn [app last_char]. split; [rewrite <- Hs; reflexivity | exact Hm].
Qed.

Lemma py_search_leftmost wd p : forall s prev pre ps rest,
  search wd p prev s = Some (pre, ps, rest) ->
  forall pre' m' post' ps',
    s = pre' ++ m' ++ post' ->
    atoms_match wd p (last_char prev pre') (m' ++ post') ps' post' ->
    List.length pre <= List.length pre'.
Proof.
  induction s as [|a s IH]; intros prev pre ps rest H pre' m' post' ps' Hs Hm;
    cbn [search] in H; destruct (match_atoms wd p prev _) as [[ps0 r]|] eqn:E.
  - injection H as <- <- <-. simpl. lia.
  - discriminate.
  - injection H as <- <- <-. simpl. lia.
  - destruct (search wd p (Some a) s) as [[[pre0 ps2] r2]|] eqn:E2; [|discriminate].
    injection H as <- <- <-.
    destruct pre' as [|c pre'].
    + exfalso. cbn [app last_char] in Hs, Hm. rewrite <- Hs in Hm.
      destruct (py_match_atoms_complete _ _ _ _ _ _ Hm) as (x & y & Hx). congruence.
    + cbn [app] in Hs. injection Hs as <- Hs.
      cbn [last_char] in Hm. simpl.
      pose proof (IH _ _ _ _ E2 _ _ _ _ Hs Hm). lia.
Qed.

Lemma py_search_complete wd p : forall pre s prev m post ps,
  s = pre ++ m ++ post ->
  atoms_match wd p (last_char prev pre) (m ++ post) ps post ->
  exists r, search wd p prev s = Some r.
Proof.
  induction pre as [|c pre IH]; intros s prev m post ps Hs Hm.
  - cbn [app last_char] in Hs, Hm. rewrite <- Hs in Hm.
    destruct (py_match_atoms_complete _ _ _ _ _ _ Hm) as (x & y & Hx).
    destruct s; cbn [search]; rewrite Hx; eauto.
  - cbn [app] in Hs. subst s. cbn [search].
    destruct (match_atoms wd p prev _) as [[ps0 r]|]; [eauto|].
    cbn [last_char] in Hm.
    destruct (IH _ (Some c) m post ps eq_refl Hm) as [[[pre0 ps2] r2] Hr].
    rewrite Hr. eauto.
Qed.

Lemma py_search_occurs wd p user_input pre ps post :
  search wd p None user_input = Some (pre, ps, post) ->
  occurs wd p user_input pre (concat ps) post.
Proof.
  intros H. destruct (py_search_sound _ _ _ _ _ _ _ H) as [Hs Hm].
  split; [exact Hs|]. exists ps. split; [exact Hm | reflexivity].
Qed.

Lemma py_findall_scan_head wd r : forall s prev,
  hd_error (findall_scan wd r 0 prev s)
  = match search wd (atoms r) prev s with
    | Some (_, ps, _) => Some (reported r ps)
    | None => None
    end.
Proof.
  induction s as [|a s IH]; intros prev; cbn [findall_scan search];
    destruct (match_atoms wd (atoms r) prev _) as [[ps rest]|]; try reflexivity.
  rewrite IH. destruct (search wd (atoms r) (Some a) s) as [[[pre ps] rest]|]; reflexivity.
Qed.

Lemma py_findall_head_match r s m ms :
  findall T r s = m :: ms ->
  exists pre ps rest,
    search (word T) (atoms r) None s = Some (pre, ps, rest) /\ m = reported r ps.
Proof.
  intros H. pose proof (py_findall_scan_head (word T) r s None) as Hh.
  unfold findall in H. rewrite H in Hh. cbn [hd_error] in Hh.
  destruct (search (word T) (atoms r) None s) as [[[pre ps] rest]|]; [|discriminate].
  injection Hh as ->. eauto.
Qed.

(** Two patterns whose classes agree on the characters of a text match it
    alike. *)
Lemma py_run_length_agree (P : nat -> Prop) cls cls' s :
  (forall c, P c -> cls c = cls' c) -> Forall P s ->
  run_length cls s = run_length cls' s.
Proof.
  intros Hc Hs. induction Hs as [|c s Hp _ IH]; simpl; [reflexivity|].
  rewrite <- (Hc c Hp), IH. reflexivity.
Qed.

Lemma py_Forall_skipn (P : nat -> Prop) k : forall s, Forall P s -> Forall P (skipn k s).
Proof.
  induction k as [|k IH]; intros s H; [exact H|].
  destruct H as [|c s Hp Hs]; simpl; [constructor | apply IH, Hs].
Qed.

Lemma py_match_atoms_agree (P : nat -> Prop) wd p p' :
  Forall2 (atom_agree P) p p' ->
  forall prev s, Forall P s -> match_atoms wd p prev s = match_atoms wd p' prev s.
Proof.
  induction 1 as [|a a' p p' Ha _ IH]; intros prev s Hs; [reflexivity|].
  destruct a as [cls lo hi|], a' as [cls' lo' hi'|]; simpl in Ha; try contradiction.
  - destruct Ha as (<- & <- & Hc). cbn [match_atoms].
    rewrite (py_run_length_agree P cls cls' s Hc Hs).
    apply py_give_back_ext. intros k.
    destruct (lo <=? k); [|reflexivity].
    apply IH, py_Forall_skipn, Hs.
  - cbn [match_atoms]. rewrite (IH prev s Hs). reflexivity.
Qed.

Lemma py_search_agree (P : nat -> Prop) wd p p' :
  Forall2 (atom_agree P) p p' ->
  forall s prev, Forall P s -> search wd p prev s = search wd p' prev s.
Proof.
  intros Hp. induction s as [|c s IH]; intros prev Hs; cbn [search];
    rewrite (py_match_atoms_agree P wd p p' Hp prev _ Hs); [reflexivity|].
  inversion Hs; subst. rewrite IH by assumption. reflexivity.
Qed.

(** *** The pieces of an email *)

Lemma py_lit_piece a w :
  forallb (Nat.eqb a) w = true ->
  1 <= List.length w -> List.length w <= 1 ->
  w = [a].
Proof.
  destruct w as [|c [|d w]]; simpl; intros Hc H1 H2; try lia.
  rewrite andb_true_r in Hc. apply Nat.eqb_eq in Hc.
  subst. reflexivity.
Qed.

Lemma py_contains_char c (s : text) : contains [c] s = true <-> In c s.
Proof.
  induction s as [|x s IH]; simpl.
  - split; [discriminate | contradiction].
  - rewrite orb_true_iff, IH, andb_true_r, Nat.eqb_eq. split; intros [H|H]; auto.
Qed.

Lemma py_email_match_pieces wd prev s ps rest :
  atoms_match wd (atoms email_pattern) prev s ps rest ->
  exists l d t,
    ps = [[]; l; lit "@"; d; lit "."; t; []]
    /\ (forallb email_local l = true /\ 1 <= List.length l)
    /\ (forallb email_domain d = true /\ 1 <= List.length d)
    /\ (forallb email_tld t = true /\ 2 <= List.length t).
Proof.
  unfold email_pattern, atoms, Lit, Plus. intros H.
  repeat match goal with
  | H : atoms_match _ (_ :: _) _ _ _ _ |- _ => inversion H; subst; clear H
  | H : atoms_match _ [] _ _ _ _ |- _ => inversion H; subst; clear H
  end.
  repeat match goal with
  | H : forallb _ ?w = true,
    H1 : 1 <= List.length ?w,
    H2 : forall h, Some 1 = Some h -> List.length ?w <= h |- _ =>
      first [ pose proof (py_lit_piece (nat_of_ascii "@") w H H1 (H2 1 eq_refl))
            | pose proof (py_lit_piece (nat_of_ascii ".") w H H1 (H2 1 eq_refl)) ];
      subst w; clear H H1 H2
  end.
  do 3 eexists. split; [reflexivity|]. auto.
Qed.

Lemma py_email_occurrence_marks wd user_input pre m post :
  occurs wd (atoms email_pattern) user_input pre m post ->
  contains (lit "@") user_input = true /\ contains (lit ".") user_input = true.
Proof.
  intros [Hs (ps & Hm & Hw)].
  destruct (py_email_match_pieces _ _ _ _ _ Hm) as (l & d & t & -> & _).
  subst user_input. subst m.
  change (lit "@") with [64]. change (lit ".") with [46].
  rewrite !py_contains_char. cbn [concat app].
  repeat (rewrite in_app_iff; cbn [In]). split; auto 10.
Qed.

(** A text without [|] is matched by the pattern of the code exactly as by
    the shape with letters only. *)
Lemma py_email_patterns_agree :
  Forall2 (atom_agree (fun c => c <> 124)) (atoms email_pattern) bounded_email_shape.
Proof.
  unfold email_pattern, bounded_email_shape, email_shape, atoms, Lit, Plus.
  cbn [app].
  repeat constructor.
  intros c Hc. unfold email_tld, letter, one_of.
  cbn [lit list_ascii_of_string map existsb].
  change (nat_of_ascii "|") with 124.
  destruct (Nat.eqb_spec c 124) as [->|_]; [contradiction|].
  rewrite !orb_false_r. reflexivity.
Qed.

Lemma py_no_bar (s : text) : contains (lit "|") s = false -> Forall (fun c => c <> 124) s.
Proof.
  intros H. apply Forall_forall. intros c Hin ->.
  apply (py_contains_char 124 s) in Hin.
  change (lit "|") with [124] in H. congruence.
Qed.

(** *** What each step leaves alone *)

Ltac py_through_extractor :=
  repeat match goal with
  | |- context [if ?c then _ else _] => destruct c
  | |- context [match ?x with _ => _ end] => destruct x
  end; repeat split; reflexivity.

Lemma py_extract_name_others user_input stage info :
  let i := extract_name T user_input stage info in
  email i = email info /\ phone i = phone info /\ experience i = experience info
  /\ position i = position info /\ location i = location info
  /\ tech_stack i = tech_stack info.
Proof. unfold extract_name. cbv zeta. py_through_extractor. Qed.

Lemma py_extract_email_others user_input info :
  let i := extract_email T user_input info in
  name i = name info /\ phone i = phone info /\ experience i = experience info
  /\ position i = position info /\ location i = location info
  /\ tech_stack i = tech_stack info.
Proof. unfold extract_email. cbv zeta. py_through_extractor. Qed.

Lemma py_extract_phone_others user_input info :
  let i := extract_phone T user_input info in
  name i = name info /\ email i = email info /\ experience i = experience info
  /\ position i = position info /\ location i = location info
  /\ tech_stack i = tech_stack info.
Proof. unfold extract_phone. cbv zeta. py_through_extractor. Qed.

Lemma py_extract_experience_others user_input info :
  let i := extract_experience T user_input info in
  name i = name info /\ email i = email info /\ phone i = phone info
  /\ position i = position info /\ location i = location info
  /\ tech_stack i = tech_stack info.
Proof. unfold extract_experience. cbv zeta. py_through_extractor. Qed.

Lemma py_extract_position_others user_input info :
  let i := extract_position T user_input info in
  name i = name info /\ email i = email info /\ phone i = phone info
  /\ experience i = experience info /\ location i = location info
  /\ tech_stack i = tech_stack info.
Proof. unfold extract_position. cbv zeta. py_through_extractor. Qed.

Lemma py_extract_tech_stack_others user_input stage info :
  let i := extract_tech_stack T user_input stage info in
  name i = name info /\ email i = email info /\ phone i = phone info
  /\ experience i = experience info /\ position i = position info
  /\ location i = location info.
Proof. unfold extract_tech_stack. cbv zeta. py_through_extractor. Qed.

Lemma py_extract_outside_stages user_input info stage :
  DataHandling.in_list stage DataHandling.extraction_stages = false ->
  extract_candidate_info T user_input info stage = info.
Proof. intros H. unfold extract_candidate_info. rewrite H. reflexivity. Qed.

Lemma py_extract_name_field user_input info stage :
  DataHandling.in_list stage DataHandling.extraction_stages = true ->
  name (extract_candidate_info T user_input info stage)
  = name (extract_name T user_input stage info).
Proof.
  intros Hst. unfold extract_candidate_info. rewrite Hst. cbn [negb]. cbv zeta.
  rewrite (proj1 (py_extract_tech_stack_others _ _ _)).
  rewrite (proj1 (py_extract_position_others _ _)).
  rewrite (proj1 (py_extract_experience_others _ _)).
  rewrite (proj1 (py_extract_phone_others _ _)).
  rewrite (proj1 (py_extract_email_others _ _)).
  reflexivity.
Qed.

Lemma py_extract_email_field user_input info stage :
  DataHandling.in_list stage DataHandling.extraction_stages = true ->
  email (extract_candidate_info T user_input info stage)
  = email (extract_email T user_input (extract_name T user_input stage info)).
Proof.
  intros Hst. unfold extract_candidate_info. rewrite Hst. cbn [negb]. cbv zeta.
  rewrite (proj1 (proj2 (py_extract_tech_stack_others _ _ _))).
  rewrite (proj1 (proj2 (py_extract_position_others _ _))).
  rewrite (proj1 (proj2 (py_extract_experience_others _ _))).
  rewrite (proj1 (proj2 (py_extract_phone_others _ _))).
  reflexivity.
Qed.

Lemma py_extract_phone_field user_input info stage :
  DataHandling.in_list stage DataHandling.extraction_stages = true ->
  phone (extract_candidate_info T user_input info stage)
  = phone (extract_phone T user_input
             (extract_email T user_input (extract_name T user_input stage info))).
Proof.
  intros Hst. unfold extract_candidate_info. rewrite Hst. cbn [negb]. cbv zeta.
  rewrite (proj1 (proj2 (proj2 (py_extract_tech_stack_others _ _ _)))).
  rewrite (proj1 (proj2 (proj2 (py_extract_position_others _ _)))).
  rewrite (proj1 (proj2 (proj2 (py_extract_experience_others _ _)))).
  reflexivity.
Qed.

Lemma py_extract_experience_field user_input info stage :
  DataHandling.in_list stage DataHandling.extraction_stages = true ->
  experience (extract_candidate_info T user_input info stage)
  = experience (extract_experience T user_input
                  (extract_phone T user_input
                     (extract_email T user_input
                        (extract_name T user_input stage info)))).
Proof.
  intros Hst. unfold extract_candidate_info. rewrite Hst. cbn [negb]. cbv zeta.
  rewrite (proj1 (proj2 (proj2 (proj2 (py_extract_tech_stack_others _ _ _))))).
  rewrite (proj1 (proj2 (proj2 (proj2 (py_extract_position_others _ _))))).
  reflexivity.
Qed.

Lemma py_extract_email_found user_input info pre ps post :
  truthy (email info) = false ->
  search (word T) (atoms email_pattern) None user_input = Some (pre, ps, post) ->
  extract_email T user_input info = set_email (concat ps) info.
Proof.
  intros Hu Hs. unfold extract_email.
  destruct (py_email_occurrence_marks _ _ _ _ _ (py_search_occurs _ _ _ _ _ _ Hs))
    as [Hat Hdot].
  rewrite Hu, Hat, Hdot. cbn [negb andb].
  pose proof (py_findall_scan_head (word T) email_pattern user_input None) as Hh.
  rewrite Hs in Hh. unfold findall.
  destruct (findall_scan (word T) email_pattern 0 None user_input) as [|m ms];
    [discriminate|].
  injection Hh as ->. reflexivity.
Qed.

Lemma py_extract_email_kept user_input info :
  truthy (email info) = true -> extract_email T user_input info = info.
Proof. intros H. unfold extract_email. rewrite H. reflexivity. Qed.

(** What extraction stores as email or as phone is never the empty text. *)
Lemma py_extract_email_stores user_input info :
  email (extract_email T user_input info) = email info
  \/ truthy (email (extract_email T user_input info)) = true.
Proof.
  unfold extract_email.
  match goal with
  | |- context [if ?c then _ else _] => destruct c; [|left; reflexivity]
  end.
  destruct (findall T email_pattern user_input) as [|m ms] eqn:Ef; [left; reflexivity|].
  right.
  destruct (py_findall_head_match _ _ _ _ Ef) as (pre & ps & rest & Hs & ->).
  destruct (py_search_sound _ _ _ _ _ _ _ Hs) as [_ Hm].
  destruct (py_email_match_pieces _ _ _ _ _ Hm) as (l & d & t & -> & [_ Hl] & _).
  cbn [email set_email]. unfold reported. cbn [group email_pattern concat app].
  destruct l; [simpl in Hl; lia | reflexivity].
Qed.

Lemma py_filter_all (p : nat -> bool) w : forallb p w = true -> filter p w = w.
Proof.
  induction w as [|c w IH]; simpl; intros H; [reflexivity|].
  apply andb_true_iff in H. destruct H as [Hc Hw].
  rewrite Hc, (IH Hw). reflexivity.
Qed.

Lemma py_phone_match_digits prev s ps rest :
  atoms_match (word T) (atoms (phone_pattern T)) prev s ps rest ->
  10 <= List.length (filter ascii_digit (concat ps)).
Proof.
  unfold phone_pattern, atoms, Opt. intros H.
  repeat match goal with
  | H : atoms_match _ (_ :: _) _ _ _ _ |- _ => inversion H; subst; clear H
  | H : atoms_match _ [] _ _ _ _ |- _ => inversion H; subst; clear H
  end.
  cbn [concat].
  repeat rewrite filter_app. repeat rewrite length_app.
  repeat match goal with
  | H : forallb ascii_digit ?w = true |- _ =>
      rewrite (py_filter_all ascii_digit w H); clear H
  end.
  lia.
Qed.

Lemma py_extract_phone_stores user_input info :
  phone (extract_phone T user_input info) = phone info
  \/ truthy (phone (extract_phone T user_input info)) = true.
Proof.
  unfold extract_phone.
  match goal with
  | |- context [if ?c then _ else _] => destruct c; [|left; reflexivity]
  end.
  destruct (findall T (phone_pattern T) user_input) as [|m ms] eqn:Ef;
    [left; reflexivity|].
  right.
  destruct (py_findall_head_match _ _ _ _ Ef) as (pre & ps & rest & Hs & ->).
  destruct (py_search_sound _ _ _ _ _ _ _ Hs) as [_ Hm].
  pose proof (py_phone_match_digits _ _ _ _ Hm) as Hd.
  cbn [phone set_phone]. unfold reported. cbn [group phone_pattern].
  destruct (concat ps); [simpl in Hd; lia | reflexivity].
Qed.

Lemma py_truthy_not_empty (v : option text) : truthy v = true -> v <> Some [].
Proof. intros H ->. discriminate. Qed.

Lemma py_extraction_email_set user_input info stage :
  email info <> Some [] ->
  email (extract_candidate_info T user_input info stage) <> Some [].
Proof.
  intros H.
  destruct (DataHandling.in_list stage DataHandling.extraction_stages) eqn:Hst;
    [|rewrite py_extract_outside_stages by exact Hst; exact H].
  rewrite py_extract_email_field by exact Hst.
  destruct (py_extract_email_stores user_input (extract_name T user_input stage info))
    as [E|E].
  - rewrite E, (proj1 (py_extract_name_others _ _ _)). exact H.
  - apply py_truthy_not_empty, E.
Qed.

Lemma py_extraction_phone_set user_input info stage :
  phone info <> Some [] ->
  phone (extract_candidate_info T user_input info stage) <> Some [].
Proof.
  intros H.
  destruct (DataHandling.in_list stage DataHandling.extraction_stages) eqn:Hst;
    [|rewrite py_extract_outside_stages by exact Hst; exact H].
  rewrite py_extract_phone_field by exact Hst.
  match goal with
  | |- phone (extract_phone T ?u ?i) <> _ =>
      destruct (py_extract_phone_stores u i) as [E|E]
  end.
  - rewrite E, (proj1 (proj2 (py_extract_email_others _ _))),
      (proj1 (proj2 (py_extract_name_others _ _ _))). exact H.
  - apply py_truthy_not_empty, E.
Qed.

Lemma py_extraction_email_kept user_input info stage :
  truthy (email info) = true ->
  email (extract_candidate_info T user_input info stage) = email info.
Proof.
  intros Ht.
  destruct (DataHandling.in_list stage DataHandling.extraction_stages) eqn:Hst.
  - rewrite py_extract_email_field by exact Hst.
    rewrite py_extract_email_kept;
      rewrite (proj1 (py_extract_name_others _ _ _)); [reflexivity | exact Ht].
  - rewrite py_extract_outside_stages by exact Hst. reflexivity.
Qed.

(** *** The experience *)

Lemma py_rep_first_piece wd cls lo hi p prev s ps rest :
  atoms_match wd (Rep cls lo hi :: p) prev s ps rest ->
  exists w ps', ps = w :: ps' /\ forallb cls w = true /\ lo <= List.length w.
Proof.
  intros H. inversion H; subst.
  eexists. eexists. split; [reflexivity|]. split; assumption.
Qed.

Lemma py_first_experience_shape lowered e :
  first_experience T (exp_patterns T) lowered = Some e ->
  exists d, e = d ++ lit " years" /\ d <> [] /\ forallb (decimal T) d = true.
Proof.
  unfold exp_patterns. cbn [first_experience].
  repeat match goal with
  | |- context [findall T ?r lowered] =>
      let Ef := fresh "Ef" in
      destruct (findall T r lowered) as [|m ms] eqn:Ef;
      [|intros H; injection H as <-;
        destruct (py_findall_head_match _ _ _ _ Ef) as (pre & ps & rest & Hs & ->);
        destruct (py_search_sound _ _ _ _ _ _ _ Hs) as [_ Hm];
        cbn [atoms exp_head app] in Hm; unfold Plus in Hm;
        destruct (py_rep_first_piece _ _ _ _ _ _ _ _ _ Hm) as (w & ps' & -> & Hw & Hl);
        exists w; unfold reported; cbn [group nth];
        split; [reflexivity|]; split; [|exact Hw];
        intros ->; simpl in Hl; lia]
  end.
  discriminate.
Qed.

End AnyText.

(** ** The email field *)

(** C5, as amended.  The pattern of the code asks for a word boundary
    immediately before and immediately after the match.  For every text
    without the character [|] that holds an occurrence of the email shape
    between two word boundaries, when extraction runs with the email unset,
    the email becomes the first such occurrence: the leftmost one, as the
    backtracking search for the shape finds it.  An email that is set is
    never changed: extraction keeps every email other than the empty text
    and never stores the empty text, so that in a session, where the email
    starts as [None], no call changes an email that is not [None]. *)
Theorem email_is_the_first_bounded_match (T : Py.Tables) (user_input : Py.text)
    (info : Py.CandidateInfo) (stage : string) :
  (in_list stage extraction_stages = true ->
   Py.email info = None ->
   Py.contains (Py.lit "|") user_input = false ->
   forall pre m post,
     Py.occurs (Py.word T) Py.bounded_email_shape user_input pre m post ->
     exists pre0 m0 post0,
       Py.occurs (Py.word T) Py.bounded_email_shape user_input pre0 m0 post0
       /\ (forall pre' m' post',
             Py.occurs (Py.word T) Py.bounded_email_shape user_input pre' m' post' ->
             List.length pre0 <= List.length pre')
       /\ (exists ps,
             Py.search (Py.word T) Py.bounded_email_shape None user_input
             = Some (pre0, ps, post0)
             /\ concat ps = m0)
       /\ Py.email (Py.extract_candidate_info T user_input info stage) = Some m0)
  /\ (forall e, Py.email info = Some e -> e <> [] ->
      Py.email (Py.extract_candidate_info T user_input info stage) = Some e)
  /\ (Py.email info <> Some [] ->
      Py.email (Py.extract_candidate_info T user_input info stage) <> Some [])
  /\ (forall w said s,
        reachable s ->
        email (candidate_info s) <> None ->
        email (candidate_info (store (process_user_input w said s)))
        = email (candidate_info s)).
Proof.
  split; [|split; [|split]].
  - intros Hst Hu Hbar pre m post [Hs (ps & Hm & Hw)].
    pose proof (py_no_bar _ Hbar) as Hall.
    destruct (py_search_complete _ _ _ _ _ _ _ _ Hs Hm) as [[[pre0 ps0] post0] Hr].
    exists pre0, (concat ps0), post0.
    split; [apply py_search_occurs, Hr|].
    split.
    { intros pre' m' post' [Hs' (ps' & Hm' & _)].
      exact (py_search_leftmost _ _ _ _ _ _ _ Hr _ _ _ _ Hs' Hm'). }
    split; [exists ps0; auto|].
    rewrite py_extract_email_field by exact Hst.
    rewrite <- (py_search_agree _ (Py.word T) _ _ py_email_patterns_agree
                  user_input None Hall) in Hr.
    rewrite (py_extract_email_found T _ _ pre0 ps0 post0); [reflexivity| |exact Hr].
    rewrite (proj1 (py_extract_name_others _ _ _ _)). rewrite Hu. reflexivity.
  - intros e He Hne. rewrite <- He. apply py_extraction_email_kept.
    rewrite He. destruct e; [contradiction | reflexivity].
  - apply py_extraction_email_set.
  - intros w said s. apply session_email_is_kept.
Qed.

Lemma email_is_the_first_bounded_match_witness :
  in_list "greeting" extraction_stages = true
  /\ Py.email Py.initial_info = None
  /\ Py.contains (Py.lit "|") (Py.lit "write to jane@roe.org or to j.roe@mail.roe.org")
     = false
  /\ Py.occurs (Py.word Py.plain) Py.bounded_email_shape
       (Py.lit "write to jane@roe.org or to j.roe@mail.roe.org")
       (Py.lit "write to ") (Py.lit "jane@roe.org") (Py.lit " or to j.roe@mail.roe.org")
  /\ exists pre0 m0 post0,
       Py.occurs (Py.word Py.plain) Py.bounded_email_shape
         (Py.lit "write to jane@roe.org or to j.roe@mail.roe.org") pre0 m0 post0
       /\ Py.email (Py.extract_candidate_info Py.plain
                      (Py.lit "write to jane@roe.org or to j.roe@mail.roe.org")
                      Py.initial_info "greeting")
          = Some m0.
Proof.
  assert (Ho : Py.occurs (Py.word Py.plain) Py.bounded_email_shape
                 (Py.lit "write to jane@roe.org or to j.roe@mail.roe.org")
                 (Py.lit "write to ") (Py.lit "jane@roe.org")
                 (Py.lit " or to j.roe@mail.roe.org")).
  { split; [reflexivity|].
    exists [[]; Py.lit "jane"; Py.lit "@"; Py.lit "roe"; Py.lit "."; Py.lit "org"; []].
    split; [|reflexivity].
    apply py_match_atoms_sound. vm_compute. reflexivity. }
  split; [reflexivity|]. split; [reflexivity|]. split; [reflexivity|]. split; [exact Ho|].
  destruct (proj1 (email_is_the_first_bounded_match Py.plain
                     (Py.lit "write to jane@roe.org or to j.roe@mail.roe.org")
                     Py.initial_info "greeting") eq_refl eq_refl eq_refl _ _ _ Ho)
    as (pre0 & m0 & post0 & H1 & _ & _ & H4).
  exists pre0, m0, post0. split; assumption.
Defined.

(** C5 as stated fails on the code: "a@b.cd1" holds the occurrence
    "a@b.cd" of the shape that the specification describes, and extraction
    leaves the email unset, in the extractor and in a session, because no
    word boundary follows the occurrence. *)
Lemma email_claim_fails :
  Py.occurs (Py.word Py.plain) Py.email_shape (Py.lit "a@b.cd1")
    [] (Py.lit "a@b.cd") (Py.lit "1")
  /\ Py.email Py.initial_info = None
  /\ Py.email (Py.extract_candidate_info Py.plain (Py.lit "a@b.cd1") Py.initial_info
                 "greeting") = None
  /\ email (candidate_info
              (store (process_user_input offline_world "a@b.cd1" initial_state)))
     = None.
Proof.
  split; [|split; [reflexivity|split; vm_compute; reflexivity]].
  split; [reflexivity|].
  exists [Py.lit "a"; Py.lit "@"; Py.lit "b"; Py.lit "."; Py.lit "cd"].
  split; [|reflexivity].
  apply py_match_atoms_sound. vm_compute. reflexivity.
Qed.

(** The last part of the pattern is written [[A-Z|a-z]], which takes the
    character [|] for a letter. *)
Example email_pattern_takes_a_bar :
  Py.email (Py.extract_candidate_info Py.plain (Py.lit "a@b.c|d or x@y.org")
              Py.initial_info "greeting")
  = Some (Py.lit "a@b.c|d").
Proof. vm_compute. reflexivity. Qed.

(** ** The phone validator *)

(** C6.  The phone validator accepts a non-empty text exactly when at
    least ten of its characters are digits, and raises the validation
    error when fewer are, whatever script the digits are written in.  The
    text it is handed at save time is never the empty one: the phone of a
    session is [None] or what extraction stored, and extraction never
    stores the empty text. *)
Theorem phone_validator_counts_digits (T : Py.Tables) (v : Py.text) :
  (v <> [] ->
   (Py.validate_phone T (Some v) = inr (Some v)
    <-> 10 <= List.length (filter (Py.isdigit T) v))
   /\ (List.length (filter (Py.isdigit T) v) < 10 ->
       Py.validate_phone T (Some v)
       = inl (ValueError "Phone number must have at least 10 digits")))
  /\ (forall user_input info stage,
        Py.phone info <> Some [] ->
        Py.phone (Py.extract_candidate_info T user_input info stage) <> Some [])
  /\ (forall s, reachable s -> phone (candidate_info s) <> Some "").
Proof.
  split; [|split].
  - intros Hv. unfold Py.validate_phone.
    destruct v as [|c v]; [contradiction|].
    cbn [Py.truthy].
    destruct (Nat.ltb_spec (List.length (filter (Py.isdigit T) (c :: v))) 10) as [H|H].
    + split; [split|]; intros; try discriminate; try lia; reflexivity.
    + split; [split|]; intros; try lia; reflexivity.
  - intros user_input info stage. apply py_extraction_phone_set.
  - intros s Hr. exact (proj2 (session_fields_are_never_empty s Hr)).
Qed.

Lemma phone_validator_counts_digits_witness :
  Py.lit "555-123-4567" <> []
  /\ 10 <= List.length (filter (Py.isdigit Py.plain) (Py.lit "555-123-4567"))
  /\ Py.validate_phone Py.plain (Some (Py.lit "555-123-4567"))
     = inr (Some (Py.lit "555-123-4567")).
Proof.
  assert (Hv : Py.lit "555-123-4567" <> []) by discriminate.
  assert (Hd : 10 <= List.length (filter (Py.isdigit Py.plain) (Py.lit "555-123-4567")))
    by (vm_compute; lia).
  split; [exact Hv|]. split; [exact Hd|].
  exact (proj2 (proj1 (proj1 (phone_validator_counts_digits Py.plain
                                (Py.lit "555-123-4567")) Hv)) Hd).
Defined.

(** The empty text passes unchecked, as [None] does; and a digit of
    another script counts as one: with tables that know the superscript
    two (code point 178) for a digit, "555 123 456" followed by it is
    accepted. *)
Example phone_validator_examples :
  Py.validate_phone Py.plain (Some []) = inr (Some [])
  /\ Py.validate_phone Py.plain None = inr None
  /\ Py.validate_phone Py.plain (Some (Py.lit "555 123 456"))
     = inl (ValueError "Phone number must have at least 10 digits")
  /\ Py.validate_phone
       (Py.MkTables (fun c => Py.ascii_digit c || (c =? 178)) Py.plain_space
                    Py.ascii_digit Py.plain_word Py.plain_lower)
       (Some (Py.lit "555 123 456" ++ [178])%list)
     = inr (Some (Py.lit "555 123 456" ++ [178])%list).
Proof. repeat split. Qed.

(** ** What extraction stores, on every text *)

(** X12.  When extraction sets the experience, the value it stores is a
    non-empty run of digits, as [\d] knows them, followed by " years":
    whatever the unit the candidate wrote ("yrs", "y.e.", "year"), and
    without the "+" of "5+ years". *)
Theorem extracted_experience_is_a_number_of_years (T : Py.Tables)
    (user_input : Py.text) (info : Py.CandidateInfo) (stage : string) :
  Py.experience (Py.extract_candidate_info T user_input info stage) = Py.experience info
  \/ exists d,
       Py.experience (Py.extract_candidate_info T user_input info stage)
       = Some (d ++ Py.lit " years")%list
       /\ d <> [] /\ forallb (Py.decimal T) d = true.
Proof.
  destruct (in_list stage extraction_stages) eqn:Hst;
    [|left; rewrite py_extract_outside_stages by exact Hst; reflexivity].
  rewrite py_extract_experience_field by exact Hst.
  set (i3 := Py.extract_phone T user_input _).
  assert (Hi : Py.experience i3 = Py.experience info).
  { unfold i3.
    rewrite (proj1 (proj2 (proj2 (py_extract_phone_others _ _ _)))).
    rewrite (proj1 (proj2 (proj2 (py_extract_email_others _ _ _)))).
    exact (proj1 (proj2 (proj2 (py_extract_name_others _ _ _ _)))). }
  unfold Py.extract_experience.
  destruct (negb (Py.truthy (Py.experience i3)) && existsb (Py.isdigit T) user_input);
    [|left; exact Hi].
  destruct (Py.first_experience T (Py.exp_patterns T) (Py.lower T user_input))
    as [e|] eqn:Ee; [|left; exact Hi].
  right. destruct (py_first_experience_shape _ _ _ Ee) as (d & -> & Hd & Ha).
  exists d. repeat split; assumption.
Qed.

(** X20.  When extraction sets the name, the value it stores is the first
    three words of the input at most, joined by single blanks; it is longer
    than two characters and its lowercased text holds none of "hi",
    "hello" and "hey" anywhere: a name such as "Sophia" is never stored. *)
Theorem extracted_name_holds_no_greeting (T : Py.Tables) (user_input : Py.text)
    (info : Py.CandidateInfo) (stage : string) :
  Py.name (Py.extract_candidate_info T user_input info stage) = Py.name info
  \/ exists n,
       Py.name (Py.extract_candidate_info T user_input info stage) = Some n
       /\ n = Py.join (Py.lit " ") (firstn 3 (Py.split T (Py.strip T user_input)))
       /\ 2 < List.length n
       /\ Py.contains (Py.lit "hi") (Py.lower T n) = false
       /\ Py.contains (Py.lit "hello") (Py.lower T n) = false
       /\ Py.contains (Py.lit "hey") (Py.lower T n) = false.
Proof.
  destruct (in_list stage extraction_stages) eqn:Hst;
    [|left; rewrite py_extract_outside_stages by exact Hst; reflexivity].
  rewrite py_extract_name_field by exact Hst.
  unfold Py.extract_name. cbv zeta.
  destruct ((stage =? "greeting")%string && negb (Py.truthy (Py.name info)));
    [|left; reflexivity].
  destruct (1 <=? List.length (Py.split T (Py.strip T user_input))); [|left; reflexivity].
  match goal with
  | |- context [if ?c then _ else _] => destruct c eqn:E; [|left; reflexivity]
  end.
  right. eexists. split; [reflexivity|]. split; [reflexivity|].
  apply andb_true_iff in E. destruct E as [E1 E2].
  apply Nat.ltb_lt in E1. apply negb_true_iff in E2.
  cbn [existsb] in E2. rewrite !orb_false_iff in E2.
  destruct E2 as (H1 & H2 & H3 & _).
  repeat split; assumption.
Qed.

(** ** The email validator *)

(** X21.  [validate_email] checks the beginning of the value only: a
    non-empty value is accepted exactly when the pattern occurs at its very
    start, whatever follows the occurrence; the empty text and [None] are
    accepted unchecked. *)
Theorem email_validator_checks_a_prefix (T : Py.Tables) (v : Py.text) :
  (accepted (Py.validate_email T (Some v))
   <-> v = []
       \/ exists m post,
            Py.occurs (Py.word T) (Py.atoms Py.email_pattern) v [] m post)
  /\ accepted (Py.validate_email T None).
Proof.
  split; [|apply accepted_inr].
  unfold Py.validate_email, Py.re_match.
  destruct v as [|c v]; cbn [Py.truthy].
  - split; [left; reflexivity | intros _; apply accepted_inr].
  - destruct (Py.match_atoms (Py.word T) (Py.atoms Py.email_pattern) None (c :: v))
      as [[ps post]|] eqn:E; cbn [negb].
    + split; [|intros _; apply accepted_inr].
      intros _. right. apply py_match_atoms_sound in E.
      pose proof (py_atoms_match_whole _ _ _ _ _ _ E) as Hw.
      exists (concat ps), post. split; [exact Hw|].
      exists ps. cbn [Py.last_char]. rewrite <- Hw. split; [exact E | reflexivity].
    + split; [intros H; exfalso; exact (not_accepted_inl _ H)|].
      intros [H|(m & post & Hs & ps & Hm & _)]; [discriminate|].
      exfalso. cbn [app Py.last_char] in Hs, Hm. rewrite <- Hs in Hm.
      destruct (py_match_atoms_complete _ _ _ _ _ _ Hm) as (x & y & Hx). congruence.
Qed.

(** With tables that know the letter e with an acute accent (code point
    233) for a word character, as Python does, no word boundary follows
    "a@b.cd" in "a@b.cd" followed by that letter, and one follows the bar
    of "a@b.c|" before it. *)
Example email_validator_beside_a_letter :
  let T := Py.MkTables Py.ascii_digit Py.plain_space Py.ascii_digit
                       (fun c => Py.plain_word c || (c =? 233)) Py.plain_lower in
  Py.validate_email T (Some (Py.lit "a@b.cd" ++ [233])%list)
  = inl (ValueError "Invalid email format")
  /\ Py.validate_email T (Some (Py.lit "a@b.c|" ++ [233])%list)
     = inr (Some (Py.lit "a@b.c|" ++ [233])%list)
  /\ Py.email (Py.extract_candidate_info T
                 (Py.lit "Ren" ++ [233] ++ Py.lit "a@b.cd")%list
                 Py.initial_info "greeting") = None.
Proof. cbv zeta. repeat split; vm_compute; reflexivity. Qed.
